(** * Stock and price synchronisation: a shallow embedding of
      [seller.py] (Ozon) and [market.py] (Yandex Market).

    The Python code is embedded as Rocq functions:
    - Python exceptions are the [Raise] branch of the [result] type;
    - the list object [offer_ids], which [create_stocks] mutates in place, is
      threaded through explicitly in the record [lists], next to the feed
      list [watch_remnants], which no function writes; a call that raises
      gives no lists back, as no caller looks at them after an exception;
    - [while True] loops (the offer enumerators) take a fuel argument and
      answer [None] when the fuel is exhausted;
    - calls to the marketplaces are answered by oracles and recorded in a
      trace of calls;
    - the generator [divide] is read through [list(...)], as every caller
      does.

    Strings are [String.string], i.e. sequences of bytes; a Python [str] is
    read as its UTF-8 encoding.  The characters that [split], [re.sub] and
    the comparisons inspect (['.'], the ASCII digits, ['>']) are ASCII, and
    no byte of a multi-byte UTF-8 sequence is ASCII, so the byte-wise
    functions below compute the UTF-8 encoding of what Python computes on
    code points.  [int] looks at the code points themselves (it reads the
    digits and the white space of every script), so its model decodes the
    text first.

    Both modules end with their definitions of the calls to the outside
    world; the properties come after all definitions. *)

From Stdlib Require Import List ZArith String Ascii Bool Lia Arith PeanoNat.
From Stdlib Require Import DecimalString DecimalPos DecimalZ Permutation.
Import ListNotations.

Local Open Scope string_scope.
Local Open Scope list_scope.
Local Open Scope Z_scope.

(** ** Python values, exceptions and the error monad *)

Module Py.

(** The exception classes the two programs can meet. [ReadTimeout] and
    [ConnectionError] are the two classes of [requests.exceptions] that the
    [main] functions name; [HTTPError] is what [raise_for_status] raises.
    All of them are subclasses of [Exception]. *)
Inductive exn : Type :=
| ValueError
| TypeError
| AttributeError
| IndexError
| ReadTimeout
| ConnectionError
| HTTPError.

Inductive result (A : Type) : Type :=
| Ok (a : A)
| Raise (e : exn).
Arguments Ok {A} a.
Arguments Raise {A} e.

Definition bind {A B : Type} (m : result A) (k : A -> result B) : result B :=
  match m with
  | Ok a => k a
  | Raise e => Raise e
  end.

(** A cell of the feed, as [pandas] hands it over in a record: a string,
    an integer, or nothing ([dict.get] of a missing key is [None]).
    Floating-point cells are outside this model. *)
Inductive pyobj : Type :=
| PyStr (s : string)
| PyInt (z : Z)
| PyNone.

(** [str(v)] *)
Definition str (v : pyobj) : string :=
  match v with
  | PyStr s => s
  | PyInt z => NilZero.string_of_int (Z.to_int z)
  | PyNone => "None"
  end.

(** *** [int(s)] on a string

    CPython reads a text in two steps.  [PyLong_FromUnicodeObject] first
    maps it to ASCII: a character below 128 is kept, any other white space
    becomes a blank, any other decimal digit (general category Nd) becomes
    the ASCII digit of the same value, and a text with any other character
    is refused.  [PyLong_FromString] then skips blanks, reads at most one
    sign and decimal digits in which a single ['_'] may separate two digits,
    skips blanks again and must be at the end of the text; it refuses a
    text with more than [max_str_digits] digits.  Every refusal is a
    [ValueError].

    The tables are those of Unicode 14.0 (CPython 3.11); the bound on the
    number of digits is the default of [sys.int_info]. *)

Definition is_digit (c : ascii) : bool :=
  let n := nat_of_ascii c in ((48 <=? n) && (n <=? 57))%nat.

Definition digit_val (c : ascii) : Z := Z.of_nat (nat_of_ascii c) - 48.

(** [Py_ISSPACE]: tab, line feed, vertical tab, form feed, carriage return,
    space. *)
Definition is_space (c : ascii) : bool :=
  let n := nat_of_ascii c in (((9 <=? n) && (n <=? 13)) || (n =? 32))%nat.

(** The code points of a text, read off its UTF-8 encoding: [need] bytes of
    the sequence under way are still to come, [cp] is the value read so far
    and [low] the least value that a sequence of that length may encode.
    [None] for bytes that are not the UTF-8 encoding of a text. *)
Fixpoint code_points_from (s : string) (need : nat) (cp low : Z)
  : option (list Z) :=
  match s with
  | EmptyString => match need with O => Some [] | S _ => None end
  | String c r =>
      let b := Z.of_nat (nat_of_ascii c) in
      match need with
      | O =>
          if b <? 0x80 then option_map (cons b) (code_points_from r 0 0 0)
          else if b <? 0xc0 then None
          else if b <? 0xe0 then code_points_from r 1 (b - 0xc0) 0x80
          else if b <? 0xf0 then code_points_from r 2 (b - 0xe0) 0x800
          else if b <? 0xf8 then code_points_from r 3 (b - 0xf0) 0x10000
          else None
      | S n =>
          if (0x80 <=? b) && (b <? 0xc0) then
            let cp' := 64 * cp + (b - 0x80) in
            match n with
            | O =>
                if (low <=? cp') && (cp' <=? 0x10ffff)
                   && negb ((0xd800 <=? cp') && (cp' <=? 0xdfff))
                then option_map (cons cp') (code_points_from r 0 0 0)
                else None
            | S _ => code_points_from r n cp' low
            end
          else None
      end
  end.

Definition code_points (s : string) : option (list Z) :=
  code_points_from s 0 0 0.

(** The white space beyond ASCII ([Py_UNICODE_ISSPACE]): next line,
    no-break space, ogham space mark, the spaces of the general punctuation
    block, line and paragraph separator, narrow no-break space, medium
    mathematical space, ideographic space. *)
Definition unicode_spaces : list Z :=
  [0x85; 0xa0; 0x1680; 0x2000; 0x2001; 0x2002; 0x2003; 0x2004; 0x2005;
   0x2006; 0x2007; 0x2008; 0x2009; 0x200a; 0x2028; 0x2029; 0x202f; 0x205f;
   0x3000].

Definition unicode_space (cp : Z) : bool := existsb (Z.eqb cp) unicode_spaces.

(** The decimal digits beyond ASCII (general category Nd, Unicode 14.0):
    every script has its ten digits in a row, from zero to nine, and the
    list gives the zero of each row. *)
Definition unicode_zeros : list Z :=
  [0x660; 0x6f0; 0x7c0; 0x966; 0x9e6; 0xa66; 0xae6; 0xb66; 0xbe6; 0xc66;
   0xce6; 0xd66; 0xde6; 0xe50; 0xed0; 0xf20; 0x1040; 0x1090; 0x17e0;
   0x1810; 0x1946; 0x19d0; 0x1a80; 0x1a90; 0x1b50; 0x1bb0; 0x1c40; 0x1c50;
   0xa620; 0xa8d0; 0xa900; 0xa9d0; 0xa9f0; 0xaa50; 0xabf0; 0xff10; 0x104a0;
   0x10d30; 0x11066; 0x110f0; 0x11136; 0x111d0; 0x112f0; 0x11450; 0x114d0;
   0x11650; 0x116c0; 0x11730; 0x118e0; 0x11950; 0x11c50; 0x11d50; 0x11da0;
   0x16a60; 0x16ac0; 0x16b50; 0x1d7ce; 0x1d7d8; 0x1d7e2; 0x1d7ec; 0x1d7f6;
   0x1e140; 0x1e2f0; 0x1e950; 0x1fbf0].

(** [Py_UNICODE_TODECIMAL] beyond ASCII *)
Definition unicode_decimal (cp : Z) : option Z :=
  match find (fun zero => (zero <=? cp) && (cp <=? zero + 9)) unicode_zeros with
  | Some zero => Some (cp - zero)
  | None => None
  end.

(** [_PyUnicode_TransformDecimalAndSpaceToASCII], one character: [None]
    stands for the ['?'] that makes the text unreadable. *)
Definition ascii_of_code_point (cp : Z) : option ascii :=
  if cp <? 0x80 then Some (ascii_of_nat (Z.to_nat cp))
  else if unicode_space cp then Some " "%char
  else match unicode_decimal cp with
       | Some d => Some (ascii_of_nat (Z.to_nat (48 + d)))
       | None => None
       end.

Fixpoint to_ascii_list (cps : list Z) : option string :=
  match cps with
  | [] => Some EmptyString
  | cp :: r =>
      match ascii_of_code_point cp, to_ascii_list r with
      | Some c, Some a => Some (String c a)
      | _, _ => None
      end
  end.

Definition to_ascii (s : string) : option string :=
  match code_points s with
  | Some cps => to_ascii_list cps
  | None => None
  end.

Fixpoint lstrip (s : string) : string :=
  match s with
  | String c r => if is_space c then lstrip r else s
  | EmptyString => EmptyString
  end.

Fixpoint rstrip (s : string) : string :=
  match s with
  | String c r =>
      match rstrip r with
      | EmptyString => if is_space c then EmptyString else String c EmptyString
      | r' => String c r'
      end
  | EmptyString => EmptyString
  end.

(** [acc] is the value read so far; [after_digit] tells whether the previous
    character was a digit (an underscore is accepted only there, and the
    text may end only there). *)
Fixpoint digits_from (s : string) (acc : Z) (after_digit : bool) : option Z :=
  match s with
  | EmptyString => if after_digit then Some acc else None
  | String c r =>
      if is_digit c then digits_from r (10 * acc + digit_val c) true
      else if Ascii.eqb c "_"%char
           then (if after_digit then digits_from r acc false else None)
           else None
  end.

Fixpoint count_digits (s : string) : Z :=
  match s with
  | EmptyString => 0
  | String c r => (if is_digit c then 1 else 0) + count_digits r
  end.

(** [sys.int_info.default_max_str_digits] *)
Definition max_str_digits : Z := 4300.

(** [PyLong_FromString] in base 10, on the ASCII text *)
Definition long_from_string (a : string) : result Z :=
  let body := rstrip (lstrip a) in
  let '(neg, ds) :=
    match body with
    | String c r =>
        if Ascii.eqb c "+"%char then (false, r)
        else if Ascii.eqb c "-"%char then (true, r)
        else (false, body)
    | EmptyString => (false, body)
    end in
  match digits_from ds 0 false with
  | Some z =>
      if max_str_digits <? count_digits ds then Raise ValueError
      else Ok (if neg then - z else z)
  | None => Raise ValueError
  end.

Definition int_of_string (s : string) : result Z :=
  match to_ascii s with
  | Some a => long_from_string a
  | None => Raise ValueError
  end.

(** [int(v)] *)
Definition int (v : pyobj) : result Z :=
  match v with
  | PyStr s => int_of_string s
  | PyInt z => Ok z
  | PyNone => Raise TypeError
  end.

(** [x in l] on a list of strings *)
Fixpoint contains (x : string) (l : list string) : bool :=
  match l with
  | [] => false
  | y :: r => if String.eqb x y then true else contains x r
  end.

(** [l.remove(x)]: drops the first element equal to [x]; [ValueError] when
    there is none. *)
Fixpoint remove (x : string) (l : list string) : result (list string) :=
  match l with
  | [] => Raise ValueError
  | y :: r =>
      if String.eqb x y then Ok r
      else bind (remove x r) (fun r' => Ok (y :: r'))
  end.

(** [s.split(".")[0]]: the text before the first ['.'], the whole text when
    there is none. *)
Fixpoint split_dot_head (s : string) : string :=
  match s with
  | EmptyString => EmptyString
  | String c r => if Ascii.eqb c "."%char then EmptyString
                  else String c (split_dot_head r)
  end.

(** [re.sub("[^0-9]", "", s)] *)
Fixpoint sub_non_digits (s : string) : string :=
  match s with
  | EmptyString => EmptyString
  | String c r => if is_digit c then String c (sub_non_digits r)
                  else sub_non_digits r
  end.

(** [len(range(start, stop, step))] for a positive step, as CPython
    computes it. *)
Definition range_len (start stop step : Z) : nat :=
  if stop <=? start then 0%nat
  else Z.to_nat ((stop - start - 1) / step + 1).

(** [range(start, stop, step)]: [ValueError] for a zero step, empty for a
    negative step when [start <= stop] (the only case met here, with
    [start = 0] and [stop = len(lst)]). *)
Definition range (start stop step : Z) : result (list Z) :=
  if step =? 0 then Raise ValueError
  else if step <? 0 then
         if start <=? stop then Ok []
         else Ok (map (fun k => start + Z.of_nat k * step)
                      (seq 0 (Z.to_nat ((start - stop - 1) / (- step) + 1))))
  else Ok (map (fun k => start + Z.of_nat k * step)
               (seq 0 (range_len start stop step))).

(** A slice bound is clamped into [0 .. len], a negative one counting from
    the end. *)
Definition clamp (len i : Z) : Z :=
  if i <? 0 then Z.max (i + len) 0 else Z.min i len.

(** [l[i:j]] *)
Definition slice {A : Type} (l : list A) (i j : Z) : list A :=
  let len := Z.of_nat (List.length l) in
  let lo := clamp len i in
  let hi := clamp len j in
  firstn (Z.to_nat (hi - lo)) (skipn (Z.to_nat lo) l).

End Py.

Import Py.

Notation "x <- m ;; k" := (Py.bind m (fun x => k))
  (at level 61, m at next level, right associativity).
Notation "' pat <- m ;; k" := (Py.bind m (fun x => match x with pat => k end))
  (at level 61, pat pattern, m at next level, right associativity).

(** ** Calls to the outside world

    A computation that talks to a marketplace takes the trace of the calls
    issued so far and gives back its outcome with the extended trace, or
    [None] when a [while True] loop ran out of fuel.  The outside world is a
    family of oracles: the answer to a call may depend on the request and on
    the number of calls issued before it.  A call is recorded in the trace
    whether it succeeds or raises. *)
Definition io (C A : Type) : Type := list C -> option (result A * list C).

Definition io_ret {C A : Type} (a : A) : io C A :=
  fun tr => Some (Ok a, tr).

Definition io_lift {C A : Type} (r : result A) : io C A :=
  fun tr => Some (r, tr).

Definition io_bind {C A B : Type} (m : io C A) (k : A -> io C B) : io C B :=
  fun tr =>
    match m tr with
    | None => None
    | Some (Raise e, tr') => Some (Raise e, tr')
    | Some (Ok a, tr') => k a tr'
    end.

Definition io_call {C A : Type} (c : C) (answer : nat -> result A) : io C A :=
  fun tr => Some (answer (List.length tr), tr ++ [c]).

Notation "x <~ m ;; k" := (io_bind m (fun x => k))
  (at level 61, m at next level, right associativity).
Notation "' pat <~ m ;; k" := (io_bind m (fun x => match x with pat => k end))
  (at level 61, pat pattern, m at next level, right associativity).

(** [for x in xs: body(x)] *)
Fixpoint for_each {C X : Type} (body : X -> io C unit) (xs : list X) : io C unit :=
  match xs with
  | [] => io_ret tt
  | x :: rest => _ <~ body x ;; for_each body rest
  end.

(** What the [except] clauses of the two [main] print: the first clause is
    for [ReadTimeout], the second for [ConnectionError], the third for any
    other [Exception]. *)
Inductive message : Type :=
| TimeoutMessage
| ConnectionMessage (e : exn)
| Error2Message (e : exn).

Definition except_message (e : exn) : message :=
  match e with
  | ReadTimeout => TimeoutMessage
  | ConnectionError => ConnectionMessage e
  | _ => Error2Message e
  end.


(** ** The feed and the two list objects *)

(** One record of the distributor's spreadsheet, with the three columns the
    programs read: [w_code] is ["Код"], [w_count] is ["Количество"] and
    [w_price] is ["Цена"]. *)
Record watch : Type := Watch {
  w_code : pyobj;
  w_count : pyobj;
  w_price : pyobj
}.

(** The two list objects handed to the reconcilers. [create_stocks] removes
    elements from [offer_ids] in place, so the caller sees the change. *)
Record lists : Type := Lists {
  watch_remnants : list watch;
  offer_ids : list string
}.

Definition set_offer_ids (ids : list string) (mem : lists) : lists :=
  {| watch_remnants := watch_remnants mem; offer_ids := ids |}.

(** The quantity rule of both [create_stocks] (seller.py 220-226,
    market.py 194-200): the text of the cell is compared with [">10"] and
    ["1"], and otherwise the cell itself is given to [int]. *)
Definition stock_of_count (cell : pyobj) : result Z :=
  let count := str cell in
  if String.eqb count ">10" then Ok 100
  else if String.eqb count "1" then Ok 0
  else int cell.

(** ** seller.py *)

Module Seller.

Record stock_update : Type := StockUpdate {
  offer_id : string;
  stock : Z
}.

Record price_update : Type := PriceUpdate {
  auto_action_enabled : string;
  currency_code : string;
  p_offer_id : string;
  old_price : string;
  price : string
}.

(** [price_conversion]: a value without [split] raises [AttributeError]. *)
Definition price_conversion (price : pyobj) : result string :=
  match price with
  | PyStr s => Ok (sub_non_digits (split_dot_head s))
  | _ => Raise AttributeError
  end.

(** [divide], read through [list(...)] as every caller does. *)
Definition divide {A : Type} (lst : list A) (n : Z) : result (list (list A)) :=
  idx <- range 0 (Z.of_nat (List.length lst)) n ;;
  Ok (map (fun i => slice lst i (i + n)) idx).

(** First loop of [create_stocks]. *)
Fixpoint stocks_loop (ws : list watch) (stocks : list stock_update) (mem : lists)
  : result (list stock_update * lists) :=
  match ws with
  | [] => Ok (stocks, mem)
  | w :: rest =>
      if contains (str (w_code w)) (offer_ids mem) then
        stock <- stock_of_count (w_count w) ;;
        let stocks := stocks ++ [ {| offer_id := str (w_code w); stock := stock |} ] in
        ids <- remove (str (w_code w)) (offer_ids mem) ;;
        stocks_loop rest stocks (set_offer_ids ids mem)
      else stocks_loop rest stocks mem
  end.

(** Second loop of [create_stocks]: the zero fill. *)
Fixpoint zero_fill (ids : list string) (stocks : list stock_update)
  : list stock_update :=
  match ids with
  | [] => stocks
  | id :: rest => zero_fill rest (stocks ++ [ {| offer_id := id; stock := 0 |} ])
  end.

(** [create_stocks] returns the list of updates and leaves the two list
    objects in the second component. *)
Definition create_stocks (mem : lists) : result (list stock_update * lists) :=
  '(stocks, mem) <- stocks_loop (watch_remnants mem) [] mem ;;
  Ok (zero_fill (offer_ids mem) stocks, mem).

Fixpoint prices_loop (ws : list watch) (prices : list price_update) (mem : lists)
  : result (list price_update) :=
  match ws with
  | [] => Ok prices
  | w :: rest =>
      if contains (str (w_code w)) (offer_ids mem) then
        p <- price_conversion (w_price w) ;;
        let price := {| auto_action_enabled := "UNKNOWN";
                        currency_code := "RUB";
                        p_offer_id := str (w_code w);
                        old_price := "0";
                        price := p |} in
        prices_loop rest (prices ++ [price]) mem
      else prices_loop rest prices mem
  end.

Definition create_prices (mem : lists) : result (list price_update) :=
  prices_loop (watch_remnants mem) [] mem.

(** *** The calls of seller.py *)

Record product : Type := Product {
  prod_offer_id : string
}.

(** The ["result"] of [/v2/product/list]. *)
Record product_page : Type := ProductPage {
  items : list product;
  total : Z;
  last_id : string
}.

Inductive call : Type :=
| ProductList (last_id : string)
| DownloadStock
| UpdateStocks (stocks : list stock_update)
| UpdatePrice (prices : list price_update).

(** The answers of the outside world, by number of calls issued before. *)
Record api : Type := Api {
  product_list_answer : nat -> string -> result product_page;
  download_answer : nat -> result (list watch);
  update_stocks_answer : nat -> list stock_update -> result unit;
  update_price_answer : nat -> list price_update -> result unit
}.

Section WithApi.
Variable world : api.

Definition get_product_list (last_id : string) : io call product_page :=
  io_call (ProductList last_id) (fun n => product_list_answer world n last_id).

Definition update_price (prices : list price_update) : io call unit :=
  io_call (UpdatePrice prices) (fun n => update_price_answer world n prices).

Definition update_stocks (stocks : list stock_update) : io call unit :=
  io_call (UpdateStocks stocks) (fun n => update_stocks_answer world n stocks).

Definition download_stock : io call (list watch) :=
  io_call DownloadStock (download_answer world).

(** The [while True] loop of [get_offer_ids]. *)
Fixpoint offers_loop (fuel : nat) (last_id : string) (product_list : list product)
  : io call (list product) :=
  match fuel with
  | O => fun _ => None
  | S fuel =>
      some_prod <~ get_product_list last_id ;;
      let product_list := product_list ++ items some_prod in
      if total some_prod =? Z.of_nat (List.length product_list)
      then io_ret product_list
      else offers_loop fuel (Seller.last_id some_prod) product_list
  end.

Definition get_offer_ids (fuel : nat) : io call (list string) :=
  product_list <~ offers_loop fuel "" [] ;;
  io_ret (map prod_offer_id product_list).

Definition upload_prices (fuel : nat) (watch_remnants : list watch)
  : io call (list price_update) :=
  offer_ids <~ get_offer_ids fuel ;;
  prices <~ io_lift (create_prices (Lists watch_remnants offer_ids)) ;;
  chunks <~ io_lift (divide prices 1000) ;;
  _ <~ for_each update_price chunks ;;
  io_ret prices.

Definition upload_stocks (fuel : nat) (watch_remnants : list watch)
  : io call (list stock_update * list stock_update) :=
  offer_ids <~ get_offer_ids fuel ;;
  '(stocks, _) <~ io_lift (create_stocks (Lists watch_remnants offer_ids)) ;;
  chunks <~ io_lift (divide stocks 100) ;;
  _ <~ for_each update_stocks chunks ;;
  let not_empty := filter (fun stock => negb (Seller.stock stock =? 0)) stocks in
  io_ret (not_empty, stocks).

(** The [try] block of [main]. *)
Definition main_body (fuel : nat) : io call unit :=
  offer_ids <~ get_offer_ids fuel ;;
  watch_remnants <~ download_stock ;;
  '(stocks, mem) <~ io_lift (create_stocks (Lists watch_remnants offer_ids)) ;;
  chunks <~ io_lift (divide stocks 100) ;;
  _ <~ for_each update_stocks chunks ;;
  prices <~ io_lift (create_prices mem) ;;
  chunks <~ io_lift (divide prices 900) ;;
  for_each update_price chunks.

(** [main]: what it prints and the calls it issued. *)
Definition main (fuel : nat) (tr : list call) : option (list message * list call) :=
  match main_body fuel tr with
  | None => None
  | Some (Ok _, tr') => Some ([], tr')
  | Some (Raise e, tr') => Some ([except_message e], tr')
  end.

End WithApi.


End Seller.

(** ** market.py *)

Module Market.

Record item : Type := Item {
  i_count : Z;
  i_type : string;
  updatedAt : string
}.

Record stock_update : Type := StockUpdate {
  sku : string;
  warehouseId : string;
  items : list item
}.

Record price_value : Type := PriceValue {
  value : Z;
  currencyId : string
}.

Record price_update : Type := PriceUpdate {
  id : string;
  price : price_value
}.

(** [date] stands for the text of [datetime.datetime.utcnow()] taken once
    at the start of [create_stocks]. *)
Section CreateStocks.
Variables (warehouse_id date : string).

Fixpoint stocks_loop (ws : list watch) (stocks : list stock_update) (mem : lists)
  : result (list stock_update * lists) :=
  match ws with
  | [] => Ok (stocks, mem)
  | w :: rest =>
      if contains (str (w_code w)) (offer_ids mem) then
        stock <- stock_of_count (w_count w) ;;
        let stocks :=
          stocks ++ [ {| sku := str (w_code w);
                         warehouseId := warehouse_id;
                         items := [ {| i_count := stock;
                                       i_type := "FIT";
                                       updatedAt := date |} ] |} ] in
        ids <- remove (str (w_code w)) (offer_ids mem) ;;
        stocks_loop rest stocks (set_offer_ids ids mem)
      else stocks_loop rest stocks mem
  end.

Fixpoint zero_fill (ids : list string) (stocks : list stock_update)
  : list stock_update :=
  match ids with
  | [] => stocks
  | offer_id :: rest =>
      zero_fill rest
        (stocks ++ [ {| sku := offer_id;
                        warehouseId := warehouse_id;
                        items := [ {| i_count := 0;
                                      i_type := "FIT";
                                      updatedAt := date |} ] |} ])
  end.

Definition create_stocks (mem : lists) : result (list stock_update * lists) :=
  '(stocks, mem) <- stocks_loop (watch_remnants mem) [] mem ;;
  Ok (zero_fill (offer_ids mem) stocks, mem).
End CreateStocks.

Fixpoint prices_loop (ws : list watch) (prices : list price_update) (mem : lists)
  : result (list price_update) :=
  match ws with
  | [] => Ok prices
  | w :: rest =>
      if contains (str (w_code w)) (offer_ids mem) then
        p <- Seller.price_conversion (w_price w) ;;
        v <- int (PyStr p) ;;
        let price := {| id := str (w_code w);
                        price := {| value := v; currencyId := "RUR" |} |} in
        prices_loop rest (prices ++ [price]) mem
      else prices_loop rest prices mem
  end.

Definition create_prices (mem : lists) : result (list price_update) :=
  prices_loop (watch_remnants mem) [] mem.

(** *** The calls of market.py *)

(** An entry of ["offerMappingEntries"], read through
    [.get("offer").get("shopSku")]. *)
Record entry : Type := Entry {
  shopSku : string
}.

(** The ["result"] of [offer-mapping-entries]; [nextPageToken] is [None]
    when ["paging"] has no such key. *)
Record entries_page : Type := EntriesPage {
  offerMappingEntries : list entry;
  nextPageToken : option string
}.

Inductive call : Type :=
| ProductList (campaign_id page : string)
| DownloadStock
| UpdateStocks (campaign_id : string) (stocks : list stock_update)
| UpdatePrice (campaign_id : string) (prices : list price_update).

Record api : Type := Api {
  product_list_answer : nat -> string -> string -> result entries_page;
  download_answer : nat -> result (list watch);
  update_stocks_answer : nat -> string -> list stock_update -> result unit;
  update_price_answer : nat -> string -> list price_update -> result unit
}.

(** [stock.get("items")[0].get("count") != 0] *)
Definition count_not_zero (stock : stock_update) : result bool :=
  match items stock with
  | [] => Raise IndexError
  | i :: _ => Ok (negb (i_count i =? 0))
  end.

(** [list(filter(f, l))] for a test that may raise. *)
Fixpoint filter_raising {A : Type} (f : A -> result bool) (l : list A)
  : result (list A) :=
  match l with
  | [] => Ok []
  | a :: rest =>
      keep <- f a ;;
      kept <- filter_raising f rest ;;
      Ok (if keep then a :: kept else kept)
  end.

Section WithApi.
Variable world : api.

Definition get_product_list (page campaign_id : string) : io call entries_page :=
  io_call (ProductList campaign_id page)
          (fun n => product_list_answer world n campaign_id page).

Definition update_stocks (stocks : list stock_update) (campaign_id : string)
  : io call unit :=
  io_call (UpdateStocks campaign_id stocks)
          (fun n => update_stocks_answer world n campaign_id stocks).

Definition update_price (prices : list price_update) (campaign_id : string)
  : io call unit :=
  io_call (UpdatePrice campaign_id prices)
          (fun n => update_price_answer world n campaign_id prices).

Definition download_stock : io call (list watch) :=
  io_call DownloadStock (download_answer world).

(** The [while True] loop of [get_offer_ids]; [not page] holds for [None]
    and for the empty text. *)
Fixpoint offers_loop (fuel : nat) (campaign_id page : string)
         (product_list : list entry) : io call (list entry) :=
  match fuel with
  | O => fun _ => None
  | S fuel =>
      some_prod <~ get_product_list page campaign_id ;;
      let product_list := product_list ++ offerMappingEntries some_prod in
      match nextPageToken some_prod with
      | None => io_ret product_list
      | Some page =>
          if String.eqb page "" then io_ret product_list
          else offers_loop fuel campaign_id page product_list
      end
  end.

Definition get_offer_ids (fuel : nat) (campaign_id : string)
  : io call (list string) :=
  product_list <~ offers_loop fuel campaign_id "" [] ;;
  io_ret (map shopSku product_list).

Definition upload_prices (fuel : nat) (watch_remnants : list watch)
           (campaign_id : string) : io call (list price_update) :=
  offer_ids <~ get_offer_ids fuel campaign_id ;;
  prices <~ io_lift (create_prices (Lists watch_remnants offer_ids)) ;;
  chunks <~ io_lift (Seller.divide prices 500) ;;
  _ <~ for_each (fun some_prices => update_price some_prices campaign_id) chunks ;;
  io_ret prices.

Definition upload_stocks (fuel : nat) (watch_remnants : list watch)
           (campaign_id warehouse_id date : string)
  : io call (list stock_update * list stock_update) :=
  offer_ids <~ get_offer_ids fuel campaign_id ;;
  '(stocks, _) <~ io_lift (create_stocks warehouse_id date
                                         (Lists watch_remnants offer_ids)) ;;
  chunks <~ io_lift (Seller.divide stocks 2000) ;;
  _ <~ for_each (fun some_stock => update_stocks some_stock campaign_id) chunks ;;
  not_empty <~ io_lift (filter_raising count_not_zero stocks) ;;
  io_ret (not_empty, stocks).

(** One campaign in the [try] block of [main].  [upload_prices] is declared
    [async] and [main] calls it without awaiting it, so the call only builds
    a coroutine object: nothing of its body runs. *)
Definition main_campaign (fuel : nat) (watch_remnants : list watch)
           (campaign_id warehouse_id date : string) : io call unit :=
  offer_ids <~ get_offer_ids fuel campaign_id ;;
  '(stocks, _) <~ io_lift (create_stocks warehouse_id date
                                         (Lists watch_remnants offer_ids)) ;;
  chunks <~ io_lift (Seller.divide stocks 2000) ;;
  for_each (fun some_stock => update_stocks some_stock campaign_id) chunks.

(** [main]: [download_stock] is called before the [try], so its exception
    leaves [main]; everything after it is caught.  [date_fbs] and [date_dbs]
    are the two readings of the clock. *)
Definition main (fuel : nat)
           (campaign_fbs_id campaign_dbs_id : string)
           (warehouse_fbs_id warehouse_dbs_id : string)
           (date_fbs date_dbs : string)
           (tr : list call) : option (result (list message) * list call) :=
  match download_stock tr with
  | None => None
  | Some (Raise e, tr') => Some (Raise e, tr')
  | Some (Ok watch_remnants, tr') =>
      match (_ <~ main_campaign fuel watch_remnants campaign_fbs_id
                                warehouse_fbs_id date_fbs ;;
             main_campaign fuel watch_remnants campaign_dbs_id
                           warehouse_dbs_id date_dbs) tr' with
      | None => None
      | Some (Ok _, tr'') => Some (Ok [], tr'')
      | Some (Raise e, tr'') => Some (Ok [except_message e], tr'')
      end
  end.

End WithApi.


End Market.

(** ** Specification vocabulary for the reconcilers *)

(** The codes of the feed, as the programs compare them: [str(watch.get("Код"))]. *)
Definition codes (ws : list watch) : list string :=
  map (fun w => str (w_code w)) ws.

(** [l] without its first element equal to [x]. *)
Fixpoint remove_first (x : string) (l : list string) : list string :=
  match l with
  | [] => []
  | y :: r => if String.eqb x y then r else y :: remove_first x r
  end.

(** What is left of the known ids after the codes [cs] were looked up one
    after the other, each hit taking one occurrence away. *)
Fixpoint consume (cs : list string) (ids : list string) : list string :=
  match cs with
  | [] => ids
  | c :: r => if contains c ids then consume r (remove_first c ids)
              else consume r ids
  end.

(** The known ids that no record of the feed carries. *)
Definition unmatched (ws : list watch) (ids : list string) : list string :=
  filter (fun id => negb (contains id (codes ws))) ids.

(** The value of a text of decimal digits, most significant digit first. *)
Fixpoint decimal_value (s : string) : Z :=
  match s with
  | EmptyString => 0
  | String c r => digit_val c * 10 ^ Z.of_nat (String.length r) + decimal_value r
  end.

Fixpoint all_digits (s : string) : bool :=
  match s with
  | EmptyString => true
  | String c r => is_digit c && all_digits r
  end.

(** *** The texts that [int] reads *)

(** White space: the six ASCII blanks and the white space beyond ASCII. *)
Definition whitespace (cp : Z) : bool :=
  ((9 <=? cp) && (cp <=? 13)) || (cp =? 32)
  || ((0x80 <=? cp) && unicode_space cp).

(** The value of a decimal digit, of ASCII or of another script. *)
Definition decimal_digit (cp : Z) : option Z :=
  if (48 <=? cp) && (cp <=? 57) then Some (cp - 48)
  else if 0x80 <=? cp then unicode_decimal cp
  else None.

Definition is_decimal (cp : Z) : bool :=
  match decimal_digit cp with Some _ => true | None => false end.

Definition digit_of (cp : Z) : Z :=
  match decimal_digit cp with Some d => d | None => 0 end.

(** The value of a row of digits, most significant digit first. *)
Fixpoint numeral_value (ds : list Z) : Z :=
  match ds with
  | [] => 0
  | d :: r => digit_of d * 10 ^ Z.of_nat (List.length r) + numeral_value r
  end.

(** A group of digits: at least one, digits only. *)
Definition digit_group (g : list Z) : Prop :=
  g <> [] /\ forallb is_decimal g = true.

(** Groups written one after the other with one ['_'] between two groups. *)
Fixpoint join_groups (g : list Z) (gs : list (list Z)) : list Z :=
  match gs with
  | [] => g
  | g' :: r => g ++ 95 :: join_groups g' r
  end.

(** The text [s] reads as the integer [v]: white space, at most one sign,
    groups of digits joined by single underscores with no more than
    [max_str_digits] digits in all, white space. *)
Definition reads_as (s : string) (v : Z) : Prop :=
  exists (l sg r g : list Z) (gs : list (list Z)),
    code_points s = Some (l ++ sg ++ join_groups g gs ++ r)
    /\ forallb whitespace l = true
    /\ forallb whitespace r = true
    /\ Forall digit_group (g :: gs)
    /\ Z.of_nat (List.length (List.concat (g :: gs))) <= max_str_digits
    /\ (sg = [] /\ v = numeral_value (List.concat (g :: gs))
        \/ sg = [43] /\ v = numeral_value (List.concat (g :: gs))
        \/ sg = [45] /\ v = - numeral_value (List.concat (g :: gs))).



(** The two [create_stocks] differ only in the dictionary they build for an
    offer id and a quantity; [Reconcile] is their common shape, over that
    constructor. *)
Section Reconcile.
Context {U : Type} (mk : string -> Z -> U).

Fixpoint stocks_loop_of (ws : list watch) (stocks : list U) (mem : lists)
  : result (list U * lists) :=
  match ws with
  | [] => Ok (stocks, mem)
  | w :: rest =>
      if contains (str (w_code w)) (offer_ids mem) then
        stock <- stock_of_count (w_count w) ;;
        ids <- remove (str (w_code w)) (offer_ids mem) ;;
        stocks_loop_of rest (stocks ++ [mk (str (w_code w)) stock])
                       (set_offer_ids ids mem)
      else stocks_loop_of rest stocks mem
  end.

Definition zero_fill_of (ids : list string) : list U :=
  map (fun id => mk id 0) ids.

Definition create_stocks_of (mem : lists) : result (list U * lists) :=
  '(stocks, mem) <- stocks_loop_of (watch_remnants mem) [] mem ;;
  Ok (stocks ++ zero_fill_of (offer_ids mem), mem).
End Reconcile.

(** The chunks of [divide] written with natural numbers: chunk [k] is the
    [m] elements that follow the first [k * m]. *)
Definition chunk_at {A : Type} (m : nat) (l : list A) (k : nat) : list A :=
  firstn m (skipn (k * m) l).


(** The dictionary that market.py builds for an offer id and a quantity. *)
Definition market_entry (warehouse_id date : string) (id : string) (q : Z)
  : Market.stock_update :=
  {| Market.sku := id;
     Market.warehouseId := warehouse_id;
     Market.items := [ {| Market.i_count := q;
                          Market.i_type := "FIT";
                          Market.updatedAt := date |} ] |}.


(** The two [create_prices] differ only in the dictionary they build from a
    record of the feed; [prices_loop_of] is their common shape. *)
Section ReconcilePrices.
Context {P : Type} (build : watch -> result P).

Fixpoint prices_loop_of (ws : list watch) (prices : list P) (mem : lists)
  : result (list P) :=
  match ws with
  | [] => Ok prices
  | w :: rest =>
      if contains (str (w_code w)) (offer_ids mem) then
        price <- build w ;;
        prices_loop_of rest (prices ++ [price]) mem
      else prices_loop_of rest prices mem
  end.
End ReconcilePrices.

Definition seller_price (w : watch) : result Seller.price_update :=
  p <- Seller.price_conversion (w_price w) ;;
  Ok {| Seller.auto_action_enabled := "UNKNOWN";
        Seller.currency_code := "RUB";
        Seller.p_offer_id := str (w_code w);
        Seller.old_price := "0";
        Seller.price := p |}.

Definition market_price (w : watch) : result Market.price_update :=
  p <- Seller.price_conversion (w_price w) ;;
  v <- int (PyStr p) ;;
  Ok {| Market.id := str (w_code w);
        Market.price := {| Market.value := v; Market.currencyId := "RUR" |} |}.


(** A small run used to exercise the statements below: three records of the
    feed, the last with an unknown code and an unreadable quantity, and four
    known ids. *)
Definition example_lists : lists :=
  {| watch_remnants :=
       [ Watch (PyStr "GA-100") (PyStr ">10") (PyStr "5'990.00 руб.");
         Watch (PyInt 70212) (PyStr "1") (PyStr "1200 руб.");
         Watch (PyStr "X9") (PyStr "нет") PyNone ];
     offer_ids := ["GA-100"; "B-7"; "70212"; "C-3"] |}.

(** The same feed record met with a list of known ids that holds one id
    twice. *)
Definition duplicate_lists : lists :=
  {| watch_remnants := [ Watch (PyStr "GA-100") (PyStr "5") (PyStr "5'990.00 руб.") ];
     offer_ids := ["GA-100"; "GA-100"] |}.


(** ** Specification vocabulary for the enumerators

    [seller_pages world n0 k] is the state of the loop of
    [Seller.get_offer_ids] after [k] pages were fetched and none of them
    ended the loop, the first call being call number [n0]: the [last_id] to
    send next and the products gathered so far.  [None] when one of these
    calls raised. *)
Fixpoint seller_pages (world : Seller.api) (n0 k : nat)
  : option (string * list Seller.product) :=
  match k with
  | O => Some ("", [])
  | S k' =>
      match seller_pages world n0 k' with
      | Some (last_id, product_list) =>
          match Seller.product_list_answer world (n0 + k') last_id with
          | Ok page => Some (Seller.last_id page,
                             product_list ++ Seller.items page)
          | Raise _ => None
          end
      | None => None
      end
  end.

(** Page number [k] ends the loop: the number of products gathered reaches
    the advertised total (or the call raises). *)
Definition seller_stops_at (world : Seller.api) (n0 k : nat) : Prop :=
  match seller_pages world n0 k with
  | Some (last_id, product_list) =>
      match Seller.product_list_answer world (n0 + k) last_id with
      | Ok page =>
          Seller.total page
          = Z.of_nat (List.length (product_list ++ Seller.items page))
      | Raise _ => True
      end
  | None => False
  end.

Fixpoint market_pages (world : Market.api) (campaign_id : string) (n0 k : nat)
  : option (string * list Market.entry) :=
  match k with
  | O => Some ("", [])
  | S k' =>
      match market_pages world campaign_id n0 k' with
      | Some (page, product_list) =>
          match Market.product_list_answer world (n0 + k') campaign_id page with
          | Ok some_prod =>
              match Market.nextPageToken some_prod with
              | Some next =>
                  Some (next, product_list ++ Market.offerMappingEntries some_prod)
              | None => None
              end
          | Raise _ => None
          end
      | None => None
      end
  end.

(** Page number [k] ends the loop: its token is absent or empty (or the call
    raises). *)
Definition market_stops_at (world : Market.api) (campaign_id : string)
           (n0 k : nat) : Prop :=
  match market_pages world campaign_id n0 k with
  | Some (page, _) =>
      match Market.product_list_answer world (n0 + k) campaign_id page with
      | Ok some_prod =>
          Market.nextPageToken some_prod = None
          \/ Market.nextPageToken some_prod = Some ""
      | Raise _ => True
      end
  | None => False
  end.


(** Two worlds in which every page is full.  Ozon advertises 2000 products
    and answers each call with the next 1000 (the [limit] of the request);
    Yandex answers the first call with 200 entries (its [limit]) and a
    token, the second with 200 entries and an empty token.  Every upload
    succeeds. *)
Definition numbered (first count : nat) : list string :=
  map (fun i => NilZero.string_of_uint (Nat.to_uint i)) (seq first count).

Definition seller_full_pages : Seller.api :=
  {| Seller.product_list_answer := fun n _ =>
       Ok {| Seller.items := map Seller.Product (numbered (n * 1000) 1000);
             Seller.total := 2000;
             Seller.last_id := NilZero.string_of_uint (Nat.to_uint (S n)) |};
     Seller.download_answer := fun _ => Ok (watch_remnants example_lists);
     Seller.update_stocks_answer := fun _ _ => Ok tt;
     Seller.update_price_answer := fun _ _ => Ok tt |}.

Definition market_full_pages : Market.api :=
  {| Market.product_list_answer := fun n _ _ =>
       Ok {| Market.offerMappingEntries :=
               map Market.Entry (numbered (n * 200) 200);
             Market.nextPageToken :=
               Some (if (n =? 0)%nat then "page-2" else "") |};
     Market.download_answer := fun _ => Ok (watch_remnants example_lists);
     Market.update_stocks_answer := fun _ _ _ => Ok tt;
     Market.update_price_answer := fun _ _ _ => Ok tt |}.


(** ** Specification vocabulary for the upload loops

    The first chunk of [xs] whose upload raises, with its position and the
    exception, when the first upload is call number [n]. *)
Fixpoint first_failure {X : Type} (answer : nat -> X -> result unit)
         (n : nat) (xs : list X) : option (nat * exn) :=
  match xs with
  | [] => None
  | x :: rest =>
      match answer n x with
      | Raise e => Some (O, e)
      | Ok _ =>
          match first_failure answer (S n) rest with
          | Some (j, e) => Some (S j, e)
          | None => None
          end
      end
  end.

(** Small worlds: the marketplace lists three products on one page, and
    every upload gets the same answer. *)
Definition seller_small (stocks_answer price_answer : result unit) : Seller.api :=
  {| Seller.product_list_answer := fun _ _ =>
       Ok {| Seller.items := map Seller.Product ["GA-100"; "70212"; "B-7"];
             Seller.total := 3;
             Seller.last_id := "B-7" |};
     Seller.download_answer := fun _ => Ok (watch_remnants example_lists);
     Seller.update_stocks_answer := fun _ _ => stocks_answer;
     Seller.update_price_answer := fun _ _ => price_answer |}.

Definition market_small (stocks_answer price_answer : result unit) : Market.api :=
  {| Market.product_list_answer := fun _ _ _ =>
       Ok {| Market.offerMappingEntries :=
               map Market.Entry ["GA-100"; "70212"; "B-7"];
             Market.nextPageToken := None |};
     Market.download_answer := fun _ => Ok (watch_remnants example_lists);
     Market.update_stocks_answer := fun _ _ _ => stocks_answer;
     Market.update_price_answer := fun _ _ _ => price_answer |}.

(** Ozon refuses every upload: stocks with a connection error, prices with
    a timeout. *)
Definition seller_refusing : Seller.api :=
  seller_small (Raise ConnectionError) (Raise ReadTimeout).

(** The count that [upload_stocks] of market.py tests, as a total test. *)
Definition market_count_not_zero (stock : Market.stock_update) : bool :=
  match Market.items stock with
  | i :: _ => negb (Market.i_count i =? 0)
  | [] => false
  end.

(** ** Specification vocabulary for the further properties *)

(** What a caller of [create_stocks] observes: the updates and the known ids
    that are left. *)
Definition observed {U : Type} (r : result (list U * lists))
  : result (list U * list string) :=
  '(out, mem) <- r ;; Ok (out, offer_ids mem).

(** The digits of the price of a record that [price_conversion] keeps; the
    empty text for a price that is no text. *)
Definition price_digits (w : watch) : string :=
  match w_price w with
  | PyStr s => sub_non_digits (split_dot_head s)
  | _ => EmptyString
  end.

(** The records of the feed whose code is among [ids]. *)
Definition known_records (ws : list watch) (ids : list string) : list watch :=
  filter (fun w => contains (str (w_code w)) ids) ws.

(** The price uploads of a trace. *)
Definition seller_price_call (c : Seller.call) : bool :=
  match c with
  | Seller.UpdatePrice _ => true
  | _ => false
  end.

Definition market_price_call (c : Market.call) : bool :=
  match c with
  | Market.UpdatePrice _ _ => true
  | _ => false
  end.

(** A computation that issues no call selected by [sel]. *)
Definition issues_none {C A : Type} (sel : C -> bool) (m : io C A) : Prop :=
  forall tr r tr', m tr = Some (r, tr') -> filter sel tr' = filter sel tr.

(** The listing calls of the first [count] pages of a run of
    [get_offer_ids] that starts as call number [n0]: each sends the
    [last_id] (the token) that the page before it returned. *)
Definition seller_requests (world : Seller.api) (n0 count : nat)
  : list Seller.call :=
  map (fun j => match seller_pages world n0 j with
                | Some (last_id, _) => Seller.ProductList last_id
                | None => Seller.ProductList ""
                end)
      (seq 0 count).

Definition market_requests (world : Market.api) (campaign_id : string)
           (n0 count : nat) : list Market.call :=
  map (fun j => match market_pages world campaign_id n0 j with
                | Some (page, _) => Market.ProductList campaign_id page
                | None => Market.ProductList campaign_id ""
                end)
      (seq 0 count).

(** Worlds whose listing never ends the loop: Ozon advertises three products
    and hands out two per page, so the count steps over the total; Yandex
    returns a token with every page. *)
Definition seller_overshooting : Seller.api :=
  {| Seller.product_list_answer := fun n _ =>
       Ok {| Seller.items := map Seller.Product (numbered (n * 2) 2);
             Seller.total := 3;
             Seller.last_id := "x" |};
     Seller.download_answer := fun _ => Ok [];
     Seller.update_stocks_answer := fun _ _ => Ok tt;
     Seller.update_price_answer := fun _ _ => Ok tt |}.

Definition market_endless : Market.api :=
  {| Market.product_list_answer := fun _ _ _ =>
       Ok {| Market.offerMappingEntries := [Market.Entry "GA-100"];
             Market.nextPageToken := Some "more" |};
     Market.download_answer := fun _ => Ok [];
     Market.update_stocks_answer := fun _ _ _ => Ok tt;
     Market.update_price_answer := fun _ _ _ => Ok tt |}.

(** A world whose listing endpoint is down. *)
Definition seller_down : Seller.api :=
  {| Seller.product_list_answer := fun _ _ => Raise ConnectionError;
     Seller.download_answer := fun _ => Ok (watch_remnants example_lists);
     Seller.update_stocks_answer := fun _ _ => Ok tt;
     Seller.update_price_answer := fun _ _ => Ok tt |}.

(** A feed in which one code comes twice. *)
Definition repeated_code_feed : list watch :=
  [ Watch (PyStr "GA-100") (PyStr "3") (PyStr "5'990.00 руб.");
    Watch (PyStr "B-7") (PyStr ">10") (PyStr "100 руб.");
    Watch (PyStr "GA-100") (PyStr "нет") PyNone ].


(** The calls that name a campaign. *)
Definition market_campaign_call (campaign_id : string) (c : Market.call) : bool :=
  match c with
  | Market.ProductList cid _ => String.eqb cid campaign_id
  | Market.UpdateStocks cid _ => String.eqb cid campaign_id
  | Market.UpdatePrice cid _ => String.eqb cid campaign_id
  | Market.DownloadStock => false
  end.

(** A Yandex world whose stock uploads are refused. *)
Definition market_refusing : Market.api :=
  market_small (Raise HTTPError) (Ok tt).


(** A feed whose price cell is a number and not a text: the stock side
    reads it, the price side fails on it ([price.split]). *)
Definition numeric_price_feed : list watch :=
  [ Watch (PyStr "GA-100") (PyStr ">10") (PyInt 5990);
    Watch (PyInt 70212) (PyStr "1") (PyStr "1200 руб.") ].


(** * Properties *)

(** ** Price normalisation *)

Lemma sub_non_digits_filter (s : string) :
  sub_non_digits s
  = string_of_list_ascii (filter is_digit (list_ascii_of_string s)).
Proof.
  induction s as [|c r IH]; simpl; [reflexivity|].
  destruct (is_digit c); simpl; now rewrite IH.
Qed.

Lemma split_dot_head_no_dot (s : string) :
  ~ In "."%char (list_ascii_of_string s) -> split_dot_head s = s.
Proof.
  induction s as [|c r IH]; simpl; intros H; [reflexivity|].
  destruct (Ascii.eqb_spec c "."%char) as [->|_].
  - exfalso; apply H; now left.
  - rewrite IH; [reflexivity|]. intros Hin; apply H; now right.
Qed.

Lemma split_dot_head_first_dot (pre post : string) :
  ~ In "."%char (list_ascii_of_string pre) ->
  split_dot_head (pre ++ String "."%char post)%string = pre.
Proof.
  induction pre as [|c r IH]; simpl; intros H; [reflexivity|].
  destruct (Ascii.eqb_spec c "."%char) as [->|_].
  - exfalso; apply H; now left.
  - rewrite IH; [reflexivity|]. intros Hin; apply H; now right.
Qed.

(** C4. [price_conversion] keeps the text before the first ['.'] (all of it
    when there is no ['.']) and deletes from it every character that is not
    a digit; on the two documented prices it gives ["5990"] and ["1200"]. *)
Theorem price_conversion_spec :
  (forall pre post : string,
      ~ In "."%char (list_ascii_of_string pre) ->
      Seller.price_conversion (PyStr (pre ++ String "."%char post)%string)
      = Ok (string_of_list_ascii (filter is_digit (list_ascii_of_string pre))))
  /\ (forall s : string,
      ~ In "."%char (list_ascii_of_string s) ->
      Seller.price_conversion (PyStr s)
      = Ok (string_of_list_ascii (filter is_digit (list_ascii_of_string s))))
  /\ Seller.price_conversion (PyStr "5'990.00 руб.") = Ok "5990"
  /\ Seller.price_conversion (PyStr "1200 руб.") = Ok "1200".
Proof.
  repeat split.
  - intros pre post H. unfold Seller.price_conversion.
    now rewrite split_dot_head_first_dot, sub_non_digits_filter.
  - intros s H. unfold Seller.price_conversion.
    now rewrite split_dot_head_no_dot, sub_non_digits_filter.
Qed.

(** ** Batch splitting *)

Section Chunks.
Context {A : Type}.

Lemma firstn_min_length (a : nat) (x : list A) :
  firstn (Nat.min a (List.length x)) x = firstn a x.
Proof.
  rewrite <- firstn_firstn. now rewrite firstn_all.
Qed.

Lemma slice_chunk_at (l : list A) (k : nat) (n : Z) :
  1 <= n ->
  slice l (0 + Z.of_nat k * n) (0 + Z.of_nat k * n + n)
  = chunk_at (Z.to_nat n) l k.
Proof.
  intros Hn. unfold slice, chunk_at, clamp.
  set (len := List.length l).
  assert (Hk : 0 <= Z.of_nat k * n) by nia.
  destruct (Z.ltb_spec (0 + Z.of_nat k * n) 0) as [?|_]; [lia|].
  destruct (Z.ltb_spec (0 + Z.of_nat k * n + n) 0) as [?|_]; [lia|].
  replace (k * Z.to_nat n)%nat with (Z.to_nat (Z.of_nat k * n)) by nia.
  destruct (Z.le_gt_cases (Z.of_nat k * n) (Z.of_nat len)) as [Hle|Hgt].
  - rewrite (Z.min_l (0 + _) _) by lia.
    rewrite <- (firstn_min_length (Z.to_nat n)).
    rewrite length_skipn. fold len.
    replace (0 + Z.of_nat k * n) with (Z.of_nat k * n) by lia.
    f_equal. lia.
  - rewrite (Z.min_r (0 + _) _) by lia.
    rewrite (Z.min_r (0 + _ + _) _) by lia.
    rewrite Z.sub_diag. simpl.
    rewrite (skipn_all2 (n := Z.to_nat (Z.of_nat k * n))) by (fold len; lia).
    now rewrite firstn_nil.
Qed.

Lemma chunks_step (m c : nat) (l : list A) :
  map (chunk_at m l) (seq 0 (S c))
  = firstn m l :: map (chunk_at m (skipn m l)) (seq 0 c).
Proof.
  simpl seq. simpl map. rewrite <- seq_shift, map_map. f_equal.
  apply map_ext. intros k. unfold chunk_at.
  rewrite skipn_skipn. f_equal. f_equal. lia.
Qed.

Lemma concat_chunks (m : nat) :
  forall (c : nat) (l : list A),
    (List.length l <= c * m)%nat ->
    List.concat (map (chunk_at m l) (seq 0 c)) = l.
Proof.
  induction c as [|c IH]; intros l Hl.
  - destruct l; [reflexivity|simpl in Hl; lia].
  - rewrite chunks_step. simpl List.concat. rewrite IH.
    + apply firstn_skipn.
    + rewrite length_skipn. simpl in Hl. lia.
Qed.

Lemma nth_error_chunks (m c k : nat) (l : list A) :
  (k < c)%nat ->
  nth_error (map (chunk_at m l) (seq 0 c)) k = Some (chunk_at m l k).
Proof.
  intros Hk. rewrite nth_error_map, nth_error_seq.
  destruct (Nat.ltb_spec k c); [reflexivity|lia].
Qed.

Lemma length_chunk_at (m k : nat) (l : list A) :
  List.length (chunk_at m l k) = Nat.min m (List.length l - k * m).
Proof.
  unfold chunk_at. now rewrite length_firstn, length_skipn.
Qed.
End Chunks.

Lemma range_len_ceil (len n : Z) :
  0 <= len -> 1 <= n ->
  Z.of_nat (range_len 0 len n) = (len + n - 1) / n.
Proof.
  intros Hlen Hn. unfold range_len.
  destruct (Z.leb_spec len 0) as [H0|Hpos].
  - assert (len = 0) by lia; subst. simpl.
    symmetry. apply Z.div_small. lia.
  - assert (0 <= (len - 0 - 1) / n) by (apply Z.div_pos; lia).
    rewrite Z2Nat.id by lia.
    replace (len + n - 1) with ((len - 0 - 1) + 1 * n) by lia.
    rewrite Z.div_add by lia. lia.
Qed.

Lemma ceil_div_cases (len n : Z) :
  0 <= len -> 1 <= n ->
  (len + n - 1) / n = if len mod n =? 0 then len / n else len / n + 1.
Proof.
  intros Hlen Hn.
  assert (Hdm := Z.div_mod len n ltac:(lia)).
  assert (Hmod := Z.mod_pos_bound len n ltac:(lia)).
  destruct (Z.eqb_spec (len mod n) 0) as [E|E].
  - symmetry. apply Z.div_unique with (r := n - 1); lia.
  - symmetry. apply Z.div_unique with (r := len mod n - 1); lia.
Qed.

Lemma divide_chunks (A : Type) (lst : list A) (n : Z) :
  1 <= n ->
  Seller.divide lst n
  = Ok (map (chunk_at (Z.to_nat n) lst)
            (seq 0 (range_len 0 (Z.of_nat (List.length lst)) n))).
Proof.
  intros Hn. unfold Seller.divide, range.
  destruct (Z.eqb_spec n 0) as [?|_]; [lia|].
  destruct (Z.ltb_spec n 0) as [?|_]; [lia|].
  simpl. f_equal. rewrite map_map. apply map_ext.
  intros k. now apply slice_chunk_at.
Qed.

(** C2. For a chunk size [n >= 1], [divide lst n] yields
    [ceil (len lst / n)] chunks; every chunk but the last has length [n];
    the last has length [len lst mod n] when that is not zero (and [n]
    otherwise); the chunks concatenated in order give [lst] back. *)
Theorem divide_spec (A : Type) (lst : list A) (n : Z) (Hn : 1 <= n) :
  exists chunks : list (list A),
    Seller.divide lst n = Ok chunks
    /\ Z.of_nat (List.length chunks) = (Z.of_nat (List.length lst) + n - 1) / n
    /\ (forall k c, nth_error chunks k = Some c ->
                    (S k < List.length chunks)%nat ->
                    Z.of_nat (List.length c) = n)
    /\ (forall c, nth_error chunks (List.length chunks - 1) = Some c ->
                  Z.of_nat (List.length c)
                  = if Z.of_nat (List.length lst) mod n =? 0 then n
                    else Z.of_nat (List.length lst) mod n)
    /\ List.concat chunks = lst.
Proof.
  set (len := Z.of_nat (List.length lst)).
  set (m := Z.to_nat n).
  set (cnt := range_len 0 len n).
  assert (Hcnt : Z.of_nat cnt = (len + n - 1) / n)
    by (apply range_len_ceil; unfold len; lia).
  assert (Hdm := Z.div_mod (len + n - 1) n ltac:(lia)).
  assert (Hmod := Z.mod_pos_bound (len + n - 1) n ltac:(lia)).
  assert (Hdm' := Z.div_mod len n ltac:(lia)).
  assert (Hmod' := Z.mod_pos_bound len n ltac:(lia)).
  exists (map (chunk_at m lst) (seq 0 cnt)).
  split; [now apply divide_chunks|].
  rewrite length_map, length_seq.
  split; [exact Hcnt|].
  split; [|split].
  - intros k c Hk Hlt.
    rewrite nth_error_chunks in Hk by lia. injection Hk as <-.
    rewrite length_chunk_at. unfold m. fold len in Hcnt. nia.
  - intros c Hc.
    destruct cnt as [|cnt'] eqn:Ecnt.
    + simpl in Hc. discriminate.
    + rewrite nth_error_chunks in Hc by lia. injection Hc as <-.
      rewrite length_chunk_at. unfold m.
      rewrite Nat.sub_0_r.
      rewrite (ceil_div_cases len n) in Hcnt by (unfold len; lia).
      assert (Hm : Z.of_nat (Z.to_nat n) = n) by lia.
      revert Hm. generalize (Z.to_nat n). intros m' Hm.
      destruct (Z.eqb_spec (len mod n) 0) as [E|E]; unfold len in *; nia.
  - apply concat_chunks. unfold m, len in *. nia.
Qed.

Lemma divide_spec_example :
  exists chunks : list (list Z),
    Seller.divide [1; 2; 3; 4; 5] 2 = Ok chunks
    /\ Z.of_nat (List.length chunks) = (Z.of_nat 5 + 2 - 1) / 2
    /\ (forall k c, nth_error chunks k = Some c ->
                    (S k < List.length chunks)%nat ->
                    Z.of_nat (List.length c) = 2)
    /\ (forall c, nth_error chunks (List.length chunks - 1) = Some c ->
                  Z.of_nat (List.length c)
                  = if Z.of_nat 5 mod 2 =? 0 then 2 else Z.of_nat 5 mod 2)
    /\ List.concat chunks = [1; 2; 3; 4; 5].
Proof.
  apply (@divide_spec Z [1; 2; 3; 4; 5] 2). lia.
Defined.

(** ** Membership and removal on the list of known ids *)

Lemma contains_In (x : string) (l : list string) :
  contains x l = true <-> In x l.
Proof.
  induction l as [|y r IH]; simpl.
  - split; [discriminate|tauto].
  - destruct (String.eqb_spec x y) as [->|Hne].
    + split; auto.
    + rewrite IH. split; [auto|]. intros [Heq|Hin]; [congruence|assumption].
Qed.

Lemma contains_false_In (x : string) (l : list string) :
  contains x l = false <-> ~ In x l.
Proof.
  rewrite <- contains_In. destruct (contains x l); split; congruence.
Qed.

Lemma remove_contains (x : string) (l : list string) :
  contains x l = true -> remove x l = Ok (remove_first x l).
Proof.
  induction l as [|y r IH]; simpl; [discriminate|].
  destruct (String.eqb x y); [reflexivity|].
  intros H. now rewrite (IH H).
Qed.

Lemma In_remove_first (x y : string) (l : list string) :
  In y (remove_first x l) -> In y l.
Proof.
  induction l as [|z r IH]; simpl; [tauto|].
  destruct (String.eqb x z); simpl; [auto|]. intros [H|H]; auto.
Qed.

Lemma NoDup_remove_first (x : string) (l : list string) :
  NoDup l -> NoDup (remove_first x l).
Proof.
  induction 1 as [|z r Hz Hr IH]; simpl; [constructor|].
  destruct (String.eqb x z); [assumption|].
  constructor; [|assumption].
  intros Hin. apply Hz. eapply In_remove_first; eassumption.
Qed.

Lemma remove_first_filter (x : string) (l : list string) :
  NoDup l -> remove_first x l = filter (fun y => negb (String.eqb y x)) l.
Proof.
  induction 1 as [|z r Hz Hr IH]; simpl; [reflexivity|].
  rewrite (String.eqb_sym z x).
  destruct (String.eqb_spec x z) as [->|Hne]; simpl.
  - symmetry. apply forallb_filter_id. apply forallb_forall.
    intros y Hy. destruct (String.eqb_spec y z) as [->|_]; [contradiction|reflexivity].
  - now rewrite IH.
Qed.

Lemma filter_filter_and {A : Type} (f g : A -> bool) (l : list A) :
  filter f (filter g l) = filter (fun a => g a && f a) l.
Proof.
  induction l as [|a r IH]; simpl; [reflexivity|].
  destruct (g a); simpl; [destruct (f a)|]; now rewrite IH.
Qed.

Lemma consume_NoDup (cs ids : list string) :
  NoDup ids ->
  consume cs ids = filter (fun id => negb (contains id cs)) ids.
Proof.
  revert ids. induction cs as [|c r IH]; intros ids Hnd; simpl.
  - symmetry. apply forallb_filter_id. now apply forallb_forall.
  - destruct (contains c ids) eqn:Hc.
    + rewrite IH by now apply NoDup_remove_first.
      rewrite remove_first_filter by assumption.
      rewrite filter_filter_and. apply filter_ext. intros id.
      destruct (String.eqb id c); reflexivity.
    + rewrite IH by assumption. apply filter_ext_in. intros id Hid.
      destruct (String.eqb_spec id c) as [->|_]; [|reflexivity].
      apply contains_false_In in Hc. contradiction.
Qed.

Lemma In_consume (cs : list string) :
  forall (ids : list string) (x : string), In x (consume cs ids) -> In x ids.
Proof.
  induction cs as [|c r IH]; intros ids x; simpl; [auto|].
  destruct (contains c ids); intros H; apply IH in H; [|assumption].
  eapply In_remove_first; eassumption.
Qed.

(** ** The first loop of [create_stocks], over the common shape *)

Section ReconcileFacts.
Context {U : Type} (mk : string -> Z -> U).

Lemma stocks_loop_of_acc (ws : list watch) :
  forall (stocks : list U) (mem : lists),
    stocks_loop_of mk ws stocks mem
    = ('(out, mem') <- stocks_loop_of mk ws [] mem ;; Ok (stocks ++ out, mem')).
Proof.
  induction ws as [|w rest IH]; intros stocks mem; simpl.
  - now rewrite app_nil_r.
  - destruct (contains (str (w_code w)) (offer_ids mem)); [|apply IH].
    destruct (stock_of_count (w_count w)) as [q|e]; simpl; [|reflexivity].
    destruct (remove (str (w_code w)) (offer_ids mem)) as [ids|e]; simpl;
      [|reflexivity].
    rewrite IH. rewrite (IH [mk (str (w_code w)) q]).
    destruct (stocks_loop_of mk rest [] (set_offer_ids ids mem)) as [[out mem']|e];
      simpl; [|reflexivity].
    now rewrite <- app_assoc.
Qed.

Lemma stocks_loop_of_app (pre post : list watch) :
  forall (stocks : list U) (mem : lists),
    stocks_loop_of mk (pre ++ post) stocks mem
    = ('(s1, m1) <- stocks_loop_of mk pre stocks mem ;;
       stocks_loop_of mk post s1 m1).
Proof.
  induction pre as [|w rest IH]; intros stocks mem; simpl; [reflexivity|].
  destruct (contains (str (w_code w)) (offer_ids mem)); [|apply IH].
  destruct (stock_of_count (w_count w)) as [q|e]; simpl; [|reflexivity].
  destruct (remove (str (w_code w)) (offer_ids mem)) as [ids|e]; simpl;
    [apply IH|reflexivity].
Qed.

(** The loop never writes the feed, and consumes the known ids as
    [consume] says. *)
Lemma stocks_loop_of_lists (ws : list watch) :
  forall (stocks out : list U) (mem mem' : lists),
    stocks_loop_of mk ws stocks mem = Ok (out, mem') ->
    watch_remnants mem' = watch_remnants mem
    /\ offer_ids mem' = consume (codes ws) (offer_ids mem).
Proof.
  induction ws as [|w rest IH]; intros stocks out mem mem'; simpl.
  - intros [= _ <-]. split; reflexivity.
  - destruct (contains (str (w_code w)) (offer_ids mem)) eqn:Hc; [|apply IH].
    destruct (stock_of_count (w_count w)) as [q|e]; simpl; [|discriminate].
    rewrite (remove_contains _ _ Hc). simpl.
    intros H. apply IH in H. exact H.
Qed.

(** The loop succeeds when the quantity of every record with a known code
    can be read. *)
Lemma stocks_loop_of_ok (ws : list watch) :
  forall (stocks : list U) (mem : lists),
    (forall w, In w ws -> In (str (w_code w)) (offer_ids mem) ->
               exists q, stock_of_count (w_count w) = Ok q) ->
    exists out mem', stocks_loop_of mk ws stocks mem = Ok (out, mem').
Proof.
  induction ws as [|w rest IH]; intros stocks mem Hq; simpl.
  - eauto.
  - destruct (contains (str (w_code w)) (offer_ids mem)) eqn:Hc.
    + destruct (Hq w (or_introl eq_refl)) as [q Hw];
        [now apply contains_In|].
      rewrite Hw, (remove_contains _ _ Hc). simpl.
      apply IH. intros w' Hin Hid. apply Hq; [now right|].
      simpl in Hid. eapply In_remove_first; eassumption.
    + apply IH. intros w' Hin Hid. apply Hq; [now right|assumption].
Qed.

(** Every update of the first loop comes from a record of the feed whose
    code is a known id. *)
Lemma stocks_loop_of_origin (ws : list watch) :
  forall (out : list U) (mem mem' : lists),
    stocks_loop_of mk ws [] mem = Ok (out, mem') ->
    forall u, In u out ->
      exists w q, In w ws /\ In (str (w_code w)) (offer_ids mem)
                  /\ stock_of_count (w_count w) = Ok q
                  /\ u = mk (str (w_code w)) q.
Proof.
  induction ws as [|w rest IH]; intros out mem mem'; simpl.
  - intros [= <- _] u [].
  - destruct (contains (str (w_code w)) (offer_ids mem)) eqn:Hc.
    + destruct (stock_of_count (w_count w)) as [q|e] eqn:Hq; simpl;
        [|discriminate].
      rewrite (remove_contains _ _ Hc). simpl.
      rewrite stocks_loop_of_acc.
      destruct (stocks_loop_of mk rest [] _) as [[out1 mem1]|e] eqn:Hrest;
        simpl; [|discriminate].
      intros [= <- _] u [<-|Hu].
      * exists w, q. repeat split; auto. now apply contains_In.
      * destruct (IH _ _ _ Hrest u Hu) as (w' & q' & Hin & Hid & Hq' & ->).
        exists w', q'. repeat split; auto.
        simpl in Hid. eapply In_remove_first; eassumption.
    + intros H u Hu.
      destruct (IH _ _ _ H u Hu) as (w' & q' & Hin & Hid & Hq' & ->).
      exists w', q'. repeat split; auto.
Qed.



Lemma stocks_loop_of_raise (ws : list watch) :
  forall (stocks : list U) (mem : lists) (e : exn),
    stocks_loop_of mk ws stocks mem = Raise e ->
    exists w, In w ws /\ In (str (w_code w)) (offer_ids mem)
              /\ stock_of_count (w_count w) = Raise e.
Proof.
  induction ws as [|w rest IH]; intros stocks mem e; simpl; [discriminate|].
  destruct (contains (str (w_code w)) (offer_ids mem)) eqn:Hc.
  - destruct (stock_of_count (w_count w)) as [q|e'] eqn:Hq; simpl.
    + rewrite (remove_contains _ _ Hc). simpl. intros H.
      destruct (IH _ _ _ H) as (w' & Hin & Hid & Hw').
      exists w'. repeat split; auto.
      simpl in Hid. eapply In_remove_first; eassumption.
    + intros [= ->]. exists w. repeat split; auto. now apply contains_In.
  - intros H. destruct (IH _ _ _ H) as (w' & Hin & Hid & Hw').
    exists w'. repeat split; auto.
Qed.

End ReconcileFacts.

(** ** Both [create_stocks] have the common shape *)

Lemma seller_stocks_loop_shape (ws : list watch) :
  forall (stocks : list Seller.stock_update) (mem : lists),
    Seller.stocks_loop ws stocks mem
    = stocks_loop_of Seller.StockUpdate ws stocks mem.
Proof.
  induction ws as [|w rest IH]; intros stocks mem; simpl; [reflexivity|].
  destruct (contains _ _); [|apply IH].
  destruct (stock_of_count _); simpl; [|reflexivity].
  destruct (remove _ _); simpl; [apply IH|reflexivity].
Qed.

Lemma seller_zero_fill_shape (ids : list string) :
  forall stocks : list Seller.stock_update,
    Seller.zero_fill ids stocks = stocks ++ zero_fill_of Seller.StockUpdate ids.
Proof.
  induction ids as [|id r IH]; intros stocks; simpl.
  - now rewrite app_nil_r.
  - rewrite IH, <- app_assoc. reflexivity.
Qed.

Lemma seller_create_stocks_shape (mem : lists) :
  Seller.create_stocks mem = create_stocks_of Seller.StockUpdate mem.
Proof.
  unfold Seller.create_stocks, create_stocks_of.
  rewrite seller_stocks_loop_shape.
  destruct (stocks_loop_of _ _ _ _) as [[stocks mem']|e]; simpl; [|reflexivity].
  now rewrite seller_zero_fill_shape.
Qed.

Lemma market_stocks_loop_shape (warehouse_id date : string) (ws : list watch) :
  forall (stocks : list Market.stock_update) (mem : lists),
    Market.stocks_loop warehouse_id date ws stocks mem
    = stocks_loop_of (market_entry warehouse_id date) ws stocks mem.
Proof.
  induction ws as [|w rest IH]; intros stocks mem; simpl; [reflexivity|].
  destruct (contains _ _); [|apply IH].
  destruct (stock_of_count _); simpl; [|reflexivity].
  destruct (remove _ _); simpl; [apply IH|reflexivity].
Qed.

Lemma market_zero_fill_shape (warehouse_id date : string) (ids : list string) :
  forall stocks : list Market.stock_update,
    Market.zero_fill warehouse_id date ids stocks
    = stocks ++ zero_fill_of (market_entry warehouse_id date) ids.
Proof.
  induction ids as [|id r IH]; intros stocks; simpl.
  - now rewrite app_nil_r.
  - rewrite IH, <- app_assoc. reflexivity.
Qed.

Lemma market_create_stocks_shape (warehouse_id date : string) (mem : lists) :
  Market.create_stocks warehouse_id date mem
  = create_stocks_of (market_entry warehouse_id date) mem.
Proof.
  unfold Market.create_stocks, create_stocks_of.
  rewrite market_stocks_loop_shape.
  destruct (stocks_loop_of _ _ _ _) as [[stocks mem']|e]; simpl; [|reflexivity].
  now rewrite market_zero_fill_shape.
Qed.

(** ** Zero fill and consumption of the known ids *)



Lemma unmatched_spec (ws : list watch) (ids : list string) (id : string) :
  In id (unmatched ws ids) <-> In id ids /\ ~ In id (codes ws).
Proof.
  unfold unmatched. rewrite filter_In, negb_true_iff, contains_false_In.
  reflexivity.
Qed.


Section ZeroFill.
Context {U : Type} (mk : string -> Z -> U) (id_of : U -> string).
Hypothesis id_of_mk : forall id q, id_of (mk id q) = id.


End ZeroFill.


Lemma example_lists_nodup : NoDup (offer_ids example_lists).
Proof.
  repeat constructor; simpl; intuition discriminate.
Defined.



(** ** What [create_stocks] leaves in the two lists *)

Section ConsumeFacts.
Context {U : Type} (mk : string -> Z -> U).

Lemma create_stocks_of_lists (mem : lists) :
  NoDup (offer_ids mem) ->
  match create_stocks_of mk mem with
  | Ok (_, mem') =>
      watch_remnants mem' = watch_remnants mem
      /\ offer_ids mem' = unmatched (watch_remnants mem) (offer_ids mem)
      /\ (forall id, In id (offer_ids mem')
                     <-> In id (offer_ids mem)
                         /\ ~ In id (codes (watch_remnants mem)))
  | Raise e =>
      exists w, In w (watch_remnants mem)
                /\ In (str (w_code w)) (offer_ids mem)
                /\ stock_of_count (w_count w) = Raise e
  end.
Proof.
  intros Hnd. unfold create_stocks_of.
  destruct (stocks_loop_of mk (watch_remnants mem) [] mem)
    as [[stocks mem']|e] eqn:Hloop; simpl.
  - destruct (stocks_loop_of_lists mk _ _ _ _ _ Hloop) as [Hfeed Hids].
    rewrite consume_NoDup in Hids by assumption.
    split; [exact Hfeed|]. split; [exact Hids|].
    intros id. rewrite Hids. apply unmatched_spec.
  - eapply stocks_loop_of_raise; eassumption.
Qed.

End ConsumeFacts.




(** ** Price reconciliation *)

Section PriceFacts.
Context {P : Type} (build : watch -> result P) (id_of : P -> string).
Hypothesis id_of_build :
  forall w p, build w = Ok p -> id_of p = str (w_code w).



Lemma prices_loop_of_none (ws : list watch) (prices : list P) (mem : lists) :
  (forall w, In w ws -> ~ In (str (w_code w)) (offer_ids mem)) ->
  prices_loop_of build ws prices mem = Ok prices.
Proof.
  induction ws as [|w rest IH]; intros Hno; simpl; [reflexivity|].
  rewrite (proj2 (contains_false_In _ _) (Hno w (or_introl eq_refl))).
  apply IH. intros w' Hin. apply Hno. now right.
Qed.


End PriceFacts.

Lemma seller_prices_loop_shape (ws : list watch) :
  forall (prices : list Seller.price_update) (mem : lists),
    Seller.prices_loop ws prices mem = prices_loop_of seller_price ws prices mem.
Proof.
  induction ws as [|w rest IH]; intros prices mem; simpl; [reflexivity|].
  destruct (contains _ _); [|apply IH].
  unfold seller_price.
  destruct (Seller.price_conversion _); simpl; [apply IH|reflexivity].
Qed.

Lemma market_prices_loop_shape (ws : list watch) :
  forall (prices : list Market.price_update) (mem : lists),
    Market.prices_loop ws prices mem = prices_loop_of market_price ws prices mem.
Proof.
  induction ws as [|w rest IH]; intros prices mem; simpl; [reflexivity|].
  destruct (contains _ _); [|apply IH].
  unfold market_price.
  destruct (Seller.price_conversion _); simpl; [|reflexivity].
  destruct (int_of_string _); simpl; [apply IH|reflexivity].
Qed.




(** C10 (amended). On a list of known ids without duplicates, once
    [create_stocks] has returned, [create_prices] called with the same two
    lists (as [main] of seller.py does) returns the empty list. *)
Theorem create_prices_after_create_stocks
        (mem mem' : lists) (stocks : list Seller.stock_update) :
  NoDup (offer_ids mem) ->
  Seller.create_stocks mem = Ok (stocks, mem') ->
  Seller.create_prices mem' = Ok [].
Proof.
  intros Hnd Hstocks.
  assert (H := create_stocks_of_lists Seller.StockUpdate mem Hnd).
  rewrite <- seller_create_stocks_shape, Hstocks in H.
  destruct H as (Hfeed & _ & Hids).
  unfold Seller.create_prices. rewrite seller_prices_loop_shape, Hfeed.
  apply prices_loop_of_none. intros w Hw Hin.
  apply Hids in Hin. destruct Hin as [_ Hno]. apply Hno.
  unfold codes. now apply (in_map (fun w => str (w_code w))).
Qed.

Lemma create_prices_after_create_stocks_example :
  Seller.create_prices (set_offer_ids ["B-7"; "C-3"] example_lists) = Ok [].
Proof.
  apply (create_prices_after_create_stocks
           example_lists (set_offer_ids ["B-7"; "C-3"] example_lists)
           [Seller.StockUpdate "GA-100" 100; Seller.StockUpdate "70212" 0;
            Seller.StockUpdate "B-7" 0; Seller.StockUpdate "C-3" 0]).
  - exact example_lists_nodup.
  - reflexivity.
Defined.

(** C10 as stated fails when the list of known ids holds an id twice: the
    occurrence that [create_stocks] leaves behind still matches the feed. *)
Lemma create_prices_after_create_stocks_duplicate_ids :
  Seller.create_stocks duplicate_lists
  = Ok ([Seller.StockUpdate "GA-100" 5; Seller.StockUpdate "GA-100" 0],
        set_offer_ids ["GA-100"] duplicate_lists)
  /\ Seller.create_prices (set_offer_ids ["GA-100"] duplicate_lists)
     = Ok [ {| Seller.auto_action_enabled := "UNKNOWN";
               Seller.currency_code := "RUB";
               Seller.p_offer_id := "GA-100";
               Seller.old_price := "0";
               Seller.price := "5990" |} ]
  /\ Seller.create_prices (set_offer_ids ["GA-100"] duplicate_lists) <> Ok [].
Proof.
  split; [reflexivity|]. split; [reflexivity|]. discriminate.
Qed.

(** ** The quantity rule *)

(** *** The texts that [int] reads *)

(** One case for each outcome of the integer tests of the goal. *)
Ltac split_test :=
  match goal with
  | |- context [?x <=? ?y] => destruct (Z.leb_spec0 x y)
  | |- context [?x <? ?y] => destruct (Z.ltb_spec0 x y)
  | |- context [?x =? ?y] => destruct (Z.eqb_spec x y)
  end.

(** The characters below 128, one by one. *)
Lemma ascii_of_low_code_points :
  forallb (fun n =>
             let cp := Z.of_nat n in
             match ascii_of_code_point cp with
             | Some c =>
                 Bool.eqb (is_space c) (whitespace cp)
                 && Bool.eqb (is_digit c) (is_decimal cp)
                 && (negb (is_digit c) || (digit_val c =? digit_of cp))
                 && Bool.eqb (Ascii.eqb c "_") (cp =? 95)
                 && Bool.eqb (Ascii.eqb c "+") (cp =? 43)
                 && Bool.eqb (Ascii.eqb c "-") (cp =? 45)
             | None => false
             end) (seq 0 128) = true.
Proof. vm_compute. reflexivity. Qed.

Lemma unicode_spaces_no_decimal :
  forallb (fun cp => match unicode_decimal cp with
                     | Some _ => false
                     | None => true
                     end) unicode_spaces = true.
Proof. vm_compute. reflexivity. Qed.

Lemma unicode_decimal_range (cp d : Z) :
  unicode_decimal cp = Some d -> 0 <= d <= 9.
Proof.
  unfold unicode_decimal.
  destruct (find _ unicode_zeros) as [zero|] eqn:Hf; [|discriminate].
  apply find_some in Hf. destruct Hf as [_ Hz].
  apply andb_prop in Hz. destruct Hz as [H1 H2].
  apply Z.leb_le in H1, H2. intros [= <-]. lia.
Qed.

Lemma ascii_of_code_point_facts (cp : Z) (c : ascii) :
  ascii_of_code_point cp = Some c ->
  is_space c = whitespace cp
  /\ is_digit c = is_decimal cp
  /\ (is_digit c = true -> digit_val c = digit_of cp)
  /\ Ascii.eqb c "_" = (cp =? 95)
  /\ Ascii.eqb c "+" = (cp =? 43)
  /\ Ascii.eqb c "-" = (cp =? 45).
Proof.
  intros Hc.
  destruct (Z.ltb_spec cp 0) as [Hneg|Hpos].
  - (* no code point is negative: the character would be NUL *)
    unfold ascii_of_code_point in Hc.
    destruct (Z.ltb_spec cp 128); [|lia].
    replace (Z.to_nat cp) with 0%nat in Hc by lia. injection Hc as <-.
    unfold whitespace, is_decimal, digit_of, decimal_digit.
    repeat split; try (intros; discriminate); repeat split_test; try reflexivity; lia.
  - destruct (Z.ltb_spec cp 128) as [Hlow|Hhigh].
    + assert (H := ascii_of_low_code_points).
      rewrite forallb_forall in H. specialize (H (Z.to_nat cp)).
      cbv beta zeta in H. rewrite Z2Nat.id in H by lia. rewrite Hc in H.
      assert (Hin : In (Z.to_nat cp) (seq 0 128)) by (apply in_seq; lia).
      specialize (H Hin).
      repeat (apply andb_prop in H; destruct H as [H ?]).
      repeat match goal with
             | E : Bool.eqb _ _ = true |- _ => apply eqb_prop in E
             end.
      repeat split; try assumption.
      intros Hdig.
      match goal with
      | E : negb _ || _ = true |- _ =>
          rewrite Hdig in E; simpl in E; now apply Z.eqb_eq in E
      end.
    + unfold ascii_of_code_point in Hc.
      destruct (Z.ltb_spec cp 128); [lia|].
      assert (Hw : whitespace cp = unicode_space cp).
      { unfold whitespace. repeat split_test; try reflexivity; lia. }
      assert (Hd : decimal_digit cp = unicode_decimal cp).
      { unfold decimal_digit. repeat split_test; try reflexivity; lia. }
      unfold is_decimal, digit_of. rewrite Hw, Hd.
      assert (H95 : (cp =? 95) = false) by (apply Z.eqb_neq; lia).
      assert (H43 : (cp =? 43) = false) by (apply Z.eqb_neq; lia).
      assert (H45 : (cp =? 45) = false) by (apply Z.eqb_neq; lia).
      rewrite H95, H43, H45.
      destruct (unicode_space cp) eqn:Hs.
      * injection Hc as <-.
        assert (Hnd : unicode_decimal cp = None).
        { unfold unicode_space in Hs. apply existsb_exists in Hs.
          destruct Hs as (x & Hx & Hcx). apply Z.eqb_eq in Hcx. subst x.
          assert (Hall := unicode_spaces_no_decimal).
          rewrite forallb_forall in Hall. specialize (Hall cp Hx).
          now destruct (unicode_decimal cp). }
        rewrite Hnd. repeat split; try reflexivity. discriminate.
      * destruct (unicode_decimal cp) as [d|] eqn:Hdec; [|discriminate].
        apply unicode_decimal_range in Hdec. injection Hc as <-.
        assert (Hcases : d = 0 \/ d = 1 \/ d = 2 \/ d = 3 \/ d = 4 \/ d = 5
                         \/ d = 6 \/ d = 7 \/ d = 8 \/ d = 9) by lia.
        repeat (destruct Hcases as [->|Hcases]); try subst d;
          repeat split; reflexivity.
Qed.

Lemma to_ascii_list_cons (cp : Z) (r : list Z) (a : string) :
  to_ascii_list (cp :: r) = Some a ->
  exists c a', a = String c a'
               /\ ascii_of_code_point cp = Some c
               /\ to_ascii_list r = Some a'.
Proof.
  simpl. destruct (ascii_of_code_point cp) as [c|]; [|discriminate].
  destruct (to_ascii_list r) as [a'|]; [|discriminate].
  intros [= <-]. now exists c, a'.
Qed.

Lemma to_ascii_list_empty (cps : list Z) :
  to_ascii_list cps = Some EmptyString -> cps = [].
Proof.
  destruct cps as [|cp r]; [reflexivity|]. intros H.
  apply to_ascii_list_cons in H. destruct H as (c & a' & H & _). discriminate.
Qed.

(** What the two strips take away is white space. *)
Lemma lstrip_image (cps : list Z) :
  forall a, to_ascii_list cps = Some a ->
            exists l cps', cps = l ++ cps'
                           /\ forallb whitespace l = true
                           /\ to_ascii_list cps' = Some (lstrip a).
Proof.
  induction cps as [|cp r IH]; intros a Ha.
  - injection Ha as <-. now exists [], [].
  - destruct (to_ascii_list_cons _ _ _ Ha) as (c & a' & -> & Hc & Hr).
    destruct (ascii_of_code_point_facts _ _ Hc) as (Hsp & _).
    simpl. destruct (is_space c) eqn:Hs.
    + destruct (IH _ Hr) as (l & cps' & -> & Hl & Hi).
      exists (cp :: l), cps'. simpl. rewrite <- Hsp, Hl. now repeat split.
    + exists [], (cp :: r). now repeat split.
Qed.

Lemma rstrip_image (cps : list Z) :
  forall a, to_ascii_list cps = Some a ->
            exists cps' r, cps = cps' ++ r
                           /\ forallb whitespace r = true
                           /\ to_ascii_list cps' = Some (rstrip a).
Proof.
  induction cps as [|cp rest IH]; intros a Ha.
  - injection Ha as <-. now exists [], [].
  - destruct (to_ascii_list_cons _ _ _ Ha) as (c & a' & -> & Hc & Hr).
    destruct (ascii_of_code_point_facts _ _ Hc) as (Hsp & _).
    destruct (IH _ Hr) as (x & r & -> & Hws & Hi).
    simpl. destruct (rstrip a') as [|c' b] eqn:Hb.
    + apply to_ascii_list_empty in Hi. subst x.
      destruct (is_space c) eqn:Hs.
      * exists [], (cp :: r). simpl. rewrite <- Hsp, Hws. now repeat split.
      * exists [cp], r. simpl. rewrite Hc. now repeat split.
    + exists (cp :: x), r. simpl. rewrite Hc, Hi. now repeat split.
Qed.

Lemma join_groups_cons (cp : Z) (g : list Z) (gs : list (list Z)) :
  join_groups (cp :: g) gs = cp :: join_groups g gs.
Proof. now destruct gs. Qed.

Lemma concat_groups_length (cp : Z) (g : list Z) (gs : list (list Z)) :
  Z.of_nat (List.length (List.concat ((cp :: g) :: gs)))
  = 1 + Z.of_nat (List.length (List.concat (g :: gs))).
Proof.
  change (List.concat ((cp :: g) :: gs)) with (cp :: List.concat (g :: gs)).
  cbn [List.length]. lia.
Qed.

(** A row of digits and underscores that [digits_from] reads to its end is
    made of groups of digits with one underscore between two groups. *)
Lemma digits_from_image (cps : list Z) :
  forall (ds : string) (acc z : Z) (b : bool),
    to_ascii_list cps = Some ds ->
    digits_from ds acc b = Some z ->
    (b = true /\ cps = [] /\ z = acc)
    \/ exists g gs,
        Forall digit_group (g :: gs)
        /\ (cps = join_groups g gs \/ b = true /\ cps = 95 :: join_groups g gs)
        /\ z = acc * 10 ^ Z.of_nat (List.length (List.concat (g :: gs)))
               + numeral_value (List.concat (g :: gs))
        /\ count_digits ds = Z.of_nat (List.length (List.concat (g :: gs))).
Proof.
  induction cps as [|cp rest IH]; intros ds acc z b Hds Hz.
  - injection Hds as <-. simpl in Hz. destruct b; [|discriminate].
    injection Hz as <-. now left.
  - destruct (to_ascii_list_cons _ _ _ Hds) as (c & ds' & -> & Hc & Hr).
    destruct (ascii_of_code_point_facts _ _ Hc) as (_ & Hdig & Hval & Hus & _).
    right. cbn [digits_from] in Hz. destruct (is_digit c) eqn:Hd.
    + specialize (Hval eq_refl). symmetry in Hdig.
      destruct (IH _ _ _ _ Hr Hz) as [(_ & -> & ->)|(g & gs & Hg & Hshape & -> & Hn)].
      * exists [cp], []. repeat split.
        -- constructor; [|constructor]. split; [discriminate|].
           simpl. now rewrite Hdig.
        -- now left.
        -- change (List.concat [[cp]]) with [cp].
           cbn [numeral_value List.length].
           change (Z.of_nat 1) with 1. change (Z.of_nat 0) with 0.
           rewrite Z.pow_1_r, Z.pow_0_r, Hval. lia.
        -- injection Hr as <-. cbn [count_digits]. now rewrite Hd.
      * destruct Hshape as [->|(_ & ->)].
        -- exists (cp :: g), gs. repeat split.
           ++ inversion Hg as [|? ? [Hne Hall] Hrest]; subst.
              constructor; [|assumption]. split; [discriminate|].
              simpl. now rewrite Hdig.
           ++ left. now rewrite join_groups_cons.
           ++ rewrite concat_groups_length.
              change (List.concat ((cp :: g) :: gs))
                with (cp :: List.concat (g :: gs)).
              cbn [numeral_value]. rewrite Hval.
              rewrite Z.pow_add_r by lia. lia.
           ++ cbn [count_digits]. rewrite Hd, Hn, concat_groups_length.
              reflexivity.
        -- exists [cp], (g :: gs). repeat split.
           ++ constructor; [|assumption]. split; [discriminate|].
              simpl. now rewrite Hdig.
           ++ now left.
           ++ rewrite concat_groups_length.
              change (List.concat ([cp] :: g :: gs))
                with (cp :: List.concat (g :: gs)).
              change (List.concat ([] :: g :: gs))
                with (List.concat (g :: gs)).
              cbn [numeral_value]. rewrite Hval.
              rewrite Z.pow_add_r by lia. lia.
           ++ cbn [count_digits]. rewrite Hd, Hn, concat_groups_length.
              reflexivity.
    + destruct (Ascii.eqb c "_") eqn:Hu; [|discriminate].
      destruct b; [|discriminate].
      symmetry in Hus. apply Z.eqb_eq in Hus. subst cp.
      destruct (IH _ _ _ _ Hr Hz)
        as [(Hb & _)|(g & gs & Hg & Hshape & -> & Hn)]; [discriminate|].
      destruct Hshape as [->|(Hb & _)]; [|discriminate].
      exists g, gs. repeat split; try assumption.
      * now right.
      * cbn [count_digits]. now rewrite Hd, Hn.
Qed.

Lemma ascii_of_code_point_none (cp : Z) :
  ascii_of_code_point cp = None ->
  whitespace cp = false /\ is_decimal cp = false.
Proof.
  unfold ascii_of_code_point.
  destruct (Z.ltb_spec cp 128) as [|Hhigh]; [discriminate|].
  destruct (unicode_space cp) eqn:Hs; [discriminate|].
  destruct (unicode_decimal cp) eqn:Hd; [discriminate|]. intros _.
  unfold whitespace, is_decimal, decimal_digit. rewrite Hs, Hd.
  split; repeat split_test; try reflexivity; lia.
Qed.

Lemma whitespace_image (cp : Z) :
  whitespace cp = true ->
  exists c, ascii_of_code_point cp = Some c /\ is_space c = true.
Proof.
  intros Hw. destruct (ascii_of_code_point cp) as [c|] eqn:Hc.
  - exists c. split; [reflexivity|].
    destruct (ascii_of_code_point_facts _ _ Hc) as (-> & _). exact Hw.
  - apply ascii_of_code_point_none in Hc. destruct Hc as [Hc _]. congruence.
Qed.

Lemma decimal_image (cp : Z) :
  is_decimal cp = true ->
  exists c, ascii_of_code_point cp = Some c
            /\ is_digit c = true /\ digit_val c = digit_of cp.
Proof.
  intros Hd. destruct (ascii_of_code_point cp) as [c|] eqn:Hc.
  - exists c. split; [reflexivity|].
    destruct (ascii_of_code_point_facts _ _ Hc) as (_ & Hdig & Hval & _).
    rewrite Hdig. split; [exact Hd|]. apply Hval. now rewrite Hdig.
  - apply ascii_of_code_point_none in Hc. destruct Hc as [_ Hc]. congruence.
Qed.

Lemma is_digit_not_space (c : ascii) : is_digit c = true -> is_space c = false.
Proof.
  unfold is_digit, is_space.
  destruct (Nat.leb_spec 48 (nat_of_ascii c)); [|discriminate].
  destruct (Nat.leb_spec (nat_of_ascii c) 57); [|discriminate]. intros _.
  destruct (Nat.leb_spec (nat_of_ascii c) 13); [lia|].
  destruct (Nat.eqb_spec (nat_of_ascii c) 32); [lia|].
  now rewrite andb_false_r.
Qed.

Lemma is_digit_not_sign (c : ascii) :
  is_digit c = true ->
  Ascii.eqb c "+" = false /\ Ascii.eqb c "-" = false /\ Ascii.eqb c "_" = false.
Proof.
  destruct c as [[] [] [] [] [] [] [] []];
    intros H; try discriminate H; now repeat split.
Qed.

Lemma rstrip_cons (c : ascii) (a : string) :
  is_space c = false -> rstrip a = a -> rstrip (String c a) = String c a.
Proof.
  intros Hc Ha. cbn [rstrip]. rewrite Ha, Hc. now destruct a.
Qed.

Lemma spaces_image (r : list Z) :
  forallb whitespace r = true ->
  exists a, to_ascii_list r = Some a /\ rstrip a = EmptyString.
Proof.
  induction r as [|cp r IH]; intros H.
  - now exists EmptyString.
  - simpl in H. apply andb_prop in H. destruct H as [Hcp Hr].
    destruct (IH Hr) as (a & Ha & Hs).
    destruct (whitespace_image _ Hcp) as (c & Hc & Hsp).
    exists (String c a). simpl. now rewrite Hc, Ha, Hs, Hsp.
Qed.

Lemma lstrip_spaces (l x : list Z) (a' : string) :
  forallb whitespace l = true ->
  to_ascii_list x = Some a' ->
  exists a, to_ascii_list (l ++ x) = Some a /\ lstrip a = lstrip a'.
Proof.
  intros Hl Hx. induction l as [|cp l IH].
  - now exists a'.
  - simpl in Hl. apply andb_prop in Hl. destruct Hl as [Hcp Hl].
    destruct (IH Hl) as (a & Ha & Hs).
    destruct (whitespace_image _ Hcp) as (c & Hc & Hsp).
    exists (String c a). simpl. now rewrite Hc, Ha, Hsp.
Qed.

Lemma rstrip_spaces (x r : list Z) :
  forallb whitespace r = true ->
  forall a', to_ascii_list x = Some a' ->
             exists a, to_ascii_list (x ++ r) = Some a /\ rstrip a = rstrip a'.
Proof.
  intros Hr. induction x as [|cp x IH]; intros a' Hx.
  - injection Hx as <-. destruct (spaces_image _ Hr) as (a & Ha & Hs).
    now exists a.
  - destruct (to_ascii_list_cons _ _ _ Hx) as (c & a1 & -> & Hc & Hx1).
    destruct (IH _ Hx1) as (a & Ha & Hs).
    exists (String c a). simpl. now rewrite Hc, Ha, Hs.
Qed.

Lemma numeral_value_app (x y : list Z) :
  numeral_value (x ++ y)
  = numeral_value x * 10 ^ Z.of_nat (List.length y) + numeral_value y.
Proof.
  induction x as [|d x IH]; cbn [app numeral_value]; [lia|].
  rewrite IH, length_app, Nat2Z.inj_add, Z.pow_add_r by lia. lia.
Qed.

(** A group of digits before a tail. *)
Lemma digit_group_image (g tail : list Z) (dt : string) :
  forallb is_decimal g = true ->
  to_ascii_list tail = Some dt ->
  exists ds,
    to_ascii_list (g ++ tail) = Some ds
    /\ (forall acc b,
           digits_from ds acc b
           = digits_from dt (acc * 10 ^ Z.of_nat (List.length g)
                             + numeral_value g)
                         (match g with [] => b | _ => true end))
    /\ count_digits ds = Z.of_nat (List.length g) + count_digits dt
    /\ (rstrip dt = dt -> rstrip ds = ds)
    /\ (g <> [] -> exists c ds', ds = String c ds' /\ is_digit c = true).
Proof.
  intros Hg Ht. induction g as [|cp g IH].
  - exists dt. split; [exact Ht|]. split; [|split; [|split]].
    + intros acc b. cbn [List.length numeral_value].
      change (Z.of_nat 0) with 0. rewrite Z.pow_0_r. f_equal. lia.
    + cbn [List.length]. lia.
    + now intros H.
    + now intros [].
  - simpl in Hg. apply andb_prop in Hg. destruct Hg as [Hcp Hg].
    destruct (IH Hg) as (ds & Hds & Hrun & Hn & Hrs & _).
    destruct (decimal_image _ Hcp) as (c & Hc & Hd & Hval).
    exists (String c ds). split; [|split; [|split; [|split]]].
    + simpl. now rewrite Hc, Hds.
    + intros acc b. cbn [digits_from]. rewrite Hd, Hrun.
      assert (Hacc : (10 * acc + digit_val c) * 10 ^ Z.of_nat (List.length g)
                     + numeral_value g
                     = acc * 10 ^ Z.of_nat (List.length (cp :: g))
                       + numeral_value (cp :: g)).
      { cbn [List.length numeral_value].
        rewrite Nat2Z.inj_succ, Z.pow_succ_r, Hval by lia. lia. }
      rewrite Hacc. now destruct g.
    + cbn [count_digits List.length]. rewrite Hd, Hn. lia.
    + intros Hdt. apply rstrip_cons; [now apply is_digit_not_space|].
      now apply Hrs.
    + intros _. now exists c, ds.
Qed.

Lemma join_groups_image (gs : list (list Z)) :
  forall g,
    Forall digit_group (g :: gs) ->
    exists ds,
      to_ascii_list (join_groups g gs) = Some ds
      /\ (forall acc b,
             digits_from ds acc b
             = Some (acc * 10 ^ Z.of_nat (List.length (List.concat (g :: gs)))
                     + numeral_value (List.concat (g :: gs))))
      /\ count_digits ds = Z.of_nat (List.length (List.concat (g :: gs)))
      /\ rstrip ds = ds
      /\ exists c ds', ds = String c ds' /\ is_digit c = true.
Proof.
  induction gs as [|g' gs IH]; intros g Hall;
    inversion Hall as [|? ? [Hne Hdec] Hrest]; subst.
  - destruct (digit_group_image g [] EmptyString Hdec eq_refl)
      as (ds & Hds & Hrun & Hn & Hrs & Hfirst).
    rewrite app_nil_r in Hds. exists ds.
    change (List.concat [g]) with (g ++ []). rewrite app_nil_r.
    split; [|split; [|split; [|split]]].
    + exact Hds.
    + intros acc b. rewrite Hrun. now destruct g.
    + rewrite Hn. cbn [count_digits]. lia.
    + now apply Hrs.
    + now apply Hfirst.
  - destruct (IH g' Hrest) as (ds1 & Hds1 & Hrun1 & Hn1 & Hrs1 & _).
    assert (Htail : to_ascii_list (95 :: join_groups g' gs)
                    = Some (String "_" ds1)).
    { cbn [to_ascii_list]. rewrite Hds1. reflexivity. }
    destruct (digit_group_image g _ _ Hdec Htail)
      as (ds & Hds & Hrun & Hn & Hrs & Hfirst).
    exists ds.
    change (List.concat (g :: g' :: gs)) with (g ++ List.concat (g' :: gs)).
    split; [|split; [|split; [|split]]].
    + exact Hds.
    + intros acc b. rewrite Hrun.
      replace (match g with [] => b | _ :: _ => true end) with true
        by now destruct g.
      cbn [digits_from]. change (is_digit "_") with false. cbv iota.
      change (Ascii.eqb "_" "_") with true. cbv iota.
      rewrite Hrun1, numeral_value_app, length_app, Nat2Z.inj_add,
        Z.pow_add_r by lia.
      f_equal. lia.
    + rewrite Hn. cbn [count_digits]. change (is_digit "_") with false.
      rewrite Hn1, length_app, Nat2Z.inj_add. lia.
    + apply Hrs. now apply rstrip_cons.
    + now apply Hfirst.
Qed.

(** [int] reads nothing but the texts of [reads_as]. *)
Lemma int_of_string_accepts (s : string) (v : Z) :
  int_of_string s = Ok v -> reads_as s v.
Proof.
  unfold int_of_string, to_ascii.
  destruct (code_points s) as [cps|] eqn:Hcps; [|discriminate].
  destruct (to_ascii_list cps) as [a|] eqn:Ha; [|discriminate].
  destruct (lstrip_image _ _ Ha) as (l & c1 & -> & Hl & H1).
  destruct (rstrip_image _ _ H1) as (c2 & r & -> & Hr & H2).
  unfold long_from_string.
  destruct (rstrip (lstrip a)) as [|c body] eqn:Hbody; [discriminate|].
  destruct c2 as [|cp c3]; [discriminate|].
  destruct (to_ascii_list_cons _ _ _ H2) as (c' & b' & [= <- <-] & Hc & H3).
  destruct (ascii_of_code_point_facts _ _ Hc) as (_ & _ & _ & _ & Hplus & Hminus).
  assert (Hread : forall (x : list Z) (ds : string) (z : Z),
             to_ascii_list x = Some ds ->
             digits_from ds 0 false = Some z ->
             (max_str_digits <? count_digits ds) = false ->
             exists g gs,
               x = join_groups g gs
               /\ Forall digit_group (g :: gs)
               /\ Z.of_nat (List.length (List.concat (g :: gs))) <= max_str_digits
               /\ z = numeral_value (List.concat (g :: gs))).
  { intros x ds z Hx Hz Hmax.
    destruct (digits_from_image _ _ _ _ _ Hx Hz)
      as [(Hb & _)|(g & gs & Hg & Hshape & -> & Hn)]; [discriminate|].
    destruct Hshape as [->|(Hb & _)]; [|discriminate].
    exists g, gs. rewrite <- Hn. apply Z.ltb_ge in Hmax.
    repeat split; try assumption; lia. }
  destruct (Ascii.eqb c "+") eqn:Hp.
  - symmetry in Hplus. apply Z.eqb_eq in Hplus. subst cp.
    destruct (digits_from body 0 false) as [z|] eqn:Hz; [|discriminate].
    destruct (max_str_digits <? count_digits body) eqn:Hmax; [discriminate|].
    intros [= <-].
    destruct (Hread _ _ _ H3 Hz Hmax) as (g & gs & -> & Hg & Hlen & ->).
    exists l, [43], r, g, gs. repeat (split; [assumption|]).
    right. left. now split.
  - destruct (Ascii.eqb c "-") eqn:Hm.
    + symmetry in Hminus. apply Z.eqb_eq in Hminus. subst cp.
      destruct (digits_from body 0 false) as [z|] eqn:Hz; [|discriminate].
      destruct (max_str_digits <? count_digits body) eqn:Hmax; [discriminate|].
      intros [= <-].
      destruct (Hread _ _ _ H3 Hz Hmax) as (g & gs & -> & Hg & Hlen & ->).
      exists l, [45], r, g, gs. repeat (split; [assumption|]).
      right. right. now split.
    + destruct (digits_from (String c body) 0 false) as [z|] eqn:Hz;
        [|discriminate].
      destruct (max_str_digits <? count_digits (String c body)) eqn:Hmax;
        [discriminate|].
      intros [= <-].
      destruct (Hread _ _ _ H2 Hz Hmax) as (g & gs & Hx & Hg & Hlen & ->).
      exists l, [], r, g, gs. rewrite <- Hx. repeat (split; [assumption|]).
      left. now split.
Qed.

Lemma strip_image (l x r : list Z) (c : ascii) (b : string) :
  forallb whitespace l = true ->
  forallb whitespace r = true ->
  to_ascii_list x = Some (String c b) ->
  is_space c = false ->
  rstrip (String c b) = String c b ->
  exists a, to_ascii_list (l ++ x ++ r) = Some a
            /\ rstrip (lstrip a) = String c b.
Proof.
  intros Hl Hr Hx Hc Hrs.
  destruct (rstrip_spaces x r Hr _ Hx) as (a1 & Ha1 & Hs1).
  destruct (lstrip_spaces l (x ++ r) a1 Hl Ha1) as (a & Ha & Hs).
  exists a. split; [exact Ha|]. rewrite Hs.
  destruct x as [|cp x]; [discriminate|].
  destruct (to_ascii_list_cons _ _ _ Hx) as (c' & b' & [= <- <-] & Hcp & _).
  destruct (to_ascii_list_cons _ _ _ Ha1) as (c1 & b1 & -> & Hcp1 & _).
  rewrite Hcp in Hcp1. injection Hcp1 as <-.
  cbn [lstrip]. rewrite Hc, Hs1. exact Hrs.
Qed.

(** [int] reads every text of [reads_as], with that value. *)
Lemma int_of_string_reads (s : string) (v : Z) :
  reads_as s v -> int_of_string s = Ok v.
Proof.
  intros (l & sg & r & g & gs & Hcps & Hl & Hr & Hg & Hlen & Hsg).
  destruct (join_groups_image gs g Hg)
    as (ds & Hds & Hrun & Hn & Hrs & c & ds' & -> & Hdig).
  assert (Hmax : (max_str_digits <? count_digits (String c ds')) = false)
    by (apply Z.ltb_ge; lia).
  specialize (Hrun 0 false). rewrite Z.mul_0_l, Z.add_0_l in Hrun.
  destruct (is_digit_not_sign _ Hdig) as (Hp & Hm & _).
  unfold int_of_string, to_ascii. rewrite Hcps.
  destruct Hsg as [[-> ->]|[[-> ->]|[-> ->]]].
  - destruct (strip_image l _ r _ _ Hl Hr Hds (is_digit_not_space _ Hdig) Hrs)
      as (a & Ha & Hbody).
    cbn [app] in Ha |- *. rewrite Ha. unfold long_from_string.
    rewrite Hbody, Hp, Hm, Hrun, Hmax. reflexivity.
  - assert (Hx : to_ascii_list ([43] ++ join_groups g gs)
                 = Some (String "+" (String c ds'))).
    { cbn [app to_ascii_list]. rewrite Hds. reflexivity. }
    assert (Hrs' : rstrip (String "+" (String c ds')) = String "+" (String c ds'))
      by now apply rstrip_cons.
    destruct (strip_image l _ r _ _ Hl Hr Hx eq_refl Hrs') as (a & Ha & Hbody).
    rewrite <- app_assoc in Ha. rewrite Ha. unfold long_from_string.
    rewrite Hbody. change (Ascii.eqb "+" "+") with true. cbv iota.
    rewrite Hrun, Hmax. reflexivity.
  - assert (Hx : to_ascii_list ([45] ++ join_groups g gs)
                 = Some (String "-" (String c ds'))).
    { cbn [app to_ascii_list]. rewrite Hds. reflexivity. }
    assert (Hrs' : rstrip (String "-" (String c ds')) = String "-" (String c ds'))
      by now apply rstrip_cons.
    destruct (strip_image l _ r _ _ Hl Hr Hx eq_refl Hrs') as (a & Ha & Hbody).
    rewrite <- app_assoc in Ha. rewrite Ha. unfold long_from_string.
    rewrite Hbody. change (Ascii.eqb "-" "+") with false.
    change (Ascii.eqb "-" "-") with true. cbv iota.
    rewrite Hrun, Hmax. reflexivity.
Qed.



(** *** Texts of ASCII digits *)

Lemma to_ascii_digits (s : string) :
  all_digits s = true -> to_ascii s = Some s.
Proof.
  unfold to_ascii, code_points. induction s as [|c r IH]; [reflexivity|].
  cbn [all_digits]. intros H. apply andb_prop in H. destruct H as [Hc Hr].
  specialize (IH Hr). cbn [code_points_from].
  assert (Hlow : (Z.of_nat (nat_of_ascii c) <? 128) = true).
  { apply Z.ltb_lt. unfold is_digit in Hc.
    apply andb_prop in Hc. destruct Hc as [_ Hc]. apply Nat.leb_le in Hc. lia. }
  rewrite Hlow.
  destruct (code_points_from r 0 0 0) as [cps|]; [|discriminate].
  cbn [option_map to_ascii_list]. unfold ascii_of_code_point.
  rewrite Hlow, IH, Nat2Z.id, ascii_nat_embedding. reflexivity.
Qed.

Lemma lstrip_digits (s : string) : all_digits s = true -> lstrip s = s.
Proof.
  destruct s as [|c r]; simpl; [reflexivity|].
  intros H. apply andb_prop in H. destruct H as [Hc _].
  now rewrite (is_digit_not_space _ Hc).
Qed.

Lemma rstrip_digits (s : string) : all_digits s = true -> rstrip s = s.
Proof.
  induction s as [|c r IH]; simpl; [reflexivity|].
  intros H. apply andb_prop in H. destruct H as [Hc Hr].
  rewrite (IH Hr). destruct r; [|reflexivity].
  now rewrite (is_digit_not_space _ Hc).
Qed.

Lemma digits_from_all_digits (s : string) :
  all_digits s = true ->
  forall (acc : Z) (after_digit : bool),
    s <> EmptyString \/ after_digit = true ->
    digits_from s acc after_digit
    = Some (acc * 10 ^ Z.of_nat (String.length s) + decimal_value s).
Proof.
  induction s as [|c r IH]; intros Hs acc b Hb.
  - simpl. destruct Hb as [Hb| ->]; [congruence|]. f_equal. lia.
  - cbn [all_digits] in Hs. apply andb_prop in Hs. destruct Hs as [Hc Hr].
    cbn [digits_from decimal_value String.length].
    rewrite Hc, (IH Hr) by now right. f_equal.
    rewrite Nat2Z.inj_succ, Z.pow_succ_r by lia. unfold digit_val. ring.
Qed.

Lemma count_digits_all_digits (s : string) :
  all_digits s = true -> count_digits s = Z.of_nat (String.length s).
Proof.
  induction s as [|c r IH]; [reflexivity|].
  cbn [all_digits count_digits String.length]. intros H.
  apply andb_prop in H. destruct H as [Hc Hr].
  rewrite Hc, (IH Hr). lia.
Qed.

(** On a text of ASCII digits [int] gives the decimal value, unless the
    text is empty or longer than [max_str_digits]. *)
Lemma int_of_string_all_digits (s : string) :
  all_digits s = true ->
  int_of_string s
  = if String.eqb s "" || (max_str_digits <? Z.of_nat (String.length s))
    then Raise ValueError
    else Ok (decimal_value s).
Proof.
  intros Hs. unfold int_of_string, long_from_string.
  rewrite (to_ascii_digits _ Hs), (lstrip_digits _ Hs), (rstrip_digits _ Hs).
  destruct s as [|c r]; [reflexivity|].
  assert (Hc : is_digit c = true)
    by (cbn [all_digits] in Hs; now apply andb_prop in Hs).
  destruct (is_digit_not_sign _ Hc) as (-> & -> & _).
  rewrite (digits_from_all_digits _ Hs) by (left; discriminate).
  rewrite (count_digits_all_digits _ Hs).
  change (String.eqb (String c r) "") with false. cbn [orb].
  destruct (max_str_digits <? _); [reflexivity|]. f_equal.
Qed.

Lemma int_of_string_digits (s : string) :
  s <> EmptyString -> all_digits s = true ->
  Z.of_nat (String.length s) <= max_str_digits ->
  int_of_string s = Ok (decimal_value s).
Proof.
  intros Hne Hs Hlen. rewrite (int_of_string_all_digits _ Hs).
  destruct (String.eqb_spec s ""); [contradiction|].
  destruct (Z.ltb_spec max_str_digits (Z.of_nat (String.length s))); [lia|].
  reflexivity.
Qed.

(** Three texts: blanks, sign and underscore; Arabic-Indic digits; a
    decimal fraction, which [int] does not read. *)
Example reads_as_examples :
  reads_as " +1_000 " 1000
  /\ reads_as "١٢" 12
  /\ (forall v, ~ reads_as "2.0" v).
Proof.
  split; [|split].
  - apply int_of_string_accepts. vm_compute. reflexivity.
  - apply int_of_string_accepts. vm_compute. reflexivity.
  - intros v H. apply int_of_string_reads in H. vm_compute in H. discriminate.
Qed.




Section QuantityFacts.
Context {U : Type} (mk : string -> Z -> U).


End QuantityFacts.


(** The rule on a few texts: blanks, signs and underscores, digits and
    white space of other scripts (Arabic-Indic ["١٢"], a no-break space,
    fullwidth ["５"]), and texts that [int] rejects. *)
Example stock_of_count_examples :
  map stock_of_count
      [PyStr ">10"; PyStr "1"; PyStr "0"; PyStr "7"; PyStr "10"; PyStr "25";
       PyInt 1; PyInt 12; PyStr " 12 "; PyStr "+5"; PyStr "-5"; PyStr "1_000";
       PyStr "01"; PyStr " 1"; PyStr "١٢"; PyStr "5 "; PyStr "５";
       PyStr "нет"; PyStr ""; PyStr ">5"; PyStr "2.0"; PyStr "1__0";
       PyStr "_1"; PyStr "1_"; PyStr "+ 5"; PyStr "--5"; PyNone]
  = [Ok 100; Ok 0; Ok 0; Ok 7; Ok 10; Ok 25;
     Ok 0; Ok 12; Ok 12; Ok 5; Ok (-5); Ok 1000;
     Ok 1; Ok 1; Ok 12; Ok 5; Ok 5;
     Raise ValueError; Raise ValueError; Raise ValueError; Raise ValueError;
     Raise ValueError; Raise ValueError; Raise ValueError; Raise ValueError;
     Raise ValueError; Raise TypeError].
Proof. vm_compute. reflexivity. Qed.


Example create_stocks_example :
  Seller.create_stocks example_lists
  = Ok ([Seller.StockUpdate "GA-100" 100; Seller.StockUpdate "70212" 0;
         Seller.StockUpdate "B-7" 0; Seller.StockUpdate "C-3" 0],
        set_offer_ids ["B-7"; "C-3"] example_lists)
  /\ Seller.create_stocks
       (Lists [Watch (PyStr "GA-100") (PyStr "нет") PyNone] ["GA-100"])
     = Raise ValueError.
Proof. split; reflexivity. Qed.

(** ** Termination of the offer enumerators *)

Lemma seller_offers_loop_stops (world : Seller.api) (n0 : nat) :
  forall (d j : nat) (last_id : string) (product_list : list Seller.product)
         (tr : list Seller.call),
    seller_pages world n0 j = Some (last_id, product_list) ->
    List.length tr = (n0 + j)%nat ->
    seller_stops_at world n0 (j + d) ->
    exists (n : nat) (r : result (list Seller.product)) (tr' : list Seller.call),
      (1 <= n <= S d)%nat
      /\ List.length tr' = (List.length tr + n)%nat
      /\ forall fuel, (n <= fuel)%nat ->
           Seller.offers_loop world fuel last_id product_list tr = Some (r, tr').
Proof.
  induction d as [|d IH]; intros j last_id product_list tr Hpages Hlen Hstop.
  - rewrite Nat.add_0_r in Hstop. unfold seller_stops_at in Hstop.
    rewrite Hpages in Hstop.
    destruct (Seller.product_list_answer world (n0 + j) last_id)
      as [page|e] eqn:Hans.
    + exists 1%nat, (Ok (product_list ++ Seller.items page)),
             (tr ++ [Seller.ProductList last_id]).
      split; [lia|]. split; [rewrite length_app; reflexivity|].
      intros [|fuel] Hfuel; [lia|]. simpl.
      unfold io_bind, Seller.get_product_list, io_call.
      rewrite Hlen, Hans, Hstop, Z.eqb_refl. reflexivity.
    + exists 1%nat, (Raise e), (tr ++ [Seller.ProductList last_id]).
      split; [lia|]. split; [rewrite length_app; reflexivity|].
      intros [|fuel] Hfuel; [lia|]. simpl.
      unfold io_bind, Seller.get_product_list, io_call.
      rewrite Hlen, Hans. reflexivity.
  - destruct (Seller.product_list_answer world (n0 + j) last_id)
      as [page|e] eqn:Hans.
    + destruct (Seller.total page
                =? Z.of_nat (List.length (product_list ++ Seller.items page)))
        eqn:Htotal.
      * exists 1%nat, (Ok (product_list ++ Seller.items page)),
               (tr ++ [Seller.ProductList last_id]).
        split; [lia|]. split; [rewrite length_app; reflexivity|].
        intros [|fuel] Hfuel; [lia|]. simpl.
        unfold io_bind, Seller.get_product_list, io_call.
        rewrite Hlen, Hans, Htotal. reflexivity.
      * destruct (IH (S j) (Seller.last_id page)
                     (product_list ++ Seller.items page)
                     (tr ++ [Seller.ProductList last_id]))
          as (n & r & tr' & Hn & Hlen' & Hrun).
        { simpl. now rewrite Hpages, Hans. }
        { rewrite length_app. simpl. lia. }
        { now replace (S j + d)%nat with (j + S d)%nat by lia. }
        exists (S n), r, tr'.
        split; [lia|]. split; [rewrite Hlen', length_app; simpl; lia|].
        intros [|fuel] Hfuel; [lia|]. simpl.
        unfold io_bind, Seller.get_product_list, io_call.
        rewrite Hlen, Hans, Htotal. apply Hrun. lia.
    + exists 1%nat, (Raise e), (tr ++ [Seller.ProductList last_id]).
      split; [lia|]. split; [rewrite length_app; reflexivity|].
      intros [|fuel] Hfuel; [lia|]. simpl.
      unfold io_bind, Seller.get_product_list, io_call.
      rewrite Hlen, Hans. reflexivity.
Qed.

Lemma market_offers_loop_stops (world : Market.api) (campaign_id : string)
      (n0 : nat) :
  forall (d j : nat) (page : string) (product_list : list Market.entry)
         (tr : list Market.call),
    market_pages world campaign_id n0 j = Some (page, product_list) ->
    List.length tr = (n0 + j)%nat ->
    market_stops_at world campaign_id n0 (j + d) ->
    exists (n : nat) (r : result (list Market.entry)) (tr' : list Market.call),
      (1 <= n <= S d)%nat
      /\ List.length tr' = (List.length tr + n)%nat
      /\ forall fuel, (n <= fuel)%nat ->
           Market.offers_loop world fuel campaign_id page product_list tr
           = Some (r, tr').
Proof.
  induction d as [|d IH]; intros j page product_list tr Hpages Hlen Hstop.
  - rewrite Nat.add_0_r in Hstop. unfold market_stops_at in Hstop.
    rewrite Hpages in Hstop.
    destruct (Market.product_list_answer world (n0 + j) campaign_id page)
      as [some_prod|e] eqn:Hans.
    + exists 1%nat,
             (Ok (product_list ++ Market.offerMappingEntries some_prod)),
             (tr ++ [Market.ProductList campaign_id page]).
      split; [lia|]. split; [rewrite length_app; reflexivity|].
      intros [|fuel] Hfuel; [lia|]. simpl.
      unfold io_bind, Market.get_product_list, io_call.
      rewrite Hlen, Hans. destruct Hstop as [-> | ->]; reflexivity.
    + exists 1%nat, (Raise e), (tr ++ [Market.ProductList campaign_id page]).
      split; [lia|]. split; [rewrite length_app; reflexivity|].
      intros [|fuel] Hfuel; [lia|]. simpl.
      unfold io_bind, Market.get_product_list, io_call.
      rewrite Hlen, Hans. reflexivity.
  - destruct (Market.product_list_answer world (n0 + j) campaign_id page)
      as [some_prod|e] eqn:Hans.
    + destruct (Market.nextPageToken some_prod) as [next|] eqn:Hnext.
      * destruct (String.eqb next "") eqn:Hempty.
        -- exists 1%nat,
                  (Ok (product_list ++ Market.offerMappingEntries some_prod)),
                  (tr ++ [Market.ProductList campaign_id page]).
           split; [lia|]. split; [rewrite length_app; reflexivity|].
           intros [|fuel] Hfuel; [lia|]. simpl.
           unfold io_bind, Market.get_product_list, io_call.
           rewrite Hlen, Hans, Hnext, Hempty. reflexivity.
        -- destruct (IH (S j) next
                        (product_list ++ Market.offerMappingEntries some_prod)
                        (tr ++ [Market.ProductList campaign_id page]))
             as (n & r & tr' & Hn & Hlen' & Hrun).
           { simpl. now rewrite Hpages, Hans, Hnext. }
           { rewrite length_app. simpl. lia. }
           { now replace (S j + d)%nat with (j + S d)%nat by lia. }
           exists (S n), r, tr'.
           split; [lia|]. split; [rewrite Hlen', length_app; simpl; lia|].
           intros [|fuel] Hfuel; [lia|]. simpl.
           unfold io_bind, Market.get_product_list, io_call.
           rewrite Hlen, Hans, Hnext, Hempty. apply Hrun. lia.
      * exists 1%nat,
               (Ok (product_list ++ Market.offerMappingEntries some_prod)),
               (tr ++ [Market.ProductList campaign_id page]).
        split; [lia|]. split; [rewrite length_app; reflexivity|].
        intros [|fuel] Hfuel; [lia|]. simpl.
        unfold io_bind, Market.get_product_list, io_call.
        rewrite Hlen, Hans, Hnext. reflexivity.
    + exists 1%nat, (Raise e), (tr ++ [Market.ProductList campaign_id page]).
      split; [lia|]. split; [rewrite length_app; reflexivity|].
      intros [|fuel] Hfuel; [lia|]. simpl.
      unfold io_bind, Market.get_product_list, io_call.
      rewrite Hlen, Hans. reflexivity.
Qed.

(** C5. Whatever the answers of the two listing endpoints, if some page
    ends the loop (Ozon: the number of products gathered equals the
    advertised total; Yandex: the token of the page is absent or empty; or
    the call raises), then [get_offer_ids] returns for every fuel that
    covers the pages up to that one, having issued at least one and at most
    that many listing calls.  The sizes of the pages play no role. *)
Theorem offer_enumerators_terminate
        (ozon : Seller.api) (yandex : Market.api) (campaign_id : string)
        (ozon_trace : list Seller.call) (yandex_trace : list Market.call)
        (k_ozon k_yandex : nat) :
  seller_stops_at ozon (List.length ozon_trace) k_ozon ->
  market_stops_at yandex campaign_id (List.length yandex_trace) k_yandex ->
  (exists (pages : nat) (r : result (list string)) (tr' : list Seller.call),
      (1 <= pages <= S k_ozon)%nat
      /\ List.length tr' = (List.length ozon_trace + pages)%nat
      /\ forall fuel, (pages <= fuel)%nat ->
           Seller.get_offer_ids ozon fuel ozon_trace = Some (r, tr'))
  /\ (exists (pages : nat) (r : result (list string)) (tr' : list Market.call),
      (1 <= pages <= S k_yandex)%nat
      /\ List.length tr' = (List.length yandex_trace + pages)%nat
      /\ forall fuel, (pages <= fuel)%nat ->
           Market.get_offer_ids yandex fuel campaign_id yandex_trace
           = Some (r, tr')).
Proof.
  intros Hozon Hyandex. split.
  - destruct (seller_offers_loop_stops ozon (List.length ozon_trace)
                k_ozon 0 "" [] ozon_trace)
      as (n & r & tr' & Hn & Hlen & Hrun);
      [reflexivity|lia|exact Hozon|].
    exists n, (products <- r ;; Ok (map Seller.prod_offer_id products)), tr'.
    split; [exact Hn|]. split; [exact Hlen|].
    intros fuel Hfuel. unfold Seller.get_offer_ids, io_bind.
    rewrite (Hrun fuel Hfuel). destruct r; reflexivity.
  - destruct (market_offers_loop_stops yandex campaign_id
                (List.length yandex_trace) k_yandex 0 "" [] yandex_trace)
      as (n & r & tr' & Hn & Hlen & Hrun);
      [reflexivity|lia|exact Hyandex|].
    exists n, (products <- r ;; Ok (map Market.shopSku products)), tr'.
    split; [exact Hn|]. split; [exact Hlen|].
    intros fuel Hfuel. unfold Market.get_offer_ids, io_bind.
    rewrite (Hrun fuel Hfuel). destruct r; reflexivity.
Qed.

Lemma offer_enumerators_terminate_full_pages :
  (exists (pages : nat) (r : result (list string)) (tr' : list Seller.call),
      (1 <= pages <= 2)%nat
      /\ List.length tr' = (0 + pages)%nat
      /\ forall fuel, (pages <= fuel)%nat ->
           Seller.get_offer_ids seller_full_pages fuel [] = Some (r, tr'))
  /\ (exists (pages : nat) (r : result (list string)) (tr' : list Market.call),
      (1 <= pages <= 2)%nat
      /\ List.length tr' = (0 + pages)%nat
      /\ forall fuel, (pages <= fuel)%nat ->
           Market.get_offer_ids market_full_pages fuel "fbs" [] = Some (r, tr')).
Proof.
  apply (offer_enumerators_terminate
           seller_full_pages market_full_pages "fbs" [] [] 1 1).
  - vm_compute. reflexivity.
  - vm_compute. right. reflexivity.
Defined.

(** With full pages the two loops stop after exactly two calls: no further
    page is asked for once the total is reached or the token is empty. *)
Example full_pages_two_calls :
  (exists ids, Seller.get_offer_ids seller_full_pages 5 []
               = Some (Ok ids, [Seller.ProductList ""; Seller.ProductList "1"])
               /\ List.length ids = 2000%nat)
  /\ (exists ids, Market.get_offer_ids market_full_pages 5 "fbs" []
                  = Some (Ok ids, [Market.ProductList "fbs" "";
                                   Market.ProductList "fbs" "page-2"])
                  /\ List.length ids = 400%nat).
Proof.
  split; eexists; split; vm_compute; reflexivity.
Qed.

(** ** The upload loops *)

Section UploadLoop.
Context {C X : Type} (mk : X -> C) (answer : nat -> X -> result unit).

Lemma first_failure_none (xs : list X) :
  forall n,
    first_failure answer n xs = None <->
    (forall k x, nth_error xs k = Some x -> answer (n + k)%nat x = Ok tt).
Proof.
  induction xs as [|x rest IH]; intros n; simpl.
  - split; [|reflexivity]. intros _ [|k] y; discriminate.
  - destruct (answer n x) as [[]|e] eqn:Hx.
    + destruct (first_failure answer (S n) rest) as [[j e]|] eqn:Hrest.
      * split; [discriminate|]. intros H.
        assert (Hnone : first_failure answer (S n) rest = None).
        { apply IH. intros k y Hy.
          replace (S n + k)%nat with (n + S k)%nat by lia. now apply H. }
        congruence.
      * split; [|reflexivity]. intros _ [|k] y Hy.
        -- injection Hy as <-. now rewrite Nat.add_0_r.
        -- replace (n + S k)%nat with (S n + k)%nat by lia.
           now apply (proj1 (IH (S n)) Hrest).
    + split; [discriminate|]. intros H.
      specialize (H 0%nat x eq_refl). rewrite Nat.add_0_r in H. congruence.
Qed.

Lemma first_failure_some (xs : list X) :
  forall n j e,
    first_failure answer n xs = Some (j, e) ->
    (exists x, nth_error xs j = Some x /\ answer (n + j)%nat x = Raise e)
    /\ (forall k x, (k < j)%nat -> nth_error xs k = Some x ->
                    answer (n + k)%nat x = Ok tt).
Proof.
  induction xs as [|x rest IH]; intros n j e; simpl; [discriminate|].
  destruct (answer n x) as [[]|e'] eqn:Hx.
  - destruct (first_failure answer (S n) rest) as [[j' e'']|] eqn:Hrest;
      [|discriminate].
    intros [= <- <-]. destruct (IH _ _ _ Hrest) as [(y & Hy & Hfail) Hbefore].
    split.
    + exists y. split; [exact Hy|].
      now replace (n + S j')%nat with (S n + j')%nat by lia.
    + intros [|k] z Hk Hz.
      * injection Hz as <-. now rewrite Nat.add_0_r.
      * replace (n + S k)%nat with (S n + k)%nat by lia.
        apply Hbefore; [lia|exact Hz].
  - intros [= <- <-]. split.
    + exists x. split; [reflexivity|]. now rewrite Nat.add_0_r.
    + intros k z Hk. lia.
Qed.

(** The loop issues the calls of the chunks in order, one each, up to and
    including the first that raises, and ends with that exception. *)
Lemma for_each_calls (xs : list X) :
  forall tr : list C,
    for_each (fun x => io_call (mk x) (fun n => answer n x)) xs tr
    = Some (match first_failure answer (List.length tr) xs with
            | None => (Ok tt, tr ++ map mk xs)
            | Some (j, e) => (Raise e, tr ++ map mk (firstn (S j) xs))
            end).
Proof.
  induction xs as [|x rest IH]; intros tr; simpl.
  - now rewrite app_nil_r.
  - unfold io_bind, io_call at 1.
    destruct (answer (List.length tr) x) as [[]|e].
    + rewrite IH, length_app. simpl.
      replace (List.length tr + 1)%nat with (S (List.length tr)) by lia.
      destruct (first_failure answer (S (List.length tr)) rest) as [[j e]|];
        now rewrite <- app_assoc.
    + reflexivity.
Qed.

End UploadLoop.

Lemma main_stock_upload_failure
      (world : Seller.api) (fuel : nat) (tr tr1 : list Seller.call)
      (offer_ids : list string) (feed : list watch)
      (stocks : list Seller.stock_update) (mem : lists)
      (chunks : list (list Seller.stock_update)) (j : nat) (e : exn) :
  Seller.get_offer_ids world fuel tr = Some (Ok offer_ids, tr1) ->
  Seller.download_answer world (List.length tr1) = Ok feed ->
  Seller.create_stocks (Lists feed offer_ids) = Ok (stocks, mem) ->
  Seller.divide stocks 100 = Ok chunks ->
  first_failure (Seller.update_stocks_answer world) (S (List.length tr1)) chunks
  = Some (j, e) ->
  Seller.main world fuel tr
  = Some ([except_message e],
          tr1 ++ Seller.DownloadStock
              :: map Seller.UpdateStocks (firstn (S j) chunks)).
Proof.
  intros Hids Hfeed Hstocks Hchunks Hfail.
  unfold Seller.main, Seller.main_body, io_bind.
  rewrite Hids. unfold Seller.download_stock, io_call at 1. rewrite Hfeed.
  unfold io_lift. rewrite Hstocks, Hchunks.
  assert (Hloop := for_each_calls Seller.UpdateStocks
                     (Seller.update_stocks_answer world) chunks
                     (tr1 ++ [Seller.DownloadStock])).
  rewrite length_app in Hloop. simpl in Hloop.
  replace (List.length tr1 + 1)%nat with (S (List.length tr1)) in Hloop by lia.
  rewrite Hfail in Hloop.
  unfold Seller.update_stocks. rewrite Hloop.
  now rewrite <- app_assoc.
Qed.

(** C8. [upload_prices] of seller.py sends the chunks of 1000 prices in
    order, one call each; at the first call that raises it stops, having
    sent that chunk once and none of the later ones, and ends with the same
    exception, which it does not handle.  [main] turns whatever its [try]
    block raises into one printed message, chosen by the class of the
    exception, and issues no further call; an error in its stock loop is an
    instance.  From [main] of market.py only the exception of
    [download_stock], which is called before the [try], can escape. *)
Theorem batch_upload_errors
        (world : Seller.api) (fuel : nat) (watch_remnants : list watch)
        (tr tr1 : list Seller.call) (offer_ids : list string)
        (prices : list Seller.price_update)
        (chunks : list (list Seller.price_update)) :
  Seller.get_offer_ids world fuel tr = Some (Ok offer_ids, tr1) ->
  Seller.create_prices (Lists watch_remnants offer_ids) = Ok prices ->
  Seller.divide prices 1000 = Ok chunks ->
  Seller.upload_prices world fuel watch_remnants tr
  = Some (match first_failure (Seller.update_price_answer world)
                              (List.length tr1) chunks with
          | None => (Ok prices, tr1 ++ map Seller.UpdatePrice chunks)
          | Some (j, e) =>
              (Raise e, tr1 ++ map Seller.UpdatePrice (firstn (S j) chunks))
          end)
  /\ (first_failure (Seller.update_price_answer world) (List.length tr1) chunks
      = None
      <-> (forall k x, nth_error chunks k = Some x ->
                       Seller.update_price_answer world
                                                  (List.length tr1 + k)%nat x
                       = Ok tt))
  /\ (forall j e,
         first_failure (Seller.update_price_answer world)
                       (List.length tr1) chunks = Some (j, e) ->
         (exists x, nth_error chunks j = Some x
                    /\ Seller.update_price_answer world
                                                  (List.length tr1 + j)%nat x
                       = Raise e)
         /\ (forall k x, (k < j)%nat -> nth_error chunks k = Some x ->
                         Seller.update_price_answer world
                                                    (List.length tr1 + k)%nat x
                         = Ok tt))
  /\ (forall tr0 e tr',
         Seller.main_body world fuel tr0 = Some (Raise e, tr') ->
         Seller.main world fuel tr0 = Some ([except_message e], tr'))
  /\ (forall tr0 tr',
         Seller.main_body world fuel tr0 = Some (Ok tt, tr') ->
         Seller.main world fuel tr0 = Some ([], tr'))
  /\ (forall tr0 tr2 ids feed stocks mem stock_chunks j e,
         Seller.get_offer_ids world fuel tr0 = Some (Ok ids, tr2) ->
         Seller.download_answer world (List.length tr2) = Ok feed ->
         Seller.create_stocks (Lists feed ids) = Ok (stocks, mem) ->
         Seller.divide stocks 100 = Ok stock_chunks ->
         first_failure (Seller.update_stocks_answer world)
                       (S (List.length tr2)) stock_chunks = Some (j, e) ->
         Seller.main world fuel tr0
         = Some ([except_message e],
                 tr2 ++ Seller.DownloadStock
                     :: map Seller.UpdateStocks (firstn (S j) stock_chunks)))
  /\ (forall (yandex : Market.api) fbs dbs wh_fbs wh_dbs date_fbs date_dbs
             (tr0 : list Market.call),
         match Market.main yandex fuel fbs dbs wh_fbs wh_dbs
                           date_fbs date_dbs tr0 with
         | Some (Raise e, tr') =>
             Market.download_answer yandex (List.length tr0) = Raise e
             /\ tr' = tr0 ++ [Market.DownloadStock]
         | _ => True
         end)
  /\ except_message ReadTimeout = TimeoutMessage
  /\ except_message ConnectionError = ConnectionMessage ConnectionError
  /\ (forall e, e <> ReadTimeout -> e <> ConnectionError ->
                except_message e = Error2Message e).
Proof.
  intros Hids Hprices Hchunks.
  split; [|split; [|split; [|split; [|split; [|split; [|split; [|repeat split]]]]]]].
  - unfold Seller.upload_prices, io_bind. rewrite Hids.
    unfold io_lift. rewrite Hprices, Hchunks.
    assert (Hloop := for_each_calls Seller.UpdatePrice
                       (Seller.update_price_answer world) chunks tr1).
    unfold Seller.update_price. rewrite Hloop.
    destruct (first_failure _ _ _) as [[j e]|]; reflexivity.
  - apply first_failure_none.
  - intros j e. apply first_failure_some.
  - intros tr0 e tr' H. unfold Seller.main. now rewrite H.
  - intros tr0 tr' H. unfold Seller.main. now rewrite H.
  - intros. eapply main_stock_upload_failure; eassumption.
  - intros yandex fbs dbs wh_fbs wh_dbs date_fbs date_dbs tr0.
    unfold Market.main, Market.download_stock, io_call.
    destruct (Market.download_answer yandex (List.length tr0)) as [feed|e].
    + destruct (io_bind _ _ _) as [[[[]|e] tr']|]; exact I.
    + split; reflexivity.
  - intros e H1 H2. destruct e; simpl; congruence.
Qed.

Lemma batch_upload_errors_refused :
  Seller.upload_prices seller_refusing 3 (watch_remnants example_lists) []
  = Some (Raise ReadTimeout,
          [Seller.ProductList "";
           Seller.UpdatePrice
             [ {| Seller.auto_action_enabled := "UNKNOWN";
                  Seller.currency_code := "RUB";
                  Seller.p_offer_id := "GA-100";
                  Seller.old_price := "0";
                  Seller.price := "5990" |};
               {| Seller.auto_action_enabled := "UNKNOWN";
                  Seller.currency_code := "RUB";
                  Seller.p_offer_id := "70212";
                  Seller.old_price := "0";
                  Seller.price := "1200" |} ] ]).
Proof.
  exact (proj1 (batch_upload_errors
                  seller_refusing 3 (watch_remnants example_lists)
                  [] [Seller.ProductList ""] ["GA-100"; "70212"; "B-7"]
                  _ _ eq_refl eq_refl eq_refl)).
Defined.

(** A loop of three chunks whose second upload raises: the third chunk is
    never sent and the second is sent once. *)
Example for_each_stops_at_first_error :
  for_each (fun x => io_call (Seller.UpdateStocks x)
                             (fun n => if (n =? 1)%nat then Raise HTTPError
                                       else Ok tt))
           [[Seller.StockUpdate "a" 1]; [Seller.StockUpdate "b" 2];
            [Seller.StockUpdate "c" 3]] []
  = Some (Raise HTTPError,
          [Seller.UpdateStocks [Seller.StockUpdate "a" 1];
           Seller.UpdateStocks [Seller.StockUpdate "b" 2]]).
Proof. reflexivity. Qed.

Example seller_main_refused :
  Seller.main seller_refusing 3 []
  = Some ([ConnectionMessage ConnectionError],
          [Seller.ProductList ""; Seller.DownloadStock;
           Seller.UpdateStocks
             [Seller.StockUpdate "GA-100" 100; Seller.StockUpdate "70212" 0;
              Seller.StockUpdate "B-7" 0]]).
Proof. reflexivity. Qed.

(** ** What [upload_stocks] returns *)

Lemma create_stocks_of_entries {U : Type} (mk : string -> Z -> U)
      (mem mem' : lists) (out : list U) :
  create_stocks_of mk mem = Ok (out, mem') ->
  forall u, In u out -> exists id q, u = mk id q.
Proof.
  unfold create_stocks_of.
  destruct (stocks_loop_of mk (watch_remnants mem) [] mem)
    as [[stocks mem1]|e] eqn:Hloop; simpl; [|discriminate].
  intros [= <- _] u Hu. apply in_app_or in Hu. destruct Hu as [Hu|Hu].
  - destruct (stocks_loop_of_origin mk _ _ _ _ Hloop u Hu)
      as (w & q & _ & _ & _ & ->). eauto.
  - unfold zero_fill_of in Hu. apply in_map_iff in Hu.
    destruct Hu as (id & <- & _). eauto.
Qed.

Lemma filter_raising_count (l : list Market.stock_update) :
  (forall s, In s l -> Market.items s <> []) ->
  Market.filter_raising Market.count_not_zero l
  = Ok (filter market_count_not_zero l).
Proof.
  induction l as [|s rest IH]; intros Hitems; simpl; [reflexivity|].
  unfold Market.count_not_zero at 1, market_count_not_zero at 1.
  destruct (Market.items s) as [|i others] eqn:Hs.
  - exfalso. apply (Hitems s); [now left|exact Hs].
  - simpl. rewrite IH by (intros s' Hs'; apply Hitems; now right).
    reflexivity.
Qed.

Lemma market_stocks_items (warehouse_id date : string) (mem mem' : lists)
      (stocks : list Market.stock_update) :
  Market.create_stocks warehouse_id date mem = Ok (stocks, mem') ->
  forall s, In s stocks ->
    exists id q, s = market_entry warehouse_id date id q.
Proof.
  rewrite market_create_stocks_shape. apply create_stocks_of_entries.
Qed.

(** C9. When [upload_stocks] returns the pair [(not_empty, stocks)], the
    first component is [stocks] filtered, in order, by a quantity different
    from 0 (the [stock] of seller.py, the [count] of the single item of
    market.py): its elements are exactly the elements of [stocks] with a
    quantity other than 0, and an update of quantity 0 is in [stocks] only.
    The filtering itself never fails: once the uploads went through, the
    pair is returned. *)
Theorem upload_stocks_not_empty
        (ozon : Seller.api) (yandex : Market.api) (fuel : nat)
        (watch_remnants : list watch)
        (campaign_id warehouse_id date : string)
        (ozon_trace : list Seller.call) (yandex_trace : list Market.call) :
  (forall not_empty stocks tr',
      Seller.upload_stocks ozon fuel watch_remnants ozon_trace
      = Some (Ok (not_empty, stocks), tr') ->
      not_empty = filter (fun s => negb (Seller.stock s =? 0)) stocks
      /\ (forall s, In s not_empty <-> In s stocks /\ Seller.stock s <> 0)
      /\ (forall s, In s stocks -> Seller.stock s = 0 -> ~ In s not_empty))
  /\ (forall not_empty stocks tr',
      Market.upload_stocks yandex fuel watch_remnants
                           campaign_id warehouse_id date yandex_trace
      = Some (Ok (not_empty, stocks), tr') ->
      not_empty = filter market_count_not_zero stocks
      /\ (forall s, In s stocks ->
                    exists id q, s = market_entry warehouse_id date id q)
      /\ (forall id q, In (market_entry warehouse_id date id q) not_empty
                       <-> In (market_entry warehouse_id date id q) stocks
                           /\ q <> 0))
  /\ (forall offer_ids tr1 stocks mem chunks tr2,
      Seller.get_offer_ids ozon fuel ozon_trace = Some (Ok offer_ids, tr1) ->
      Seller.create_stocks (Lists watch_remnants offer_ids) = Ok (stocks, mem) ->
      Seller.divide stocks 100 = Ok chunks ->
      for_each (Seller.update_stocks ozon) chunks tr1 = Some (Ok tt, tr2) ->
      Seller.upload_stocks ozon fuel watch_remnants ozon_trace
      = Some (Ok (filter (fun s => negb (Seller.stock s =? 0)) stocks, stocks),
              tr2))
  /\ (forall offer_ids tr1 stocks mem chunks tr2,
      Market.get_offer_ids yandex fuel campaign_id yandex_trace
      = Some (Ok offer_ids, tr1) ->
      Market.create_stocks warehouse_id date (Lists watch_remnants offer_ids)
      = Ok (stocks, mem) ->
      Seller.divide stocks 2000 = Ok chunks ->
      for_each (fun some_stock => Market.update_stocks yandex some_stock campaign_id)
               chunks tr1 = Some (Ok tt, tr2) ->
      Market.upload_stocks yandex fuel watch_remnants
                           campaign_id warehouse_id date yandex_trace
      = Some (Ok (filter market_count_not_zero stocks, stocks), tr2)).
Proof.
  split; [|split; [|split]].
  - intros not_empty stocks tr'. unfold Seller.upload_stocks, io_bind, io_lift.
    destruct (Seller.get_offer_ids ozon fuel ozon_trace)
      as [[[ids|e] tr1]|]; try discriminate.
    destruct (Seller.create_stocks _) as [[st mem]|e]; try discriminate.
    destruct (Seller.divide st 100) as [chunks|e]; try discriminate.
    destruct (for_each _ chunks tr1) as [[[[]|e] tr2]|]; try discriminate.
    unfold io_ret. intros [= <- <- _].
    split; [reflexivity|]. split.
    + intros s. rewrite filter_In, negb_true_iff, Z.eqb_neq. reflexivity.
    + intros s _ Hzero Hin. apply filter_In in Hin. destruct Hin as [_ Hin].
      rewrite Hzero in Hin. discriminate.
  - intros not_empty stocks tr'. unfold Market.upload_stocks, io_bind, io_lift.
    destruct (Market.get_offer_ids yandex fuel campaign_id yandex_trace)
      as [[[ids|e] tr1]|]; try discriminate.
    destruct (Market.create_stocks _ _ _) as [[st mem]|e] eqn:Hst;
      try discriminate.
    destruct (Seller.divide st 2000) as [chunks|e]; try discriminate.
    destruct (for_each _ chunks tr1) as [[[[]|e] tr2]|]; try discriminate.
    assert (Hitems := market_stocks_items _ _ _ _ _ Hst).
    rewrite filter_raising_count.
    + unfold io_ret. intros [= <- <- _].
      split; [reflexivity|]. split; [exact Hitems|].
      intros id q. rewrite filter_In. unfold market_count_not_zero. simpl.
      rewrite negb_true_iff, Z.eqb_neq. reflexivity.
    + intros s Hs. destruct (Hitems s Hs) as (id & q & ->). discriminate.
  - intros offer_ids tr1 stocks mem chunks tr2 Hids Hst Hchunks Hloop.
    unfold Seller.upload_stocks, io_bind, io_lift.
    now rewrite Hids, Hst, Hchunks, Hloop.
  - intros offer_ids tr1 stocks mem chunks tr2 Hids Hst Hchunks Hloop.
    unfold Market.upload_stocks, io_bind, io_lift.
    rewrite Hids, Hst, Hchunks, Hloop, filter_raising_count; [reflexivity|].
    intros s Hs. destruct (market_stocks_items _ _ _ _ _ Hst s Hs) as (id & q & ->).
    discriminate.
Qed.

Example upload_stocks_example :
  Seller.upload_stocks (seller_small (Ok tt) (Ok tt)) 3
                       (watch_remnants example_lists) []
  = Some (Ok ([Seller.StockUpdate "GA-100" 100],
              [Seller.StockUpdate "GA-100" 100; Seller.StockUpdate "70212" 0;
               Seller.StockUpdate "B-7" 0]),
          [Seller.ProductList "";
           Seller.UpdateStocks
             [Seller.StockUpdate "GA-100" 100; Seller.StockUpdate "70212" 0;
              Seller.StockUpdate "B-7" 0]])
  /\ Market.upload_stocks (market_small (Ok tt) (Ok tt)) 3
                          (watch_remnants example_lists) "fbs" "wh-1" "now" []
     = Some (Ok ([market_entry "wh-1" "now" "GA-100" 100],
                 [market_entry "wh-1" "now" "GA-100" 100;
                  market_entry "wh-1" "now" "70212" 0;
                  market_entry "wh-1" "now" "B-7" 0]),
             [Market.ProductList "fbs" "";
              Market.UpdateStocks "fbs"
                [market_entry "wh-1" "now" "GA-100" 100;
                 market_entry "wh-1" "now" "70212" 0;
                 market_entry "wh-1" "now" "B-7" 0]]).
Proof. split; reflexivity. Qed.

(** * Further properties *)

(** ** [divide] at its edges *)

(** X1. A chunk size of 0 makes [divide] raise [ValueError] (the step of
    [range]); a negative chunk size yields no chunk at all, whatever the
    list holds. *)
Theorem divide_nonpositive (A : Type) (lst : list A) (n : Z) :
  (n = 0 -> Seller.divide lst n = Raise ValueError)
  /\ (n < 0 -> Seller.divide lst n = Ok []).
Proof.
  unfold Seller.divide, range. split; intros Hn.
  - subst. reflexivity.
  - destruct (Z.eqb_spec n 0) as [?|_]; [lia|].
    destruct (Z.ltb_spec n 0) as [_|?]; [|lia].
    destruct (Z.leb_spec 0 (Z.of_nat (List.length lst))) as [_|?]; [|lia].
    reflexivity.
Qed.

Lemma divide_chunks_facts (A : Type) (lst : list A) (n : Z)
      (chunks : list (list A)) :
  1 <= n ->
  Seller.divide lst n = Ok chunks ->
  List.concat chunks = lst
  /\ (forall c, In c chunks -> 1 <= Z.of_nat (List.length c) <= n).
Proof.
  intros Hn Hdiv. rewrite divide_chunks in Hdiv by assumption.
  injection Hdiv as <-.
  set (len := Z.of_nat (List.length lst)).
  assert (Hcnt : Z.of_nat (range_len 0 len n) = (len + n - 1) / n)
    by (apply range_len_ceil; unfold len; lia).
  assert (Hdm := Z.div_mod (len + n - 1) n ltac:(lia)).
  assert (Hmod := Z.mod_pos_bound (len + n - 1) n ltac:(lia)).
  split.
  - apply concat_chunks. unfold len in *. nia.
  - intros c Hc. apply in_map_iff in Hc. destruct Hc as (k & <- & Hk).
    apply in_seq in Hk. rewrite length_chunk_at.
    assert (Hm : Z.of_nat (Z.to_nat n) = n) by lia.
    revert Hm. generalize (Z.to_nat n). intros m Hm.
    unfold len in *. nia.
Qed.

(** X2. For a chunk size [n >= 1], no chunk of [divide] is empty and none
    is longer than [n]; in particular an empty list gives no chunk. *)
Theorem divide_chunk_bounds (A : Type) (lst : list A) (n : Z)
        (chunks : list (list A)) :
  1 <= n ->
  Seller.divide lst n = Ok chunks ->
  (forall c, In c chunks -> 1 <= Z.of_nat (List.length c) <= n)
  /\ (chunks = [] <-> lst = []).
Proof.
  intros Hn Hdiv.
  destruct (divide_chunks_facts A lst n chunks Hn Hdiv) as [Hconcat Hbounds].
  split; [exact Hbounds|]. split.
  - intros ->. now rewrite <- Hconcat.
  - intros ->. destruct chunks as [|c rest]; [reflexivity|].
    specialize (Hbounds c (or_introl eq_refl)).
    simpl in Hconcat. destruct c; [simpl in Hbounds; lia|discriminate].
Qed.

Lemma divide_chunk_bounds_example :
  (forall c, In c [[1; 2]; [3; 4]; [5]] -> 1 <= Z.of_nat (List.length c) <= 2)
  /\ ([[1; 2]; [3; 4]; [5]] = [] <-> [1; 2; 3; 4; 5] = []).
Proof.
  apply (@divide_chunk_bounds Z [1; 2; 3; 4; 5] 2 [[1; 2]; [3; 4]; [5]]).
  - lia.
  - reflexivity.
Defined.

(** ** [price_conversion] *)

Lemma all_digits_sub_non_digits (s : string) :
  all_digits (sub_non_digits s) = true.
Proof.
  induction s as [|c r IH]; simpl; [reflexivity|].
  destruct (is_digit c) eqn:Hc; simpl; [now rewrite Hc|exact IH].
Qed.

Lemma sub_non_digits_digits (s : string) :
  all_digits s = true -> sub_non_digits s = s.
Proof.
  induction s as [|c r IH]; simpl; [reflexivity|].
  intros H. apply andb_prop in H. destruct H as [Hc Hr].
  now rewrite Hc, (IH Hr).
Qed.

Lemma split_dot_head_digits (s : string) :
  all_digits s = true -> split_dot_head s = s.
Proof.
  induction s as [|c r IH]; simpl; [reflexivity|].
  intros H. apply andb_prop in H. destruct H as [Hc Hr].
  rewrite (IH Hr).
  destruct (Ascii.eqb_spec c "."%char) as [->|_]; [discriminate|reflexivity].
Qed.

(** X3. On any text [price_conversion] returns a text of digits only, and
    converting that result again changes nothing; a price that is no text
    (an integer cell, a missing cell) raises [AttributeError]. *)
Theorem price_conversion_digits_only (s : string) :
  (exists out,
      Seller.price_conversion (PyStr s) = Ok out
      /\ all_digits out = true
      /\ Seller.price_conversion (PyStr out) = Ok out)
  /\ (forall z, Seller.price_conversion (PyInt z) = Raise AttributeError)
  /\ Seller.price_conversion PyNone = Raise AttributeError.
Proof.
  split; [|split; reflexivity].
  exists (sub_non_digits (split_dot_head s)).
  assert (H := all_digits_sub_non_digits (split_dot_head s)).
  split; [reflexivity|]. split; [exact H|].
  unfold Seller.price_conversion.
  now rewrite (split_dot_head_digits _ H), (sub_non_digits_digits _ H).
Qed.

(** ** What [create_prices] emits *)

Section PriceValues.
Context {P : Type} (build : watch -> result P) (f : watch -> P).
Hypothesis build_f : forall w p, build w = Ok p -> p = f w.

Lemma prices_loop_of_map (ws : list watch) :
  forall (prices out : list P) (mem : lists),
    prices_loop_of build ws prices mem = Ok out ->
    out = prices ++ map f (known_records ws (offer_ids mem))
    /\ (forall w, In w (known_records ws (offer_ids mem)) ->
                  build w = Ok (f w)).
Proof.
  induction ws as [|w rest IH]; intros prices out mem; simpl.
  - intros [= <-]. split; [now rewrite app_nil_r|]. intros w [].
  - destruct (contains (str (w_code w)) (offer_ids mem)); [|apply IH].
    destruct (build w) as [p|e] eqn:Hp; simpl; [|discriminate].
    intros H. destruct (IH _ _ _ H) as [-> Hall].
    rewrite <- (build_f _ _ Hp), <- app_assoc. split; [reflexivity|].
    intros w' [<-|Hin]; [now rewrite (build_f _ _ Hp) in Hp|now apply Hall].
Qed.

End PriceValues.

Lemma digit_val_nonneg (c : ascii) : is_digit c = true -> 0 <= digit_val c.
Proof.
  unfold is_digit, digit_val.
  destruct (Nat.leb_spec 48 (nat_of_ascii c)); [|discriminate]. lia.
Qed.

Lemma decimal_value_nonneg (s : string) :
  all_digits s = true -> 0 <= decimal_value s.
Proof.
  induction s as [|c r IH]; simpl; [lia|].
  intros H. apply andb_prop in H. destruct H as [Hc Hr].
  assert (H1 := digit_val_nonneg _ Hc). assert (H2 := IH Hr).
  assert (H3 : 0 < 10 ^ Z.of_nat (String.length r))
    by (apply Z.pow_pos_nonneg; lia).
  nia.
Qed.

Lemma seller_price_value (w : watch) (p : Seller.price_update) :
  seller_price w = Ok p ->
  p = {| Seller.auto_action_enabled := "UNKNOWN";
         Seller.currency_code := "RUB";
         Seller.p_offer_id := str (w_code w);
         Seller.old_price := "0";
         Seller.price := price_digits w |}.
Proof.
  unfold seller_price, price_digits, Seller.price_conversion.
  destruct (w_price w); simpl; [|discriminate|discriminate].
  now intros [= <-].
Qed.

Lemma market_price_value (w : watch) (p : Market.price_update) :
  market_price w = Ok p ->
  p = {| Market.id := str (w_code w);
         Market.price := {| Market.value := decimal_value (price_digits w);
                            Market.currencyId := "RUR" |} |}.
Proof.
  unfold market_price, price_digits, Seller.price_conversion.
  destruct (w_price w) as [s| |]; simpl; [|discriminate|discriminate].
  rewrite (int_of_string_all_digits
             _ (all_digits_sub_non_digits (split_dot_head s))).
  destruct (_ || _); simpl; [discriminate|]. now intros [= <-].
Qed.

Lemma market_price_digits (w : watch) (p : Market.price_update) :
  market_price w = Ok p ->
  price_digits w <> EmptyString /\ 0 <= decimal_value (price_digits w).
Proof.
  unfold market_price, price_digits, Seller.price_conversion.
  destruct (w_price w) as [s| |]; simpl; [|discriminate|discriminate].
  assert (Hd := all_digits_sub_non_digits (split_dot_head s)).
  rewrite (int_of_string_all_digits _ Hd).
  destruct (String.eqb_spec (sub_non_digits (split_dot_head s)) "") as [|Hne];
    simpl; [discriminate|].
  intros _. split; [exact Hne|]. now apply decimal_value_nonneg.
Qed.

(** X4. When [create_prices] of seller.py returns, its list is, record by
    record of the feed with a known code and in that order, the dictionary
    with the constant fields ["UNKNOWN"], ["RUB"], ["0"], the code and, as
    price, the digits that stand before the first ['.'] of the price text;
    every such record has a text as price. *)
Theorem seller_create_prices_values
        (mem : lists) (prices : list Seller.price_update) :
  Seller.create_prices mem = Ok prices ->
  prices
  = map (fun w => {| Seller.auto_action_enabled := "UNKNOWN";
                     Seller.currency_code := "RUB";
                     Seller.p_offer_id := str (w_code w);
                     Seller.old_price := "0";
                     Seller.price := price_digits w |})
        (known_records (watch_remnants mem) (offer_ids mem))
  /\ (forall w, In w (known_records (watch_remnants mem) (offer_ids mem)) ->
                exists s, w_price w = PyStr s).
Proof.
  unfold Seller.create_prices. rewrite seller_prices_loop_shape. intros H.
  destruct (prices_loop_of_map seller_price _ seller_price_value _ _ _ _ H)
    as [-> Hall].
  split; [reflexivity|]. intros w Hw. specialize (Hall w Hw).
  unfold seller_price, Seller.price_conversion in Hall.
  destruct (w_price w); [eauto|discriminate|discriminate].
Qed.

Lemma seller_create_prices_values_example :
  [ {| Seller.auto_action_enabled := "UNKNOWN";
       Seller.currency_code := "RUB";
       Seller.p_offer_id := "GA-100";
       Seller.old_price := "0";
       Seller.price := "5990" |};
    {| Seller.auto_action_enabled := "UNKNOWN";
       Seller.currency_code := "RUB";
       Seller.p_offer_id := "70212";
       Seller.old_price := "0";
       Seller.price := "1200" |} ]
  = map (fun w => {| Seller.auto_action_enabled := "UNKNOWN";
                     Seller.currency_code := "RUB";
                     Seller.p_offer_id := str (w_code w);
                     Seller.old_price := "0";
                     Seller.price := price_digits w |})
        (known_records (watch_remnants example_lists)
                       (offer_ids example_lists))
  /\ (forall w, In w (known_records (watch_remnants example_lists)
                                    (offer_ids example_lists)) ->
                exists s, w_price w = PyStr s).
Proof.
  apply (seller_create_prices_values example_lists). reflexivity.
Defined.

(** X5. When [create_prices] of market.py returns, its list is, record by
    record of the feed with a known code and in that order, the code with
    the price whose [value] is the decimal value of the digits before the
    first ['.'] of the price text and whose currency is ["RUR"]; every such
    record has at least one digit there (a price without one makes the call
    fail), and no value is negative. *)
Theorem market_create_prices_values
        (mem : lists) (prices : list Market.price_update) :
  Market.create_prices mem = Ok prices ->
  prices
  = map (fun w => {| Market.id := str (w_code w);
                     Market.price :=
                       {| Market.value := decimal_value (price_digits w);
                          Market.currencyId := "RUR" |} |})
        (known_records (watch_remnants mem) (offer_ids mem))
  /\ (forall w, In w (known_records (watch_remnants mem) (offer_ids mem)) ->
                price_digits w <> EmptyString
                /\ 0 <= decimal_value (price_digits w)).
Proof.
  unfold Market.create_prices. rewrite market_prices_loop_shape. intros H.
  destruct (prices_loop_of_map market_price _ market_price_value _ _ _ _ H)
    as [-> Hall].
  split; [reflexivity|]. intros w Hw.
  exact (market_price_digits _ _ (Hall w Hw)).
Qed.

Lemma market_create_prices_values_example :
  [ {| Market.id := "GA-100";
       Market.price := {| Market.value := 5990; Market.currencyId := "RUR" |} |};
    {| Market.id := "70212";
       Market.price := {| Market.value := 1200; Market.currencyId := "RUR" |} |} ]
  = map (fun w => {| Market.id := str (w_code w);
                     Market.price :=
                       {| Market.value := decimal_value (price_digits w);
                          Market.currencyId := "RUR" |} |})
        (known_records (watch_remnants example_lists)
                       (offer_ids example_lists))
  /\ (forall w, In w (known_records (watch_remnants example_lists)
                                    (offer_ids example_lists)) ->
                price_digits w <> EmptyString
                /\ 0 <= decimal_value (price_digits w)).
Proof.
  apply (market_create_prices_values example_lists). reflexivity.
Defined.

(** ** Which exceptions the reconcilers raise *)





(** ** Empty inputs *)



(** ** Every known id gets one update *)

Lemma Permutation_remove_first (x : string) (l : list string) :
  contains x l = true -> Permutation l (x :: remove_first x l).
Proof.
  induction l as [|y r IH]; simpl; [discriminate|].
  destruct (String.eqb_spec x y) as [->|Hne]; intros H.
  - apply Permutation_refl.
  - eapply perm_trans; [apply perm_skip, IH, H|apply perm_swap].
Qed.

Section PermutationFacts.
Context {U : Type} (mk : string -> Z -> U) (id_of : U -> string).
Hypothesis id_of_mk : forall id q, id_of (mk id q) = id.

Lemma stocks_loop_of_permutation (ws : list watch) :
  forall (out : list U) (mem mem' : lists),
    stocks_loop_of mk ws [] mem = Ok (out, mem') ->
    Permutation (map id_of out ++ offer_ids mem') (offer_ids mem).
Proof.
  induction ws as [|w rest IH]; intros out mem mem'; simpl.
  - intros [= <- <-]. apply Permutation_refl.
  - destruct (contains (str (w_code w)) (offer_ids mem)) eqn:Hc; [|apply IH].
    destruct (stock_of_count (w_count w)) as [q|e]; simpl; [|discriminate].
    rewrite (remove_contains _ _ Hc). simpl. rewrite stocks_loop_of_acc.
    destruct (stocks_loop_of mk rest [] _) as [[out1 mem1]|e] eqn:Hrest;
      simpl; [|discriminate].
    intros [= <- <-]. simpl. rewrite id_of_mk.
    eapply perm_trans; [apply perm_skip, (IH _ _ _ Hrest)|].
    simpl. apply Permutation_sym, Permutation_remove_first, Hc.
Qed.

Lemma create_stocks_of_permutation (mem mem' : lists) (out : list U) :
  create_stocks_of mk mem = Ok (out, mem') ->
  Permutation (map id_of out) (offer_ids mem).
Proof.
  unfold create_stocks_of.
  destruct (stocks_loop_of mk (watch_remnants mem) [] mem)
    as [[stocks mem1]|e] eqn:Hloop; simpl; [|discriminate].
  intros [= <- _]. rewrite map_app. unfold zero_fill_of. rewrite map_map.
  rewrite (map_ext _ (fun id => id)) by (intros; apply id_of_mk).
  rewrite map_id. eapply stocks_loop_of_permutation; eassumption.
Qed.

End PermutationFacts.

(** X8. Whatever the feed and the list of known ids (duplicates included),
    when [create_stocks] returns, the offer ids of its updates are the known
    ids up to order: each known id gets an update, as many times as it is
    listed, and no other id does; there are as many updates as known ids. *)
Theorem create_stocks_covers_known_ids
        (warehouse_id date : string) (mem ozon_mem yandex_mem : lists)
        (ozon_stocks : list Seller.stock_update)
        (yandex_stocks : list Market.stock_update) :
  Seller.create_stocks mem = Ok (ozon_stocks, ozon_mem) ->
  Market.create_stocks warehouse_id date mem = Ok (yandex_stocks, yandex_mem) ->
  Permutation (map Seller.offer_id ozon_stocks) (offer_ids mem)
  /\ Permutation (map Market.sku yandex_stocks) (offer_ids mem)
  /\ List.length ozon_stocks = List.length (offer_ids mem)
  /\ List.length yandex_stocks = List.length (offer_ids mem).
Proof.
  rewrite seller_create_stocks_shape, market_create_stocks_shape.
  intros Hozon Hyandex.
  assert (H1 := create_stocks_of_permutation
                  Seller.StockUpdate Seller.offer_id (fun _ _ => eq_refl)
                  _ _ _ Hozon).
  assert (H2 := create_stocks_of_permutation
                  (market_entry warehouse_id date) Market.sku
                  (fun _ _ => eq_refl) _ _ _ Hyandex).
  split; [exact H1|]. split; [exact H2|]. split.
  - rewrite <- (Permutation_length H1). now rewrite length_map.
  - rewrite <- (Permutation_length H2). now rewrite length_map.
Qed.

Lemma create_stocks_covers_known_ids_example :
  Permutation
    (map Seller.offer_id
         [Seller.StockUpdate "GA-100" 5; Seller.StockUpdate "GA-100" 0])
    (offer_ids duplicate_lists)
  /\ Permutation
       (map Market.sku [market_entry "wh-1" "now" "GA-100" 5;
                        market_entry "wh-1" "now" "GA-100" 0])
       (offer_ids duplicate_lists)
  /\ List.length [Seller.StockUpdate "GA-100" 5; Seller.StockUpdate "GA-100" 0]
     = List.length (offer_ids duplicate_lists)
  /\ List.length [market_entry "wh-1" "now" "GA-100" 5;
                  market_entry "wh-1" "now" "GA-100" 0]
     = List.length (offer_ids duplicate_lists).
Proof.
  apply (create_stocks_covers_known_ids
           "wh-1" "now" duplicate_lists
           (set_offer_ids ["GA-100"] duplicate_lists)
           (set_offer_ids ["GA-100"] duplicate_lists)).
  - reflexivity.
  - reflexivity.
Defined.

(** ** A code that comes twice in the feed *)

Section RepeatedCode.
Context {U : Type} (mk : string -> Z -> U).

Lemma stocks_loop_of_observed (ws : list watch) :
  forall (stocks : list U) (m1 m2 : lists),
    offer_ids m1 = offer_ids m2 ->
    observed (stocks_loop_of mk ws stocks m1)
    = observed (stocks_loop_of mk ws stocks m2).
Proof.
  induction ws as [|w rest IH]; intros stocks m1 m2 Hids; simpl.
  - now rewrite Hids.
  - rewrite Hids.
    destruct (contains (str (w_code w)) (offer_ids m2)); [|now apply IH].
    destruct (stock_of_count (w_count w)) as [q|e]; simpl; [|reflexivity].
    destruct (remove (str (w_code w)) (offer_ids m2)) as [ids|e]; simpl;
      [|reflexivity].
    now apply IH.
Qed.

Lemma create_stocks_of_observed (m1 m2 : lists) :
  observed (stocks_loop_of mk (watch_remnants m1) [] m1)
  = observed (stocks_loop_of mk (watch_remnants m2) [] m2) ->
  observed (create_stocks_of mk m1) = observed (create_stocks_of mk m2).
Proof.
  unfold create_stocks_of, observed.
  destruct (stocks_loop_of mk (watch_remnants m1) [] m1) as [[s1 r1]|e1];
    destruct (stocks_loop_of mk (watch_remnants m2) [] m2) as [[s2 r2]|e2];
    simpl; intros H; try discriminate; try assumption.
  injection H as -> ->. reflexivity.
Qed.

Lemma stocks_loop_of_repeated_code (pre post : list watch) (w : watch)
      (mem : lists) :
  NoDup (offer_ids mem) ->
  In (str (w_code w)) (codes pre) ->
  stocks_loop_of mk (pre ++ w :: post) [] mem
  = stocks_loop_of mk (pre ++ post) [] mem.
Proof.
  intros Hnd Hin. rewrite !stocks_loop_of_app.
  destruct (stocks_loop_of mk pre [] mem) as [[s1 m1]|e] eqn:Hpre; simpl;
    [|reflexivity].
  destruct (stocks_loop_of_lists mk _ _ _ _ _ Hpre) as [_ Hids].
  rewrite consume_NoDup in Hids by assumption.
  assert (Hc : contains (str (w_code w)) (offer_ids m1) = false).
  { apply contains_false_In. rewrite Hids. intros H.
    apply filter_In in H. destruct H as [_ H].
    apply negb_true_iff, contains_false_In in H. contradiction. }
  now rewrite Hc.
Qed.

End RepeatedCode.

(** X9. On a list of known ids without duplicates, a feed record whose code
    already came earlier in the feed has no effect on [create_stocks]: the
    updates, the ids left and the exception are those of the feed without
    that record, so the quantity of a code is that of its first record and
    a later one is not even read. *)
Theorem create_stocks_ignores_repeated_code
        (warehouse_id date : string) (pre post : list watch) (w : watch)
        (ids : list string) :
  NoDup ids ->
  In (str (w_code w)) (codes pre) ->
  observed (Seller.create_stocks (Lists (pre ++ w :: post) ids))
  = observed (Seller.create_stocks (Lists (pre ++ post) ids))
  /\ observed (Market.create_stocks warehouse_id date
                                    (Lists (pre ++ w :: post) ids))
     = observed (Market.create_stocks warehouse_id date
                                      (Lists (pre ++ post) ids)).
Proof.
  intros Hnd Hin.
  rewrite !seller_create_stocks_shape, !market_create_stocks_shape.
  split; apply create_stocks_of_observed; simpl watch_remnants.
  - rewrite stocks_loop_of_repeated_code by assumption.
    now apply stocks_loop_of_observed.
  - rewrite stocks_loop_of_repeated_code by assumption.
    now apply stocks_loop_of_observed.
Qed.

Lemma create_stocks_ignores_repeated_code_example :
  observed (Seller.create_stocks (Lists repeated_code_feed ["GA-100"; "B-7"]))
  = observed (Seller.create_stocks
                (Lists (firstn 2 repeated_code_feed) ["GA-100"; "B-7"]))
  /\ observed (Market.create_stocks "wh-1" "now"
                 (Lists repeated_code_feed ["GA-100"; "B-7"]))
     = observed (Market.create_stocks "wh-1" "now"
                   (Lists (firstn 2 repeated_code_feed) ["GA-100"; "B-7"])).
Proof.
  apply (create_stocks_ignores_repeated_code
           "wh-1" "now" (firstn 2 repeated_code_feed) []
           (Watch (PyStr "GA-100") (PyStr "нет") PyNone) ["GA-100"; "B-7"]).
  - repeat constructor; simpl; intuition discriminate.
  - simpl. auto.
Defined.

(** ** What the offer enumerators return *)

Lemma seller_offers_loop_exact (world : Seller.api) (n0 : nat) :
  forall (d j : nat) (last_id : string) (product_list : list Seller.product)
         (tr : list Seller.call)
         (last_id' : string) (product_list' : list Seller.product)
         (page : Seller.product_page),
    seller_pages world n0 j = Some (last_id, product_list) ->
    List.length tr = (n0 + j)%nat ->
    (forall i, (j <= i < j + d)%nat -> ~ seller_stops_at world n0 i) ->
    seller_pages world n0 (j + d) = Some (last_id', product_list') ->
    Seller.product_list_answer world (n0 + (j + d)) last_id' = Ok page ->
    Seller.total page
    = Z.of_nat (List.length (product_list' ++ Seller.items page)) ->
    forall fuel, (d < fuel)%nat ->
      Seller.offers_loop world fuel last_id product_list tr
      = Some (Ok (product_list' ++ Seller.items page),
              tr ++ map (fun i => match seller_pages world n0 i with
                                  | Some (l, _) => Seller.ProductList l
                                  | None => Seller.ProductList ""
                                  end)
                        (seq j (S d))).
Proof.
  induction d as [|d IH];
    intros j last_id product_list tr last_id' product_list' page
           Hpages Hlen Hnot Hlast Hans Htotal fuel Hfuel.
  - rewrite Nat.add_0_r in Hlast, Hans. rewrite Hpages in Hlast.
    injection Hlast as <- <-.
    destruct fuel as [|fuel]; [lia|]. simpl.
    unfold io_bind, Seller.get_product_list, io_call.
    rewrite Hlen, Hans, Htotal, Z.eqb_refl, Hpages. reflexivity.
  - assert (Hj := Hnot j ltac:(lia)). unfold seller_stops_at in Hj.
    rewrite Hpages in Hj.
    destruct (Seller.product_list_answer world (n0 + j) last_id)
      as [p|e] eqn:Hp; [|exfalso; apply Hj; exact I].
    apply Z.eqb_neq in Hj.
    destruct fuel as [|fuel]; [lia|]. cbn [Seller.offers_loop].
    unfold io_bind, Seller.get_product_list, io_call at 1.
    rewrite Hlen, Hp, Hj.
    rewrite (IH (S j) (Seller.last_id p) (product_list ++ Seller.items p)
                (tr ++ [Seller.ProductList last_id])
                last_id' product_list' page).
    + change (seq j (S (S d))) with (j :: seq (S j) (S d)). cbn [map].
      rewrite Hpages, <- app_assoc. reflexivity.
    + simpl. now rewrite Hpages, Hp.
    + rewrite length_app. simpl. lia.
    + intros i Hi. apply Hnot. lia.
    + now replace (S j + d)%nat with (j + S d)%nat by lia.
    + now replace (S j + d)%nat with (j + S d)%nat by lia.
    + exact Htotal.
    + lia.
Qed.

(** X10. If page [k] is the first at which the number of products gathered
    equals the advertised total, and no call raised, [get_offer_ids] of
    seller.py, given more fuel than [k], returns the offer ids of the
    products of pages 0 to [k] in the order received, after exactly [k + 1]
    listing calls, the first with an empty [last_id] and each next one with
    the [last_id] of the page before. *)
Theorem seller_get_offer_ids_result
        (world : Seller.api) (tr : list Seller.call) (k fuel : nat)
        (last_id : string) (product_list : list Seller.product)
        (page : Seller.product_page) :
  seller_pages world (List.length tr) k = Some (last_id, product_list) ->
  (forall i, (i < k)%nat -> ~ seller_stops_at world (List.length tr) i) ->
  Seller.product_list_answer world (List.length tr + k) last_id = Ok page ->
  Seller.total page
  = Z.of_nat (List.length (product_list ++ Seller.items page)) ->
  (k < fuel)%nat ->
  Seller.get_offer_ids world fuel tr
  = Some (Ok (map Seller.prod_offer_id (product_list ++ Seller.items page)),
          tr ++ seller_requests world (List.length tr) (S k)).
Proof.
  intros Hpages Hnot Hans Htotal Hfuel.
  unfold Seller.get_offer_ids, io_bind.
  rewrite (seller_offers_loop_exact world (List.length tr) k 0 "" [] tr
             last_id product_list page);
    auto; try reflexivity; try lia.
  intros i Hi. apply Hnot. lia.
Qed.

Lemma seller_get_offer_ids_result_example :
  Seller.get_offer_ids seller_full_pages 3 []
  = Some (Ok (map Seller.prod_offer_id
                  (map Seller.Product (numbered 0 1000)
                   ++ Seller.items
                        {| Seller.items := map Seller.Product (numbered 1000 1000);
                           Seller.total := 2000;
                           Seller.last_id := "2" |})),
          [] ++ seller_requests seller_full_pages (List.length (@nil Seller.call)) 2).
Proof.
  apply (seller_get_offer_ids_result
           seller_full_pages [] 1 3 "1"
           (map Seller.Product (numbered 0 1000))
           {| Seller.items := map Seller.Product (numbered 1000 1000);
              Seller.total := 2000;
              Seller.last_id := "2" |}).
  - vm_compute. reflexivity.
  - intros i Hi. assert (i = 0)%nat by lia. subst i.
    vm_compute. discriminate.
  - vm_compute. reflexivity.
  - vm_compute. reflexivity.
  - lia.
Defined.

Lemma market_offers_loop_exact (world : Market.api) (campaign_id : string)
      (n0 : nat) :
  forall (d j : nat) (page : string) (product_list : list Market.entry)
         (tr : list Market.call)
         (page' : string) (product_list' : list Market.entry)
         (some_prod : Market.entries_page),
    market_pages world campaign_id n0 j = Some (page, product_list) ->
    List.length tr = (n0 + j)%nat ->
    (forall i, (j <= i < j + d)%nat ->
               ~ market_stops_at world campaign_id n0 i) ->
    market_pages world campaign_id n0 (j + d) = Some (page', product_list') ->
    Market.product_list_answer world (n0 + (j + d)) campaign_id page'
    = Ok some_prod ->
    Market.nextPageToken some_prod = None
    \/ Market.nextPageToken some_prod = Some "" ->
    forall fuel, (d < fuel)%nat ->
      Market.offers_loop world fuel campaign_id page product_list tr
      = Some (Ok (product_list' ++ Market.offerMappingEntries some_prod),
              tr ++ map (fun i =>
                           match market_pages world campaign_id n0 i with
                           | Some (p, _) => Market.ProductList campaign_id p
                           | None => Market.ProductList campaign_id ""
                           end)
                        (seq j (S d))).
Proof.
  induction d as [|d IH];
    intros j page product_list tr page' product_list' some_prod
           Hpages Hlen Hnot Hlast Hans Hend fuel Hfuel.
  - rewrite Nat.add_0_r in Hlast, Hans. rewrite Hpages in Hlast.
    injection Hlast as <- <-.
    destruct fuel as [|fuel]; [lia|]. cbn [Market.offers_loop seq map].
    unfold io_bind, Market.get_product_list, io_call.
    rewrite Hlen, Hans, Hpages. destruct Hend as [-> | ->]; reflexivity.
  - assert (Hj := Hnot j ltac:(lia)). unfold market_stops_at in Hj.
    rewrite Hpages in Hj.
    destruct (Market.product_list_answer world (n0 + j) campaign_id page)
      as [p|e] eqn:Hp; [|exfalso; apply Hj; exact I].
    destruct (Market.nextPageToken p) as [next|] eqn:Hnext;
      [|exfalso; apply Hj; now left].
    destruct (String.eqb_spec next "") as [->|Hne];
      [exfalso; apply Hj; now right|].
    destruct fuel as [|fuel]; [lia|]. cbn [Market.offers_loop].
    unfold io_bind, Market.get_product_list, io_call at 1.
    rewrite Hlen, Hp, Hnext.
    destruct (String.eqb_spec next "") as [?|_]; [contradiction|].
    rewrite (IH (S j) next (product_list ++ Market.offerMappingEntries p)
                (tr ++ [Market.ProductList campaign_id page])
                page' product_list' some_prod).
    + change (seq j (S (S d))) with (j :: seq (S j) (S d)). cbn [map].
      rewrite Hpages, <- app_assoc. reflexivity.
    + simpl. now rewrite Hpages, Hp, Hnext.
    + rewrite length_app. simpl. lia.
    + intros i Hi. apply Hnot. lia.
    + now replace (S j + d)%nat with (j + S d)%nat by lia.
    + now replace (S j + d)%nat with (j + S d)%nat by lia.
    + exact Hend.
    + lia.
Qed.

(** X11. If page [k] is the first whose token is absent or empty, and no
    call raised, [get_offer_ids] of market.py, given more fuel than [k],
    returns the [shopSku] of the entries of pages 0 to [k] in the order
    received, after exactly [k + 1] listing calls for that campaign, the
    first with an empty page token and each next one with the token of the
    page before. *)
Theorem market_get_offer_ids_result
        (world : Market.api) (campaign_id : string) (tr : list Market.call)
        (k fuel : nat) (page : string) (product_list : list Market.entry)
        (some_prod : Market.entries_page) :
  market_pages world campaign_id (List.length tr) k
  = Some (page, product_list) ->
  (forall i, (i < k)%nat ->
             ~ market_stops_at world campaign_id (List.length tr) i) ->
  Market.product_list_answer world (List.length tr + k) campaign_id page
  = Ok some_prod ->
  Market.nextPageToken some_prod = None
  \/ Market.nextPageToken some_prod = Some "" ->
  (k < fuel)%nat ->
  Market.get_offer_ids world fuel campaign_id tr
  = Some (Ok (map Market.shopSku
                  (product_list ++ Market.offerMappingEntries some_prod)),
          tr ++ market_requests world campaign_id (List.length tr) (S k)).
Proof.
  intros Hpages Hnot Hans Hend Hfuel.
  unfold Market.get_offer_ids, io_bind.
  rewrite (market_offers_loop_exact world campaign_id (List.length tr)
             k 0 "" [] tr page product_list some_prod);
    auto; try reflexivity; try lia.
  intros i Hi. apply Hnot. lia.
Qed.

Lemma market_get_offer_ids_result_example :
  Market.get_offer_ids market_full_pages 3 "fbs" []
  = Some (Ok (map Market.shopSku
                  (map Market.Entry (numbered 0 200)
                   ++ Market.offerMappingEntries
                        {| Market.offerMappingEntries :=
                             map Market.Entry (numbered 200 200);
                           Market.nextPageToken := Some "" |})),
          [] ++ market_requests market_full_pages "fbs"
                                (List.length (@nil Market.call)) 2).
Proof.
  apply (market_get_offer_ids_result
           market_full_pages "fbs" [] 1 3 "page-2"
           (map Market.Entry (numbered 0 200))
           {| Market.offerMappingEntries := map Market.Entry (numbered 200 200);
              Market.nextPageToken := Some "" |}).
  - vm_compute. reflexivity.
  - intros i Hi. assert (i = 0)%nat by lia. subst i.
    vm_compute. intros [H|H]; discriminate.
  - vm_compute. reflexivity.
  - right. reflexivity.
  - lia.
Defined.

(** ** When no page ends the loop *)

Lemma seller_never_stops (world : Seller.api) (n0 : nat) :
  (forall k, ~ seller_stops_at world n0 k) ->
  forall k, exists last_id product_list page,
    seller_pages world n0 k = Some (last_id, product_list)
    /\ Seller.product_list_answer world (n0 + k) last_id = Ok page
    /\ (Seller.total page
        =? Z.of_nat (List.length (product_list ++ Seller.items page))) = false.
Proof.
  intros Hnot.
  assert (Hstep : forall k last_id product_list,
             seller_pages world n0 k = Some (last_id, product_list) ->
             exists page,
               Seller.product_list_answer world (n0 + k) last_id = Ok page
               /\ (Seller.total page
                   =? Z.of_nat (List.length (product_list ++ Seller.items page)))
                  = false).
  { intros k last_id product_list Hk. specialize (Hnot k).
    unfold seller_stops_at in Hnot. rewrite Hk in Hnot.
    destruct (Seller.product_list_answer world (n0 + k) last_id) as [page|e];
      [|exfalso; apply Hnot; exact I].
    exists page. split; [reflexivity|]. now apply Z.eqb_neq. }
  induction k as [|k IH].
  - destruct (Hstep 0%nat "" [] eq_refl) as (page & Hans & Hneq).
    exists "", [], page. auto.
  - destruct IH as (last_id & product_list & page & Hk & Hans & _).
    assert (HSk : seller_pages world n0 (S k)
                  = Some (Seller.last_id page,
                          product_list ++ Seller.items page))
      by (simpl; now rewrite Hk, Hans).
    destruct (Hstep _ _ _ HSk) as (page' & Hans' & Hneq').
    eauto 6.
Qed.

Lemma seller_offers_loop_none (world : Seller.api) (n0 : nat) :
  (forall k, ~ seller_stops_at world n0 k) ->
  forall (fuel j : nat) (last_id : string)
         (product_list : list Seller.product) (tr : list Seller.call),
    seller_pages world n0 j = Some (last_id, product_list) ->
    List.length tr = (n0 + j)%nat ->
    Seller.offers_loop world fuel last_id product_list tr = None.
Proof.
  intros Hnot. induction fuel as [|fuel IH];
    intros j last_id product_list tr Hpages Hlen; [reflexivity|].
  destruct (seller_never_stops world n0 Hnot j)
    as (last_id0 & product_list0 & page & Hj & Hans & Hneq).
  rewrite Hpages in Hj. injection Hj as <- <-.
  cbn [Seller.offers_loop].
  unfold io_bind, Seller.get_product_list, io_call at 1.
  rewrite Hlen, Hans, Hneq.
  apply (IH (S j)).
  - simpl. now rewrite Hpages, Hans.
  - rewrite length_app. simpl. lia.
Qed.

Lemma market_never_stops (world : Market.api) (campaign_id : string)
      (n0 : nat) :
  (forall k, ~ market_stops_at world campaign_id n0 k) ->
  forall k, exists page product_list some_prod next,
    market_pages world campaign_id n0 k = Some (page, product_list)
    /\ Market.product_list_answer world (n0 + k) campaign_id page
       = Ok some_prod
    /\ Market.nextPageToken some_prod = Some next
    /\ String.eqb next "" = false.
Proof.
  intros Hnot.
  assert (Hstep : forall k page product_list,
             market_pages world campaign_id n0 k = Some (page, product_list) ->
             exists some_prod next,
               Market.product_list_answer world (n0 + k) campaign_id page
               = Ok some_prod
               /\ Market.nextPageToken some_prod = Some next
               /\ String.eqb next "" = false).
  { intros k page product_list Hk. specialize (Hnot k).
    unfold market_stops_at in Hnot. rewrite Hk in Hnot.
    destruct (Market.product_list_answer world (n0 + k) campaign_id page)
      as [some_prod|e]; [|exfalso; apply Hnot; exact I].
    destruct (Market.nextPageToken some_prod) as [next|] eqn:Hnext;
      [|exfalso; apply Hnot; now left].
    exists some_prod, next. split; [reflexivity|]. split; [exact Hnext|].
    destruct (String.eqb_spec next "") as [->|_]; [|reflexivity].
    exfalso. apply Hnot. now right. }
  induction k as [|k IH].
  - destruct (Hstep 0%nat "" [] eq_refl) as (some_prod & next & H).
    exists "", [], some_prod, next. auto.
  - destruct IH as (page & product_list & some_prod & next
                    & Hk & Hans & Hnext & _).
    assert (HSk : market_pages world campaign_id n0 (S k)
                  = Some (next,
                          product_list ++ Market.offerMappingEntries some_prod))
      by (simpl; now rewrite Hk, Hans, Hnext).
    destruct (Hstep _ _ _ HSk) as (some_prod' & next' & H').
    eauto 8.
Qed.

Lemma market_offers_loop_none (world : Market.api) (campaign_id : string)
      (n0 : nat) :
  (forall k, ~ market_stops_at world campaign_id n0 k) ->
  forall (fuel j : nat) (page : string)
         (product_list : list Market.entry) (tr : list Market.call),
    market_pages world campaign_id n0 j = Some (page, product_list) ->
    List.length tr = (n0 + j)%nat ->
    Market.offers_loop world fuel campaign_id page product_list tr = None.
Proof.
  intros Hnot. induction fuel as [|fuel IH];
    intros j page product_list tr Hpages Hlen; [reflexivity|].
  destruct (market_never_stops world campaign_id n0 Hnot j)
    as (page0 & product_list0 & some_prod & next & Hj & Hans & Hnext & Hne).
  rewrite Hpages in Hj. injection Hj as <- <-.
  cbn [Market.offers_loop].
  unfold io_bind, Market.get_product_list, io_call at 1.
  rewrite Hlen, Hans, Hnext, Hne.
  apply (IH (S j)).
  - simpl. now rewrite Hpages, Hans, Hnext.
  - rewrite length_app. simpl. lia.
Qed.

(** X12. If no page ever ends the loop (Ozon: the number of products
    gathered never equals the advertised total, for instance because it
    steps over it; Yandex: every page carries a non-empty token) and no call
    raises, [get_offer_ids] never returns: it runs out of every fuel. *)
Theorem offer_enumerators_diverge
        (ozon : Seller.api) (yandex : Market.api) (campaign_id : string)
        (ozon_trace : list Seller.call) (yandex_trace : list Market.call)
        (fuel : nat) :
  (forall k, ~ seller_stops_at ozon (List.length ozon_trace) k) ->
  (forall k, ~ market_stops_at yandex campaign_id
                               (List.length yandex_trace) k) ->
  Seller.get_offer_ids ozon fuel ozon_trace = None
  /\ Market.get_offer_ids yandex fuel campaign_id yandex_trace = None.
Proof.
  intros Hozon Hyandex. split.
  - unfold Seller.get_offer_ids, io_bind.
    rewrite (seller_offers_loop_none ozon _ Hozon fuel 0 "" [] ozon_trace);
      [reflexivity|reflexivity|lia].
  - unfold Market.get_offer_ids, io_bind.
    rewrite (market_offers_loop_none yandex campaign_id _ Hyandex
               fuel 0 "" [] yandex_trace);
      [reflexivity|reflexivity|lia].
Qed.

Lemma seller_overshooting_never_stops (k : nat) :
  ~ seller_stops_at seller_overshooting 0 k.
Proof.
  assert (Hpages : forall j, exists last_id product_list,
             seller_pages seller_overshooting 0 j = Some (last_id, product_list)
             /\ List.length product_list = (2 * j)%nat).
  { induction j as [|j (last_id & product_list & Hj & Hlen)].
    - exists "", []. split; reflexivity.
    - eexists _, _. cbn [seller_pages]. rewrite Hj.
      cbn [seller_overshooting Seller.product_list_answer
           Seller.last_id Seller.items].
      split; [reflexivity|].
      rewrite length_app, Hlen. unfold numbered.
      rewrite !length_map, length_seq. lia. }
  destruct (Hpages k) as (last_id & product_list & Hk & Hlen).
  unfold seller_stops_at. rewrite Hk.
  cbn [seller_overshooting Seller.product_list_answer
       Seller.total Seller.items].
  rewrite length_app, Hlen. unfold numbered.
  rewrite !length_map, length_seq. lia.
Qed.

Lemma market_endless_never_stops (k : nat) :
  ~ market_stops_at market_endless "fbs" 0 k.
Proof.
  assert (Hpages : forall j, exists page product_list,
             market_pages market_endless "fbs" 0 j
             = Some (page, product_list)).
  { induction j as [|j (page & product_list & Hj)].
    - exists "", []. reflexivity.
    - eexists _, _. cbn [market_pages]. rewrite Hj. reflexivity. }
  destruct (Hpages k) as (page & product_list & Hk).
  unfold market_stops_at. rewrite Hk.
  cbn [market_endless Market.product_list_answer Market.nextPageToken].
  intros [H|H]; discriminate.
Qed.

Lemma offer_enumerators_diverge_example :
  Seller.get_offer_ids seller_overshooting 50 [] = None
  /\ Market.get_offer_ids market_endless 50 "fbs" [] = None.
Proof.
  apply (offer_enumerators_diverge
           seller_overshooting market_endless "fbs" [] [] 50).
  - exact seller_overshooting_never_stops.
  - exact market_endless_never_stops.
Defined.

(** ** Which calls a computation issues *)

Section IssuesNone.
Context {C : Type} (sel : C -> bool).

Lemma issues_none_ret {A : Type} (a : A) : issues_none sel (@io_ret C A a).
Proof. intros tr r tr' [= _ <-]. reflexivity. Qed.

Lemma issues_none_lift {A : Type} (x : result A) :
  issues_none sel (@io_lift C A x).
Proof. intros tr r tr' [= _ <-]. reflexivity. Qed.

Lemma issues_none_bind {A B : Type} (m : io C A) (k : A -> io C B) :
  issues_none sel m -> (forall a, issues_none sel (k a)) ->
  issues_none sel (io_bind m k).
Proof.
  intros Hm Hk tr r tr'. unfold io_bind.
  destruct (m tr) as [[[a|e] tr1]|] eqn:Hrun; [| |discriminate].
  - intros H. rewrite (Hk a _ _ _ H). eapply Hm; eassumption.
  - intros [= <- <-]. eapply Hm; eassumption.
Qed.

Lemma issues_none_call {A : Type} (c : C) (answer : nat -> result A) :
  sel c = false -> issues_none sel (io_call c answer).
Proof.
  intros Hc tr r tr' [= _ <-]. rewrite filter_app. simpl. rewrite Hc.
  apply app_nil_r.
Qed.

Lemma issues_none_for_each {X : Type} (body : X -> io C unit) (xs : list X) :
  (forall x, issues_none sel (body x)) -> issues_none sel (for_each body xs).
Proof.
  intros Hbody. induction xs as [|x rest IH]; simpl.
  - apply issues_none_ret.
  - apply issues_none_bind; [apply Hbody|intros _; exact IH].
Qed.

End IssuesNone.

Lemma seller_offers_loop_issues (sel : Seller.call -> bool)
      (world : Seller.api) :
  (forall last_id, sel (Seller.ProductList last_id) = false) ->
  forall fuel last_id product_list,
    issues_none sel (Seller.offers_loop world fuel last_id product_list).
Proof.
  intros Hsel. induction fuel as [|fuel IH]; intros last_id product_list.
  - intros tr r tr'. discriminate.
  - cbn [Seller.offers_loop]. apply issues_none_bind.
    + apply issues_none_call, Hsel.
    + intros page. destruct (_ =? _); [apply issues_none_ret|apply IH].
Qed.

Lemma seller_get_offer_ids_issues (sel : Seller.call -> bool)
      (world : Seller.api) (fuel : nat) :
  (forall last_id, sel (Seller.ProductList last_id) = false) ->
  issues_none sel (Seller.get_offer_ids world fuel).
Proof.
  intros Hsel. apply issues_none_bind.
  - now apply seller_offers_loop_issues.
  - intros products. apply issues_none_ret.
Qed.

Lemma market_offers_loop_issues (sel : Market.call -> bool)
      (world : Market.api) (campaign_id : string) :
  (forall page, sel (Market.ProductList campaign_id page) = false) ->
  forall fuel page product_list,
    issues_none sel (Market.offers_loop world fuel campaign_id page product_list).
Proof.
  intros Hsel. induction fuel as [|fuel IH]; intros page product_list.
  - intros tr r tr'. discriminate.
  - cbn [Market.offers_loop]. apply issues_none_bind.
    + apply issues_none_call, Hsel.
    + intros some_prod. destruct (Market.nextPageToken some_prod) as [next|];
        [|apply issues_none_ret].
      destruct (String.eqb next ""); [apply issues_none_ret|apply IH].
Qed.

Lemma market_main_campaign_issues (world : Market.api) (fuel : nat)
      (watch_remnants : list watch) (campaign_id warehouse_id date : string) :
  issues_none market_price_call
              (Market.main_campaign world fuel watch_remnants
                                    campaign_id warehouse_id date).
Proof.
  unfold Market.main_campaign. apply issues_none_bind.
  - apply issues_none_bind.
    + now apply market_offers_loop_issues.
    + intros products. apply issues_none_ret.
  - intros offer_ids. apply issues_none_bind; [apply issues_none_lift|].
    intros [stocks mem]. apply issues_none_bind; [apply issues_none_lift|].
    intros chunks. apply issues_none_for_each. intros chunk.
    now apply issues_none_call.
Qed.

(** X13. [main] of market.py never uploads a price: whatever the worlds
    answers and however the run ends, the trace of calls it leaves holds no
    price upload that was not there before.  (It calls the [async]
    [upload_prices] without awaiting it.) *)
Theorem market_main_uploads_no_price
        (world : Market.api) (fuel : nat)
        (campaign_fbs_id campaign_dbs_id warehouse_fbs_id warehouse_dbs_id
         date_fbs date_dbs : string)
        (tr tr' : list Market.call) (r : result (list message)) :
  Market.main world fuel campaign_fbs_id campaign_dbs_id
              warehouse_fbs_id warehouse_dbs_id date_fbs date_dbs tr
  = Some (r, tr') ->
  filter market_price_call tr' = filter market_price_call tr.
Proof.
  unfold Market.main.
  assert (Hdl : issues_none market_price_call (Market.download_stock world))
    by now apply issues_none_call.
  destruct (Market.download_stock world tr) as [[[feed|e] tr1]|] eqn:Hrun;
    [| |discriminate].
  - assert (Hcamp : issues_none market_price_call
                      (_ <~ Market.main_campaign world fuel feed campaign_fbs_id
                                                 warehouse_fbs_id date_fbs ;;
                       Market.main_campaign world fuel feed campaign_dbs_id
                                            warehouse_dbs_id date_dbs)).
    { apply issues_none_bind; [|intros _];
        apply market_main_campaign_issues. }
    destruct (io_bind _ _ tr1) as [[[[]|e] tr2]|] eqn:Hrun2; [| |discriminate].
    + intros [= _ <-]. rewrite (Hcamp _ _ _ Hrun2). eapply Hdl; eassumption.
    + intros [= _ <-]. rewrite (Hcamp _ _ _ Hrun2). eapply Hdl; eassumption.
  - intros [= _ <-]. eapply Hdl; eassumption.
Qed.

Lemma market_main_uploads_no_price_example :
  filter market_price_call
         [Market.DownloadStock;
          Market.ProductList "fbs" "";
          Market.UpdateStocks "fbs"
            [market_entry "wf" "d1" "GA-100" 100;
             market_entry "wf" "d1" "70212" 0;
             market_entry "wf" "d1" "B-7" 0];
          Market.ProductList "dbs" "";
          Market.UpdateStocks "dbs"
            [market_entry "wd" "d2" "GA-100" 100;
             market_entry "wd" "d2" "70212" 0;
             market_entry "wd" "d2" "B-7" 0]]
  = filter market_price_call [].
Proof.
  apply (market_main_uploads_no_price
           (market_small (Ok tt) (Ok tt)) 3 "fbs" "dbs" "wf" "wd" "d1" "d2"
           [] _ (Ok [])).
  reflexivity.
Defined.

Lemma seller_no_price_after_stocks (mem mem' : lists)
      (stocks : list Seller.stock_update) :
  NoDup (offer_ids mem) ->
  Seller.create_stocks mem = Ok (stocks, mem') ->
  Seller.create_prices mem' = Ok [].
Proof.
  intros Hnd Hstocks.
  assert (H := create_stocks_of_lists Seller.StockUpdate mem Hnd).
  rewrite <- seller_create_stocks_shape, Hstocks in H.
  destruct H as (Hfeed & _ & Hids).
  unfold Seller.create_prices. rewrite seller_prices_loop_shape, Hfeed.
  apply prices_loop_of_none. intros w Hw Hin.
  apply Hids in Hin. destruct Hin as [_ Hno]. apply Hno.
  unfold codes. now apply (in_map (fun w => str (w_code w))).
Qed.

(** X14. When the ids that [get_offer_ids] returns are pairwise different,
    [main] of seller.py never uploads a price, however the run ends: the
    list it hands to [create_prices] was emptied of every code of the feed
    by [create_stocks], so the price loop has no chunk to send. *)
Theorem seller_main_uploads_no_price
        (world : Seller.api) (fuel : nat) (tr tr' : list Seller.call)
        (printed : list message) :
  (forall ids tr1,
      Seller.get_offer_ids world fuel tr = Some (Ok ids, tr1) ->
      NoDup ids) ->
  Seller.main world fuel tr = Some (printed, tr') ->
  filter seller_price_call tr' = filter seller_price_call tr.
Proof.
  intros Hnd. unfold Seller.main.
  assert (Hbody : forall r, Seller.main_body world fuel tr = Some (r, tr') ->
                            filter seller_price_call tr'
                            = filter seller_price_call tr).
  { intros r. unfold Seller.main_body, io_bind.
    destruct (Seller.get_offer_ids world fuel tr)
      as [[[ids|e] tr1]|] eqn:Hids; [| |discriminate].
    - assert (H1 := seller_get_offer_ids_issues seller_price_call world fuel
                      (fun _ => eq_refl) _ _ _ Hids).
      specialize (Hnd _ _ eq_refl).
      unfold Seller.download_stock, io_call at 1.
      assert (H2 : filter seller_price_call (tr1 ++ [Seller.DownloadStock])
                   = filter seller_price_call tr).
      { rewrite filter_app. simpl. now rewrite app_nil_r. }
      destruct (Seller.download_answer world (List.length tr1)) as [feed|e];
        [|now intros [= _ <-]].
      unfold io_lift.
      destruct (Seller.create_stocks _) as [[stocks mem]|e] eqn:Hstocks;
        [|now intros [= _ <-]].
      destruct (Seller.divide stocks 100) as [chunks|e];
        [|now intros [= _ <-]].
      assert (Hloop : issues_none seller_price_call
                        (for_each (Seller.update_stocks world) chunks)).
      { apply issues_none_for_each. intros chunk. now apply issues_none_call. }
      destruct (for_each _ chunks _) as [[[[]|e] tr2]|] eqn:Hrun;
        [| |discriminate].
      + rewrite (seller_no_price_after_stocks (Lists feed ids) mem stocks
                   Hnd Hstocks).
        change (Seller.divide (@nil Seller.price_update) 900) with
          (@Ok (list (list Seller.price_update)) []).
        simpl. unfold io_ret. intros [= _ <-].
        now rewrite (Hloop _ _ _ Hrun).
      + intros [= _ <-]. now rewrite (Hloop _ _ _ Hrun).
    - intros [= _ <-].
      exact (seller_get_offer_ids_issues seller_price_call world fuel
               (fun _ => eq_refl) _ _ _ Hids). }
  destruct (Seller.main_body world fuel tr) as [[[[]|e] tr2]|];
    [| |discriminate]; intros [= _ <-]; eapply Hbody; reflexivity.
Qed.

Lemma seller_main_uploads_no_price_example :
  filter seller_price_call
         [Seller.ProductList ""; Seller.DownloadStock;
          Seller.UpdateStocks
            [Seller.StockUpdate "GA-100" 100; Seller.StockUpdate "70212" 0;
             Seller.StockUpdate "B-7" 0]]
  = filter seller_price_call [].
Proof.
  apply (seller_main_uploads_no_price (seller_small (Ok tt) (Ok tt)) 3 [] _ []).
  - intros ids tr1 [= <- _].
    repeat constructor; simpl; intuition discriminate.
  - reflexivity.
Defined.

(** ** What reaches the marketplace *)

Lemma for_each_calls_ok {C X : Type} (mk : X -> C)
      (answer : nat -> X -> result unit) (xs : list X) (tr tr' : list C) :
  for_each (fun x => io_call (mk x) (fun n => answer n x)) xs tr
  = Some (Ok tt, tr') ->
  tr' = tr ++ map mk xs.
Proof.
  rewrite for_each_calls.
  destruct (first_failure answer (List.length tr) xs) as [[j e]|];
    [discriminate|]. now intros [= <-].
Qed.

(** X15. When [upload_stocks] of seller.py returns, what it sent after the
    listing is the list of updates cut in order into batches of at most 100,
    none of them empty: every update was uploaded exactly once.  When
    [upload_prices] returns, the same holds for the prices with batches of
    at most 1000.  Each of the two is stated by itself: one may return on a
    feed on which the other fails. *)
Theorem seller_uploads_every_entry_once
        (world : Seller.api) (fuel : nat) (watch_remnants : list watch)
        (tr : list Seller.call) :
  (forall (not_empty stocks : list Seller.stock_update)
          (tr_stocks : list Seller.call),
      Seller.upload_stocks world fuel watch_remnants tr
      = Some (Ok (not_empty, stocks), tr_stocks) ->
      exists ids tr1 chunks,
        Seller.get_offer_ids world fuel tr = Some (Ok ids, tr1)
        /\ tr_stocks = tr1 ++ map Seller.UpdateStocks chunks
        /\ List.concat chunks = stocks
        /\ (forall c, In c chunks -> 1 <= Z.of_nat (List.length c) <= 100))
  /\ (forall (prices : list Seller.price_update)
             (tr_prices : list Seller.call),
      Seller.upload_prices world fuel watch_remnants tr
      = Some (Ok prices, tr_prices) ->
      exists ids tr1 chunks,
        Seller.get_offer_ids world fuel tr = Some (Ok ids, tr1)
        /\ tr_prices = tr1 ++ map Seller.UpdatePrice chunks
        /\ List.concat chunks = prices
        /\ (forall c, In c chunks -> 1 <= Z.of_nat (List.length c) <= 1000)).
Proof.
  unfold Seller.upload_stocks, Seller.upload_prices, io_bind, io_lift.
  destruct (Seller.get_offer_ids world fuel tr) as [[[ids|e] tr1]|];
    try (split; intros; discriminate).
  split.
  - intros not_empty stocks tr_stocks Hstocks.
    destruct (Seller.create_stocks _) as [[st mem]|e]; try discriminate.
    destruct (Seller.divide st 100) as [chunks|e] eqn:Hdiv; try discriminate.
    destruct (for_each _ chunks tr1) as [[[[]|e] tr2]|] eqn:Hrun;
      try discriminate.
    unfold io_ret in Hstocks. injection Hstocks as _ <- <-.
    exists ids, tr1, chunks. split; [reflexivity|].
    destruct (divide_chunks_facts _ st 100 chunks ltac:(lia) Hdiv) as [Hc Hb].
    split; [|split; assumption].
    exact (for_each_calls_ok Seller.UpdateStocks
             (Seller.update_stocks_answer world) chunks tr1 _ Hrun).
  - intros prices tr_prices Hprices.
    destruct (Seller.create_prices _) as [pr|e]; try discriminate.
    destruct (Seller.divide pr 1000) as [chunks|e] eqn:Hdiv; try discriminate.
    destruct (for_each _ chunks tr1) as [[[[]|e] tr2]|] eqn:Hrun;
      try discriminate.
    unfold io_ret in Hprices. injection Hprices as <- <-.
    exists ids, tr1, chunks. split; [reflexivity|].
    destruct (divide_chunks_facts _ pr 1000 chunks ltac:(lia) Hdiv) as [Hc Hb].
    split; [|split; assumption].
    exact (for_each_calls_ok Seller.UpdatePrice
             (Seller.update_price_answer world) chunks tr1 _ Hrun).
Qed.

(** On a feed whose price cell is a number [upload_prices] fails, and the
    stock uploads are still the batches of the updates; on the example feed
    both return. *)
Lemma seller_uploads_every_entry_once_example :
  Seller.upload_prices (seller_small (Ok tt) (Ok tt)) 3 numeric_price_feed []
  = Some (Raise AttributeError, [Seller.ProductList ""])
  /\ (exists ids tr1 chunks,
         Seller.get_offer_ids (seller_small (Ok tt) (Ok tt)) 3 []
         = Some (Ok ids, tr1)
         /\ [Seller.ProductList "";
             Seller.UpdateStocks
               [Seller.StockUpdate "GA-100" 100; Seller.StockUpdate "70212" 0;
                Seller.StockUpdate "B-7" 0]]
            = tr1 ++ map Seller.UpdateStocks chunks
         /\ List.concat chunks
            = [Seller.StockUpdate "GA-100" 100; Seller.StockUpdate "70212" 0;
               Seller.StockUpdate "B-7" 0]
         /\ (forall c, In c chunks -> 1 <= Z.of_nat (List.length c) <= 100))
  /\ (exists ids tr1 chunks,
         Seller.get_offer_ids (seller_small (Ok tt) (Ok tt)) 3 []
         = Some (Ok ids, tr1)
         /\ [Seller.ProductList "";
             Seller.UpdatePrice
               [Seller.PriceUpdate "UNKNOWN" "RUB" "GA-100" "0" "5990";
                Seller.PriceUpdate "UNKNOWN" "RUB" "70212" "0" "1200"]]
            = tr1 ++ map Seller.UpdatePrice chunks
         /\ List.concat chunks
            = [Seller.PriceUpdate "UNKNOWN" "RUB" "GA-100" "0" "5990";
               Seller.PriceUpdate "UNKNOWN" "RUB" "70212" "0" "1200"]
         /\ (forall c, In c chunks -> 1 <= Z.of_nat (List.length c) <= 1000)).
Proof.
  split; [reflexivity|]. split.
  - apply (proj1 (seller_uploads_every_entry_once
                    (seller_small (Ok tt) (Ok tt)) 3 numeric_price_feed [])
                 [Seller.StockUpdate "GA-100" 100]).
    reflexivity.
  - apply (proj2 (seller_uploads_every_entry_once
                    (seller_small (Ok tt) (Ok tt)) 3
                    (watch_remnants example_lists) [])).
    reflexivity.
Defined.

(** X16. When [upload_stocks] of market.py returns, what it sent after the
    listing is the list of updates cut in order into batches of at most
    2000, sent for the campaign, none of them empty.  When [upload_prices]
    returns, the same holds for the prices with batches of at most 500.
    Each of the two is stated by itself: one may return on a feed on which
    the other fails. *)
Theorem market_uploads_every_entry_once
        (world : Market.api) (fuel : nat) (watch_remnants : list watch)
        (campaign_id warehouse_id date : string) (tr : list Market.call) :
  (forall (not_empty stocks : list Market.stock_update)
          (tr_stocks : list Market.call),
      Market.upload_stocks world fuel watch_remnants
                           campaign_id warehouse_id date tr
      = Some (Ok (not_empty, stocks), tr_stocks) ->
      exists ids tr1 chunks,
        Market.get_offer_ids world fuel campaign_id tr = Some (Ok ids, tr1)
        /\ tr_stocks = tr1 ++ map (Market.UpdateStocks campaign_id) chunks
        /\ List.concat chunks = stocks
        /\ (forall c, In c chunks -> 1 <= Z.of_nat (List.length c) <= 2000))
  /\ (forall (prices : list Market.price_update)
             (tr_prices : list Market.call),
      Market.upload_prices world fuel watch_remnants campaign_id tr
      = Some (Ok prices, tr_prices) ->
      exists ids tr1 chunks,
        Market.get_offer_ids world fuel campaign_id tr = Some (Ok ids, tr1)
        /\ tr_prices = tr1 ++ map (Market.UpdatePrice campaign_id) chunks
        /\ List.concat chunks = prices
        /\ (forall c, In c chunks -> 1 <= Z.of_nat (List.length c) <= 500)).
Proof.
  unfold Market.upload_stocks, Market.upload_prices, io_bind, io_lift.
  destruct (Market.get_offer_ids world fuel campaign_id tr)
    as [[[ids|e] tr1]|]; try (split; intros; discriminate).
  split.
  - intros not_empty stocks tr_stocks Hstocks.
    destruct (Market.create_stocks _ _ _) as [[st mem]|e]; try discriminate.
    destruct (Seller.divide st 2000) as [chunks|e] eqn:Hdiv; try discriminate.
    destruct (for_each _ chunks tr1) as [[[[]|e] tr2]|] eqn:Hrun;
      try discriminate.
    destruct (Market.filter_raising _ st) as [ne|e]; try discriminate.
    unfold io_ret in Hstocks. injection Hstocks as _ <- <-.
    exists ids, tr1, chunks. split; [reflexivity|].
    destruct (divide_chunks_facts _ st 2000 chunks ltac:(lia) Hdiv) as [Hc Hb].
    split; [|split; assumption].
    exact (for_each_calls_ok (Market.UpdateStocks campaign_id)
             (fun n x => Market.update_stocks_answer world n campaign_id x)
             chunks tr1 _ Hrun).
  - intros prices tr_prices Hprices.
    destruct (Market.create_prices _) as [pr|e]; try discriminate.
    destruct (Seller.divide pr 500) as [chunks|e] eqn:Hdiv; try discriminate.
    destruct (for_each _ chunks tr1) as [[[[]|e] tr2]|] eqn:Hrun;
      try discriminate.
    unfold io_ret in Hprices. injection Hprices as <- <-.
    exists ids, tr1, chunks. split; [reflexivity|].
    destruct (divide_chunks_facts _ pr 500 chunks ltac:(lia) Hdiv) as [Hc Hb].
    split; [|split; assumption].
    exact (for_each_calls_ok (Market.UpdatePrice campaign_id)
             (fun n x => Market.update_price_answer world n campaign_id x)
             chunks tr1 _ Hrun).
Qed.

(** On a feed whose price cell is a number [upload_prices] fails, and the
    stock uploads are still the batches of the updates; on the example feed
    both return. *)
Lemma market_uploads_every_entry_once_example :
  Market.upload_prices (market_small (Ok tt) (Ok tt)) 3 numeric_price_feed
                       "fbs" []
  = Some (Raise AttributeError, [Market.ProductList "fbs" ""])
  /\ (exists ids tr1 chunks,
         Market.get_offer_ids (market_small (Ok tt) (Ok tt)) 3 "fbs" []
         = Some (Ok ids, tr1)
         /\ [Market.ProductList "fbs" "";
             Market.UpdateStocks "fbs"
               [market_entry "wh-1" "now" "GA-100" 100;
                market_entry "wh-1" "now" "70212" 0;
                market_entry "wh-1" "now" "B-7" 0]]
            = tr1 ++ map (Market.UpdateStocks "fbs") chunks
         /\ List.concat chunks
            = [market_entry "wh-1" "now" "GA-100" 100;
               market_entry "wh-1" "now" "70212" 0;
               market_entry "wh-1" "now" "B-7" 0]
         /\ (forall c, In c chunks -> 1 <= Z.of_nat (List.length c) <= 2000))
  /\ (exists ids tr1 chunks,
         Market.get_offer_ids (market_small (Ok tt) (Ok tt)) 3 "fbs" []
         = Some (Ok ids, tr1)
         /\ [Market.ProductList "fbs" "";
             Market.UpdatePrice "fbs"
               [Market.PriceUpdate "GA-100" (Market.PriceValue 5990 "RUR");
                Market.PriceUpdate "70212" (Market.PriceValue 1200 "RUR")]]
            = tr1 ++ map (Market.UpdatePrice "fbs") chunks
         /\ List.concat chunks
            = [Market.PriceUpdate "GA-100" (Market.PriceValue 5990 "RUR");
               Market.PriceUpdate "70212" (Market.PriceValue 1200 "RUR")]
         /\ (forall c, In c chunks -> 1 <= Z.of_nat (List.length c) <= 500)).
Proof.
  split; [reflexivity|]. split.
  - apply (proj1 (market_uploads_every_entry_once
                    (market_small (Ok tt) (Ok tt)) 3 numeric_price_feed
                    "fbs" "wh-1" "now" [])
                 [market_entry "wh-1" "now" "GA-100" 100]).
    reflexivity.
  - apply (proj2 (market_uploads_every_entry_once
                    (market_small (Ok tt) (Ok tt)) 3
                    (watch_remnants example_lists) "fbs" "wh-1" "now" [])).
    reflexivity.
Defined.

(** X17. When the first listing call raises, [upload_prices],
    [upload_stocks] and [main] of seller.py stop there: the exception is the
    outcome of the two uploads and the one message of [main], and the
    listing call is the only call issued (no download, no upload). *)
Theorem seller_listing_failure
        (world : Seller.api) (fuel : nat) (watch_remnants : list watch)
        (tr : list Seller.call) (e : exn) :
  (0 < fuel)%nat ->
  Seller.product_list_answer world (List.length tr) "" = Raise e ->
  Seller.upload_prices world fuel watch_remnants tr
  = Some (Raise e, tr ++ [Seller.ProductList ""])
  /\ Seller.upload_stocks world fuel watch_remnants tr
     = Some (Raise e, tr ++ [Seller.ProductList ""])
  /\ Seller.main world fuel tr
     = Some ([except_message e], tr ++ [Seller.ProductList ""]).
Proof.
  intros Hfuel Hans.
  assert (Hids : Seller.get_offer_ids world fuel tr
                 = Some (Raise e, tr ++ [Seller.ProductList ""])).
  { destruct fuel as [|fuel]; [lia|].
    unfold Seller.get_offer_ids, io_bind. cbn [Seller.offers_loop].
    unfold io_bind, Seller.get_product_list, io_call. now rewrite Hans. }
  unfold Seller.upload_prices, Seller.upload_stocks, Seller.main,
    Seller.main_body, io_bind.
  rewrite Hids. repeat split.
Qed.

Lemma seller_listing_failure_example :
  Seller.upload_prices seller_down 3 (watch_remnants example_lists) []
  = Some (Raise ConnectionError, [] ++ [Seller.ProductList ""])
  /\ Seller.upload_stocks seller_down 3 (watch_remnants example_lists) []
     = Some (Raise ConnectionError, [] ++ [Seller.ProductList ""])
  /\ Seller.main seller_down 3 []
     = Some ([except_message ConnectionError], [] ++ [Seller.ProductList ""]).
Proof.
  apply (seller_listing_failure seller_down 3 (watch_remnants example_lists) []).
  - lia.
  - reflexivity.
Defined.

(** X18. Every update that [create_stocks] of market.py returns carries the
    warehouse given to the call and exactly one item, of type ["FIT"], whose
    [updatedAt] is the one reading of the clock made at the start of the
    call; so [items[0]] always exists. *)
Theorem market_stock_updates_shape
        (warehouse_id date : string) (mem mem' : lists)
        (stocks : list Market.stock_update) :
  Market.create_stocks warehouse_id date mem = Ok (stocks, mem') ->
  forall s, In s stocks ->
    Market.warehouseId s = warehouse_id
    /\ exists q, Market.items s
                 = [ {| Market.i_count := q;
                        Market.i_type := "FIT";
                        Market.updatedAt := date |} ].
Proof.
  intros H s Hs.
  destruct (market_stocks_items _ _ _ _ _ H s Hs) as (id & q & ->).
  split; [reflexivity|]. exists q. reflexivity.
Qed.

Lemma market_stock_updates_shape_example :
  Market.create_stocks "wh-1" "now" example_lists
  = Ok ([market_entry "wh-1" "now" "GA-100" 100;
         market_entry "wh-1" "now" "70212" 0;
         market_entry "wh-1" "now" "B-7" 0;
         market_entry "wh-1" "now" "C-3" 0],
        set_offer_ids ["B-7"; "C-3"] example_lists)
  /\ Market.warehouseId (market_entry "wh-1" "now" "B-7" 0) = "wh-1"
  /\ exists q, Market.items (market_entry "wh-1" "now" "B-7" 0)
               = [ {| Market.i_count := q;
                      Market.i_type := "FIT";
                      Market.updatedAt := "now" |} ].
Proof.
  split; [reflexivity|].
  apply (market_stock_updates_shape
           "wh-1" "now" example_lists
           (set_offer_ids ["B-7"; "C-3"] example_lists)
           [market_entry "wh-1" "now" "GA-100" 100;
            market_entry "wh-1" "now" "70212" 0;
            market_entry "wh-1" "now" "B-7" 0;
            market_entry "wh-1" "now" "C-3" 0]).
  - reflexivity.
  - simpl. auto.
Defined.

(** ** One [try] block for two campaigns *)

Lemma market_main_campaign_other (world : Market.api) (fuel : nat)
      (watch_remnants : list watch)
      (campaign_id other_id warehouse_id date : string) :
  campaign_id <> other_id ->
  issues_none (market_campaign_call other_id)
              (Market.main_campaign world fuel watch_remnants
                                    campaign_id warehouse_id date).
Proof.
  intros Hne.
  assert (Hsel : String.eqb campaign_id other_id = false)
    by now apply String.eqb_neq.
  unfold Market.main_campaign. apply issues_none_bind.
  - apply issues_none_bind.
    + apply market_offers_loop_issues. intros page. exact Hsel.
    + intros products. apply issues_none_ret.
  - intros offer_ids. apply issues_none_bind; [apply issues_none_lift|].
    intros [stocks mem]. apply issues_none_bind; [apply issues_none_lift|].
    intros chunks. apply issues_none_for_each. intros chunk.
    apply issues_none_call. exact Hsel.
Qed.

(** X19. In [main] of market.py the two campaigns share one [try] block:
    when the work for the first campaign (FBS) raises, [main] prints the one
    message for that exception and ends, and no call at all is issued for
    the second campaign (DBS), whose stocks are left as they were. *)
Theorem market_main_first_campaign_failure
        (world : Market.api) (fuel : nat)
        (campaign_fbs_id campaign_dbs_id warehouse_fbs_id warehouse_dbs_id
         date_fbs date_dbs : string)
        (tr tr' : list Market.call) (feed : list watch) (e : exn) :
  campaign_fbs_id <> campaign_dbs_id ->
  Market.download_answer world (List.length tr) = Ok feed ->
  Market.main_campaign world fuel feed campaign_fbs_id warehouse_fbs_id
                       date_fbs (tr ++ [Market.DownloadStock])
  = Some (Raise e, tr') ->
  Market.main world fuel campaign_fbs_id campaign_dbs_id
              warehouse_fbs_id warehouse_dbs_id date_fbs date_dbs tr
  = Some (Ok [except_message e], tr')
  /\ filter (market_campaign_call campaign_dbs_id) tr'
     = filter (market_campaign_call campaign_dbs_id) tr.
Proof.
  intros Hne Hfeed Hfbs. split.
  - unfold Market.main, Market.download_stock, io_call. rewrite Hfeed.
    unfold io_bind. now rewrite Hfbs.
  - rewrite (market_main_campaign_other world fuel feed campaign_fbs_id
               campaign_dbs_id warehouse_fbs_id date_fbs Hne _ _ _ Hfbs).
    rewrite filter_app. simpl. apply app_nil_r.
Qed.

Lemma market_main_first_campaign_failure_example :
  Market.main market_refusing 3 "fbs" "dbs" "wf" "wd" "d1" "d2" []
  = Some (Ok [except_message HTTPError],
          [Market.DownloadStock;
           Market.ProductList "fbs" "";
           Market.UpdateStocks "fbs"
             [market_entry "wf" "d1" "GA-100" 100;
              market_entry "wf" "d1" "70212" 0;
              market_entry "wf" "d1" "B-7" 0]])
  /\ filter (market_campaign_call "dbs")
            [Market.DownloadStock;
             Market.ProductList "fbs" "";
             Market.UpdateStocks "fbs"
               [market_entry "wf" "d1" "GA-100" 100;
                market_entry "wf" "d1" "70212" 0;
                market_entry "wf" "d1" "B-7" 0]]
     = filter (market_campaign_call "dbs") [].
Proof.
  apply (market_main_first_campaign_failure
           market_refusing 3 "fbs" "dbs" "wf" "wd" "d1" "d2" [] _
           (watch_remnants example_lists) HTTPError).
  - discriminate.
  - reflexivity.
  - reflexivity.
Defined.

(** ** The two reconcilers agree *)

Section SameQuantities.
Context {U1 U2 : Type} (mk1 : string -> Z -> U1) (mk2 : string -> Z -> U2)
        (h : U1 -> U2).
Hypothesis mk2_h : forall id q, mk2 id q = h (mk1 id q).

Lemma stocks_loop_of_map (ws : list watch) :
  forall (stocks : list U1) (mem : lists),
    stocks_loop_of mk2 ws (map h stocks) mem
    = ('(out, mem') <- stocks_loop_of mk1 ws stocks mem ;;
       Ok (map h out, mem')).
Proof.
  induction ws as [|w rest IH]; intros stocks mem; simpl; [reflexivity|].
  destruct (contains (str (w_code w)) (offer_ids mem)); [|apply IH].
  destruct (stock_of_count (w_count w)) as [q|e]; simpl; [|reflexivity].
  destruct (remove (str (w_code w)) (offer_ids mem)) as [ids|e]; simpl;
    [|reflexivity].
  rewrite <- IH, map_app, mk2_h. reflexivity.
Qed.

Lemma create_stocks_of_map (mem : lists) :
  create_stocks_of mk2 mem
  = ('(out, mem') <- create_stocks_of mk1 mem ;; Ok (map h out, mem')).
Proof.
  unfold create_stocks_of.
  change (@nil U2) with (map h []).
  rewrite (stocks_loop_of_map (watch_remnants mem) [] mem).
  destruct (stocks_loop_of mk1 (watch_remnants mem) [] mem)
    as [[out mem']|e]; simpl; [|reflexivity].
  unfold zero_fill_of. rewrite map_app, map_map.
  do 3 f_equal. apply map_ext. intros id. apply mk2_h.
Qed.

End SameQuantities.

(** X20. On the same feed and the same known ids the two [create_stocks]
    agree: that of market.py returns, update for update and in the same
    order, the offer ids and quantities of that of seller.py, wrapped with
    the warehouse and the date, leaves the same ids in the list, and raises
    the same exception when the other raises. *)
Theorem create_stocks_same_quantities
        (warehouse_id date : string) (mem : lists) :
  Market.create_stocks warehouse_id date mem
  = ('(stocks, mem') <- Seller.create_stocks mem ;;
     Ok (map (fun u => market_entry warehouse_id date
                                    (Seller.offer_id u) (Seller.stock u))
             stocks,
         mem')).
Proof.
  rewrite market_create_stocks_shape, seller_create_stocks_shape.
  apply create_stocks_of_map. reflexivity.
Qed.
